(** * Hanks-Server: content lifecycle, comment threads and counters

    A shallow embedding of the service layer of the blog backend
    (PostService, CommentService, CategoryService, NotificationService and
    the Mongoose models they use), followed by the properties of its
    specification.

    Modelling conventions.
    - A MongoDB collection is a list of documents in insertion order; a
      document is a record with the schema's fields that the services read
      or write.  Presentation-only fields (the slug and summary that a
      post derives by regular expressions, featuredImage, the texts and
      links of notifications) are not carried, and schema validators
      (required, maxlength, enum) are taken as passed: the services run
      on validated input.  The one validator written out is [required]
      on the slug of a post, which a request to createPost may leave
      out and which is checked before the save hook runs.
    - An ObjectId is its hexadecimal string, a Date is a number of
      milliseconds; [new Date()] and [new ObjectId()] are inputs of the
      operation that evaluates them.  Ids are strings of 24 hexadecimal
      digits, stored in lower case.  An operation that hands its id
      arguments only to Mongoose is run on ids in that spelling, for
      which the cast to ObjectId changes nothing; updateCategory also
      compares its id arguments as strings, so its model writes the
      cast out and takes the ids in either case.
    - An [async] method is a state transformer over the database that
      returns either a value or the error it throws; every operation is
      run to completion before the next one starts.
    - JavaScript truthiness is written out: an optional string counts as
      present only when it is defined and not empty. *)

From Stdlib Require Import String Ascii List ZArith Bool Lia Arith PeanoNat.
From Stdlib Require Import DecimalString Relations Sorted.
Import ListNotations.

Open Scope string_scope.
Open Scope list_scope.
Open Scope Z_scope.

(** ** Values, errors and the operation monad *)

Definition ObjectId := string.
Definition Date := Z.

(** [AppError] is src/utils/appError; [ValidationError] is the error of
    Mongoose when a document fails its schema; [MongoError] stands for an
    error raised by the driver (duplicate key, unavailable server, bad
    cursor argument). *)
Inductive Error : Type :=
| AppError (message : string) (statusCode : Z)
| ValidationError (message : string)
| MongoError (message : string).

Inductive Result (A : Type) : Type :=
| Ok (a : A)
| Err (e : Error).
Arguments Ok {A} a.
Arguments Err {A} e.

(** [error.statusCode], which only an AppError carries. *)
Definition statusCode (e : Error) : option Z :=
  match e with
  | AppError _ code => Some code
  | ValidationError _ => None
  | MongoError _ => None
  end.

Section OperationMonad.
Context {S : Type}.

Definition M (A : Type) : Type := S -> S * Result A.

Definition ret {A} (a : A) : M A := fun s => (s, Ok a).

Definition bind {A B} (m : M A) (k : A -> M B) : M B :=
  fun s => match m s with
           | (s', Ok a) => k a s'
           | (s', Err e) => (s', Err e)
           end.

Definition throw {A} (e : Error) : M A := fun s => (s, Err e).

Definition get : M S := fun s => (s, Ok s).

Definition modify (f : S -> S) : M unit := fun s => (f s, Ok tt).

(** [try { body } catch (e) { handler e }] *)
Definition tryCatch {A} (body : M A) (handler : Error -> M A) : M A :=
  fun s => match body s with
           | (s', Ok a) => (s', Ok a)
           | (s', Err e) => handler e s'
           end.

(** A write that the driver may refuse. *)
Definition driver (fault : option Error) : M unit :=
  match fault with
  | Some e => throw e
  | None => ret tt
  end.
End OperationMonad.

Notation "x <- m ;; k" := (bind m (fun x => k))
  (at level 61, m at next level, right associativity).
Notation "m ;;; k" := (bind m (fun _ => k))
  (at level 61, right associativity).

(** [if (s)] on an optional string. *)
Definition truthy (o : option string) : option string :=
  match o with
  | Some s => if String.eqb s EmptyString then None else Some s
  | None => None
  end.

(** The hexadecimal digit as [ObjectId.prototype.toString] prints it. *)
Definition lowerHex (c : ascii) : ascii :=
  match c with
  | "A" => "a" | "B" => "b" | "C" => "c"
  | "D" => "d" | "E" => "e" | "F" => "f"
  | _ => c
  end%char.

(** The cast of a string of 24 hexadecimal digits to an ObjectId, read
    back as a string: the digits in lower case.  Mongoose applies it to
    the argument of [findById], to an id in a query and to the value of
    an ObjectId path before it compares or stores it; [===] on the
    strings themselves does not. *)
Fixpoint castId (id : string) : ObjectId :=
  match id with
  | EmptyString => EmptyString
  | String c rest => String (lowerHex c) (castId rest)
  end.

(** [s.trim() === '']: the string holds nothing but the white space and
    line terminators that [String.prototype.trim] removes, read in their
    UTF-8 encoding. *)
Fixpoint blank (s : string) : bool :=
  match s with
  | EmptyString => true
  | String c r =>
      if ((9 <=? nat_of_ascii c) && (nat_of_ascii c <=? 13))%nat
         || (nat_of_ascii c =? 32)%nat
      then blank r
      else
        match nat_of_ascii c, r with
        | 194%nat, String c1 r1 =>
            (nat_of_ascii c1 =? 160)%nat && blank r1
        | 225%nat, String c1 (String c2 r2) =>
            (nat_of_ascii c1 =? 154)%nat && (nat_of_ascii c2 =? 128)%nat
            && blank r2
        | 226%nat, String c1 (String c2 r2) =>
            (((nat_of_ascii c1 =? 128)%nat
              && (((128 <=? nat_of_ascii c2) && (nat_of_ascii c2 <=? 138))%nat
                  || (nat_of_ascii c2 =? 168)%nat
                  || (nat_of_ascii c2 =? 169)%nat
                  || (nat_of_ascii c2 =? 175)%nat))
             || ((nat_of_ascii c1 =? 129)%nat
                 && (nat_of_ascii c2 =? 159)%nat))
            && blank r2
        | 227%nat, String c1 (String c2 r2) =>
            (nat_of_ascii c1 =? 128)%nat && (nat_of_ascii c2 =? 128)%nat
            && blank r2
        | 239%nat, String c1 (String c2 r2) =>
            (nat_of_ascii c1 =? 187)%nat && (nat_of_ascii c2 =? 191)%nat
            && blank r2
        | _, _ => false
        end
  end.

Definition memId (u : ObjectId) (l : list ObjectId) : bool :=
  existsb (String.eqb u) l.

Definition removeId (u : ObjectId) (l : list ObjectId) : list ObjectId :=
  filter (fun i => negb (String.eqb i u)) l.

Definition lengthZ {A} (l : list A) : Z := Z.of_nat (length l).

(** ** Collections *)

Class Document (A : Type) : Type := docId : A -> ObjectId.

Section Collections.
Context {A : Type} `{Document A}.

(** [Model.findOne(query)]: the first document that matches. *)
Definition findOne (q : A -> bool) (l : list A) : option A := find q l.

(** [Model.findById(id)] on a model without query middleware. *)
Definition findById (l : list A) (id : ObjectId) : option A :=
  findOne (fun d => String.eqb (docId d) id) l.

(** [updateOne({_id: id}, ...)]: rewrites the first document with that id;
    this is also what [doc.save()] does for a loaded document. *)
Fixpoint updateById (id : ObjectId) (f : A -> A) (l : list A) : list A :=
  match l with
  | [] => []
  | d :: r => if String.eqb (docId d) id then f d :: r
              else d :: updateById id f r
  end.

Definition save (d : A) (l : list A) : list A :=
  updateById (docId d) (fun _ => d) l.

(** [insertOne]: the unique index on [_id] refuses a second document
    with the same id. *)
Definition insertOne (d : A) (l : list A) : Result (list A) :=
  match findById l (docId d) with
  | Some _ => Err (MongoError "E11000 duplicate key error")
  | None => Ok (l ++ [d])
  end.

(** [countDocuments(query)] *)
Definition countDocuments (q : A -> bool) (l : list A) : Z :=
  lengthZ (filter q l).
End Collections.

Section Deletions.
Context {A : Type}.

(** [deleteOne(query)] and [findByIdAndDelete]: removes the first
    document that matches. *)
Fixpoint deleteFirst (q : A -> bool) (l : list A) : list A :=
  match l with
  | [] => []
  | d :: r => if q d then r else d :: deleteFirst q r
  end.

(** [deleteMany(query)] *)
Definition deleteMany (q : A -> bool) (l : list A) : list A :=
  filter (fun d => negb (q d)) l.
End Deletions.

(** [`${n}`] for a count. *)
Definition showCount (n : Z) : string :=
  NilZero.string_of_int (Z.to_int n).

(** [cursor.skip(skip).limit(limit)]: the server refuses a negative skip,
    limit 0 means no limit and the driver sends a negative limit as its
    absolute value. *)
Definition paginate {A} (skip limit : Z) (l : list A) : Result (list A) :=
  if skip <? 0 then Err (MongoError "Skip value must be non-negative")
  else
    let r := skipn (Z.to_nat skip) l in
    Ok (if limit =? 0 then r else firstn (Z.to_nat (Z.abs limit)) r).

(** [cursor.sort(...)] as a stable insertion sort; [before a b] says that
    [a] must not come after [b].  Documents that compare equal keep their
    stored order, which the server leaves open. *)
Section Sort.
Context {A : Type} (before : A -> A -> bool).

Fixpoint insertSorted (x : A) (l : list A) : list A :=
  match l with
  | [] => [x]
  | y :: r => if before x y then x :: l else y :: insertSorted x r
  end.

Fixpoint sortBy (l : list A) : list A :=
  match l with
  | [] => []
  | x :: r => insertSorted x (sortBy r)
  end.
End Sort.

(** [Math.ceil(total / limit)]; not a finite number when [limit] is 0. *)
Definition totalPages (total limit : Z) : option Z :=
  if limit =? 0 then None else Some (- ((- total) / limit)).

Record Meta : Type := {
  total : Z;
  page : Z;
  limit : Z;
  pages : option Z
}.

(** ** Models *)

Module User.
Record doc : Type := {
  _id : ObjectId;
  username : string
}.
End User.

Module Tag.
Record doc : Type := {
  _id : ObjectId;
  name : string
}.
End Tag.

Module Category.
Record doc : Type := {
  _id : ObjectId;
  name : string;
  slug : string;
  description : string;
  parentCategory : option ObjectId;
  order : Z
}.

Definition set_name (v : string) (c : doc) : doc :=
  {| _id := _id c; name := v; slug := slug c;
     description := description c;
     parentCategory := parentCategory c; order := order c |}.

Definition set_slug (v : string) (c : doc) : doc :=
  {| _id := _id c; name := name c; slug := v;
     description := description c;
     parentCategory := parentCategory c; order := order c |}.

Definition set_description (v : string) (c : doc) : doc :=
  {| _id := _id c; name := name c; slug := slug c;
     description := v;
     parentCategory := parentCategory c; order := order c |}.

Definition set_parentCategory (v : option ObjectId) (c : doc) : doc :=
  {| _id := _id c; name := name c; slug := slug c;
     description := description c;
     parentCategory := v; order := order c |}.

Definition set_order (v : Z) (c : doc) : doc :=
  {| _id := _id c; name := name c; slug := slug c;
     description := description c;
     parentCategory := parentCategory c; order := v |}.
End Category.

(** [enum PostStatus] *)
Inductive PostStatus : Type := DRAFT | PUBLISHED | SCHEDULED.

Definition PostStatus_eqb (a b : PostStatus) : bool :=
  match a, b with
  | DRAFT, DRAFT | PUBLISHED, PUBLISHED | SCHEDULED, SCHEDULED => true
  | _, _ => false
  end.

Module Post.
Record doc : Type := {
  _id : ObjectId;
  title : string;
  content : string;
  author : ObjectId;
  category : ObjectId;
  tags : list ObjectId;
  status : PostStatus;
  publishDate : option Date;
  viewCount : Z;
  likeCount : Z;
  commentCount : Z;
  likes : list ObjectId
}.

Definition set_title (v : string) (p : doc) : doc :=
  {| _id := _id p; title := v; content := content p; author := author p;
     category := category p; tags := tags p; status := status p;
     publishDate := publishDate p; viewCount := viewCount p;
     likeCount := likeCount p; commentCount := commentCount p;
     likes := likes p |}.

Definition set_content (v : string) (p : doc) : doc :=
  {| _id := _id p; title := title p; content := v; author := author p;
     category := category p; tags := tags p; status := status p;
     publishDate := publishDate p; viewCount := viewCount p;
     likeCount := likeCount p; commentCount := commentCount p;
     likes := likes p |}.

Definition set_category (v : ObjectId) (p : doc) : doc :=
  {| _id := _id p; title := title p; content := content p;
     author := author p; category := v; tags := tags p;
     status := status p; publishDate := publishDate p;
     viewCount := viewCount p; likeCount := likeCount p;
     commentCount := commentCount p; likes := likes p |}.

Definition set_tags (v : list ObjectId) (p : doc) : doc :=
  {| _id := _id p; title := title p; content := content p;
     author := author p; category := category p; tags := v;
     status := status p; publishDate := publishDate p;
     viewCount := viewCount p; likeCount := likeCount p;
     commentCount := commentCount p; likes := likes p |}.

Definition set_status (v : PostStatus) (p : doc) : doc :=
  {| _id := _id p; title := title p; content := content p;
     author := author p; category := category p; tags := tags p;
     status := v; publishDate := publishDate p;
     viewCount := viewCount p; likeCount := likeCount p;
     commentCount := commentCount p; likes := likes p |}.

Definition set_publishDate (v : option Date) (p : doc) : doc :=
  {| _id := _id p; title := title p; content := content p;
     author := author p; category := category p; tags := tags p;
     status := status p; publishDate := v;
     viewCount := viewCount p; likeCount := likeCount p;
     commentCount := commentCount p; likes := likes p |}.

Definition set_likes (v : list ObjectId) (p : doc) : doc :=
  {| _id := _id p; title := title p; content := content p;
     author := author p; category := category p; tags := tags p;
     status := status p; publishDate := publishDate p;
     viewCount := viewCount p; likeCount := likeCount p;
     commentCount := commentCount p; likes := v |}.

Definition set_likeCount (v : Z) (p : doc) : doc :=
  {| _id := _id p; title := title p; content := content p;
     author := author p; category := category p; tags := tags p;
     status := status p; publishDate := publishDate p;
     viewCount := viewCount p; likeCount := v;
     commentCount := commentCount p; likes := likes p |}.

(** [{ $inc: { commentCount: n } }] *)
Definition inc_commentCount (n : Z) (p : doc) : doc :=
  {| _id := _id p; title := title p; content := content p;
     author := author p; category := category p; tags := tags p;
     status := status p; publishDate := publishDate p;
     viewCount := viewCount p; likeCount := likeCount p;
     commentCount := commentCount p + n; likes := likes p |}.

(** [PostSchema.pre('save')], the part on the carried fields: a published
    post without a publish date gets the current time. *)
Definition preSave (now : Date) (p : doc) : doc :=
  match status p, publishDate p with
  | PUBLISHED, None => set_publishDate (Some now) p
  | _, _ => p
  end.
End Post.

Module Comment.
Record doc : Type := {
  _id : ObjectId;
  content : string;
  post : ObjectId;
  author : ObjectId;
  parentComment : option ObjectId;
  level : Z;
  path : string;
  likes : list ObjectId;
  likeCount : Z;
  isEdited : bool;
  isApproved : bool;
  isHighlighted : bool;
  isDeleted : bool;
  deletedAt : option Date;
  createdAt : Date
}.

Definition set_content (v : string) (c : doc) : doc :=
  {| _id := _id c; content := v; post := post c; author := author c;
     parentComment := parentComment c; level := level c; path := path c;
     likes := likes c; likeCount := likeCount c; isEdited := isEdited c;
     isApproved := isApproved c; isHighlighted := isHighlighted c;
     isDeleted := isDeleted c; deletedAt := deletedAt c;
     createdAt := createdAt c |}.

Definition set_level (v : Z) (c : doc) : doc :=
  {| _id := _id c; content := content c; post := post c;
     author := author c; parentComment := parentComment c; level := v;
     path := path c; likes := likes c; likeCount := likeCount c;
     isEdited := isEdited c; isApproved := isApproved c;
     isHighlighted := isHighlighted c; isDeleted := isDeleted c;
     deletedAt := deletedAt c; createdAt := createdAt c |}.

Definition set_path (v : string) (c : doc) : doc :=
  {| _id := _id c; content := content c; post := post c;
     author := author c; parentComment := parentComment c;
     level := level c; path := v; likes := likes c;
     likeCount := likeCount c; isEdited := isEdited c;
     isApproved := isApproved c; isHighlighted := isHighlighted c;
     isDeleted := isDeleted c; deletedAt := deletedAt c;
     createdAt := createdAt c |}.

Definition set_likes (v : list ObjectId) (c : doc) : doc :=
  {| _id := _id c; content := content c; post := post c;
     author := author c; parentComment := parentComment c;
     level := level c; path := path c; likes := v;
     likeCount := likeCount c; isEdited := isEdited c;
     isApproved := isApproved c; isHighlighted := isHighlighted c;
     isDeleted := isDeleted c; deletedAt := deletedAt c;
     createdAt := createdAt c |}.

Definition set_likeCount (v : Z) (c : doc) : doc :=
  {| _id := _id c; content := content c; post := post c;
     author := author c; parentComment := parentComment c;
     level := level c; path := path c; likes := likes c;
     likeCount := v; isEdited := isEdited c;
     isApproved := isApproved c; isHighlighted := isHighlighted c;
     isDeleted := isDeleted c; deletedAt := deletedAt c;
     createdAt := createdAt c |}.

Definition set_isEdited (v : bool) (c : doc) : doc :=
  {| _id := _id c; content := content c; post := post c;
     author := author c; parentComment := parentComment c;
     level := level c; path := path c; likes := likes c;
     likeCount := likeCount c; isEdited := v;
     isApproved := isApproved c; isHighlighted := isHighlighted c;
     isDeleted := isDeleted c; deletedAt := deletedAt c;
     createdAt := createdAt c |}.

Definition set_isApproved (v : bool) (c : doc) : doc :=
  {| _id := _id c; content := content c; post := post c;
     author := author c; parentComment := parentComment c;
     level := level c; path := path c; likes := likes c;
     likeCount := likeCount c; isEdited := isEdited c;
     isApproved := v; isHighlighted := isHighlighted c;
     isDeleted := isDeleted c; deletedAt := deletedAt c;
     createdAt := createdAt c |}.

Definition set_isHighlighted (v : bool) (c : doc) : doc :=
  {| _id := _id c; content := content c; post := post c;
     author := author c; parentComment := parentComment c;
     level := level c; path := path c; likes := likes c;
     likeCount := likeCount c; isEdited := isEdited c;
     isApproved := isApproved c; isHighlighted := v;
     isDeleted := isDeleted c; deletedAt := deletedAt c;
     createdAt := createdAt c |}.

(** [comment.isDeleted = true; comment.deletedAt = new Date()] *)
Definition set_deleted (now : Date) (c : doc) : doc :=
  {| _id := _id c; content := content c; post := post c;
     author := author c; parentComment := parentComment c;
     level := level c; path := path c; likes := likes c;
     likeCount := likeCount c; isEdited := isEdited c;
     isApproved := isApproved c; isHighlighted := isHighlighted c;
     isDeleted := true; deletedAt := Some now;
     createdAt := createdAt c |}.

(** [new Comment(commentData)]: the schema defaults around the fields
    that createComment supplies. *)
Definition make (id : ObjectId) (now : Date) (content0 : string)
    (post0 author0 : ObjectId) (parent : option ObjectId) : doc :=
  {| _id := id; content := content0; post := post0; author := author0;
     parentComment := parent; level := 1; path := EmptyString;
     likes := []; likeCount := 0; isEdited := false; isApproved := true;
     isHighlighted := false; isDeleted := false; deletedAt := None;
     createdAt := now |}.
End Comment.

(** [enum NotificationType] *)
Inductive NotificationType : Type :=
| FOLLOW | COMMENT | REPLY | LIKE_POST | LIKE_COMMENT | MENTION | SYSTEM.

Module Notification.
Record doc : Type := {
  _id : ObjectId;
  recipient : ObjectId;
  sender : option ObjectId;
  type : NotificationType;
  isRead : bool;
  relatedPost : option ObjectId;
  relatedComment : option ObjectId
}.
End Notification.

#[export] Instance User_Document : Document User.doc := User._id.
#[export] Instance Tag_Document : Document Tag.doc := Tag._id.
#[export] Instance Category_Document : Document Category.doc := Category._id.
#[export] Instance Post_Document : Document Post.doc := Post._id.
#[export] Instance Comment_Document : Document Comment.doc := Comment._id.
#[export] Instance Notification_Document : Document Notification.doc :=
  Notification._id.

(** ** The database *)

Record Store : Type := {
  users : list User.doc;
  tagDocs : list Tag.doc;
  categories : list Category.doc;
  posts : list Post.doc;
  comments : list Comment.doc;
  notifications : list Notification.doc
}.

Definition set_categories (f : list Category.doc -> list Category.doc)
    (s : Store) : Store :=
  {| users := users s; tagDocs := tagDocs s; categories := f (categories s);
     posts := posts s; comments := comments s;
     notifications := notifications s |}.

Definition set_posts (f : list Post.doc -> list Post.doc)
    (s : Store) : Store :=
  {| users := users s; tagDocs := tagDocs s; categories := categories s;
     posts := f (posts s); comments := comments s;
     notifications := notifications s |}.

Definition set_comments (f : list Comment.doc -> list Comment.doc)
    (s : Store) : Store :=
  {| users := users s; tagDocs := tagDocs s; categories := categories s;
     posts := posts s; comments := f (comments s);
     notifications := notifications s |}.

Definition set_notifications
    (f : list Notification.doc -> list Notification.doc)
    (s : Store) : Store :=
  {| users := users s; tagDocs := tagDocs s; categories := categories s;
     posts := posts s; comments := comments s;
     notifications := f (notifications s) |}.

(** Reads of one collection inside an operation. *)
Definition reading {A} (f : Store -> A) : M (S := Store) A :=
  s <- get ;; ret (f s).

(** [Model.create]: runs the insert and raises the driver's error. *)
Definition inserting {A} `{Document A} (proj : Store -> list A)
    (upd : (list A -> list A) -> Store -> Store) (d : A)
    : M (S := Store) unit :=
  s <- get ;;
  match insertOne d (proj s) with
  | Ok l => modify (upd (fun _ => l))
  | Err e => throw e
  end.

(** What the environment supplies while one operation runs: the clock, the
    ObjectIds the driver generates for the documents the operation inserts,
    and whether the insert of the notification is refused. *)
Record Env : Type := {
  now : Date;
  freshId : ObjectId;
  notificationId : ObjectId;
  notificationFault : option Error
}.

(** ** Comment model: query middleware and save hook (models/Comment) *)

Module CommentModel.
Import Comment.

(** [CommentSchema.pre('find')]: every [find] also asks for
    [isDeleted: false]. *)
Definition find (q : doc -> bool) (l : list doc) : list doc :=
  filter (fun c => q c && negb (isDeleted c)) l.

(** [CommentSchema.pre('findOne')]; [findById] is a [findOne] on the id
    and runs the same middleware. *)
Definition findById (l : list doc) (id : ObjectId) : option doc :=
  findOne (fun c => String.eqb (_id c) id && negb (isDeleted c)) l.

(** [`${parentComment.path}/${comment.parentComment}`], or the parent's
    id alone under an empty path. *)
Definition childPath (parentPath : string) (parentId : ObjectId) : string :=
  if String.eqb parentPath EmptyString then parentId
  else (parentPath ++ "/" ++ parentId)%string.

Definition incCommentCount (postId : ObjectId) (n : Z)
    : M (S := Store) unit :=
  modify (set_posts (updateById postId (Post.inc_commentCount n))).

(** [CommentSchema.pre('save')] on a new document. *)
Definition preSaveNew (c : doc) : M (S := Store) doc :=
  match parentComment c with
  | Some pid =>
      parent <- reading (fun s => findById (comments s) pid) ;;
      match parent with
      | Some parent =>
          let c' := set_path (childPath (path parent) pid)
                      (set_level (level parent + 1) c) in
          incCommentCount (post c) 1 ;;;
          ret c'
      | None => ret c
      end
  | None =>
      incCommentCount (post c) 1 ;;;
      ret (set_path EmptyString c)
  end.

(** [Comment.create([commentData])]: hook, then insert. *)
Definition create (c : doc) : M (S := Store) doc :=
  c' <- preSaveNew c ;;
  inserting comments set_comments c' ;;;
  ret c'.

(** [comment.save()] on a loaded document: the hook does nothing when
    [isNew] is false. *)
Definition saveDoc (c : doc) : M (S := Store) unit :=
  modify (set_comments (save c)).
End CommentModel.

(** ** NotificationService (services/notificationService) *)

Module NotificationService.

Definition createNotification (env : Env) (n : Notification.doc)
    : M (S := Store) unit :=
  driver (notificationFault env) ;;;
  inserting notifications set_notifications n.

Record CommentNotificationDTO : Type := {
  cn_postId : ObjectId;
  cn_commentId : ObjectId;
  commenterId : ObjectId;
  postAuthorId : ObjectId
}.

Definition createCommentNotification (env : Env)
    (data : CommentNotificationDTO) : M (S := Store) unit :=
  commenter <- reading (fun s => findById (users s) (commenterId data)) ;;
  post <- reading (fun s => findById (posts s) (cn_postId data)) ;;
  match commenter, post with
  | Some _, Some _ =>
      createNotification env
        {| Notification._id := notificationId env;
           Notification.recipient := postAuthorId data;
           Notification.sender := Some (commenterId data);
           Notification.type := COMMENT;
           Notification.isRead := false;
           Notification.relatedPost := Some (cn_postId data);
           Notification.relatedComment := Some (cn_commentId data) |}
  | _, _ => throw (AppError "用户或文章不存在" 404)
  end.

Record ReplyNotificationDTO : Type := {
  rn_postId : ObjectId;
  rn_commentId : ObjectId;
  replyToCommentId : ObjectId;
  replyerId : ObjectId;
  recipientId : ObjectId
}.

Definition createReplyNotification (env : Env)
    (data : ReplyNotificationDTO) : M (S := Store) unit :=
  replier <- reading (fun s => findById (users s) (replyerId data)) ;;
  post <- reading (fun s => findById (posts s) (rn_postId data)) ;;
  match replier, post with
  | Some _, Some _ =>
      createNotification env
        {| Notification._id := notificationId env;
           Notification.recipient := recipientId data;
           Notification.sender := Some (replyerId data);
           Notification.type := REPLY;
           Notification.isRead := false;
           Notification.relatedPost := Some (rn_postId data);
           Notification.relatedComment := Some (rn_commentId data) |}
  | _, _ => throw (AppError "用户或文章不存在" 404)
  end.

Record LikeCommentNotificationDTO : Type := {
  ln_commentId : ObjectId;
  likerId : ObjectId;
  ln_authorId : ObjectId
}.

(** The comment is loaded with its post populated; reading [post._id] of
    a post that no longer exists is a TypeError. *)
Definition createLikeCommentNotification (env : Env)
    (data : LikeCommentNotificationDTO) : M (S := Store) unit :=
  liker <- reading (fun s => findById (users s) (likerId data)) ;;
  comment <- reading
    (fun s => CommentModel.findById (comments s) (ln_commentId data)) ;;
  match liker, comment with
  | Some _, Some comment =>
      post <- reading (fun s => findById (posts s) (Comment.post comment)) ;;
      match post with
      | Some post =>
          createNotification env
            {| Notification._id := notificationId env;
               Notification.recipient := ln_authorId data;
               Notification.sender := Some (likerId data);
               Notification.type := LIKE_COMMENT;
               Notification.isRead := false;
               Notification.relatedPost := Some (Post._id post);
               Notification.relatedComment := Some (ln_commentId data) |}
      | None => throw (MongoError "TypeError: Cannot read properties of null")
      end
  | _, _ => throw (AppError "用户或评论不存在" 404)
  end.

(** [deleteOne({ _id, recipient })]; nothing deleted is a 404. *)
Definition deleteNotification (notificationId userId : ObjectId)
    : M (S := Store) unit :=
  let q := fun n => String.eqb (Notification._id n) notificationId
                    && String.eqb (Notification.recipient n) userId in
  deletedCount <- reading
    (fun s => if existsb q (notifications s) then 1 else 0) ;;
  modify (set_notifications (deleteFirst q)) ;;;
  if deletedCount =? 0
  then throw (AppError "通知不存在或无权操作" 404)
  else ret tt.

(** The query of deleteNotifications, when it deletes at all: the listed
    ids if any are given, else the read notifications if asked for. *)
Definition deletionQuery (userId : ObjectId)
    (notificationIds : option (list ObjectId)) (deleteAllRead : option bool)
    : option (Notification.doc -> bool) :=
  match notificationIds with
  | Some ((_ :: _) as ids) =>
      Some (fun n => String.eqb (Notification.recipient n) userId
                     && memId (Notification._id n) ids)
  | _ =>
      match deleteAllRead with
      | Some true =>
          Some (fun n => String.eqb (Notification.recipient n) userId
                         && Notification.isRead n)
      | _ => None
      end
  end.

Definition deleteNotifications (userId : ObjectId)
    (notificationIds : option (list ObjectId)) (deleteAllRead : option bool)
    : M (S := Store) Z :=
  match deletionQuery userId notificationIds deleteAllRead with
  | Some q =>
      deletedCount <- reading (fun s => countDocuments q (notifications s)) ;;
      modify (set_notifications (deleteMany q)) ;;;
      ret deletedCount
  | None => ret 0
  end.
End NotificationService.

(** ** CommentService (services/commentService) *)

Module CommentService.
Import Comment.

Record CreateCommentDTO : Type := {
  dto_content : string;
  postId : ObjectId;
  authorId : ObjectId;
  parentCommentId : option ObjectId
}.

(** The [try] block around the two notifications of createComment. *)
Definition notifyNewComment (env : Env) (data : CreateCommentDTO)
    (postAuthor : ObjectId) (commentId : ObjectId) : M (S := Store) unit :=
  (if negb (String.eqb postAuthor (authorId data))
      && match truthy (parentCommentId data) with
         | None => true | Some _ => false end
   then NotificationService.createCommentNotification env
          {| NotificationService.cn_postId := postId data;
             NotificationService.cn_commentId := commentId;
             NotificationService.commenterId := authorId data;
             NotificationService.postAuthorId := postAuthor |}
   else ret tt) ;;;
  match truthy (parentCommentId data) with
  | Some pid =>
      parentComment <- reading
        (fun s => CommentModel.findById (comments s) pid) ;;
      match parentComment with
      | Some parentComment =>
          authorDoc <- reading
            (fun s => findById (users s) (author parentComment)) ;;
          match authorDoc with
          | Some authorDoc =>
              if negb (String.eqb (User._id authorDoc) (authorId data))
              then NotificationService.createReplyNotification env
                     {| NotificationService.rn_postId := postId data;
                        NotificationService.rn_commentId := commentId;
                        NotificationService.replyToCommentId := pid;
                        NotificationService.replyerId := authorId data;
                        NotificationService.recipientId :=
                          User._id authorDoc |}
              else ret tt
          | None => ret tt
          end
      | None => ret tt
      end
  | None => ret tt
  end.

(** The part of createComment before the notifications: the checks, the
    insert and the re-read of the inserted comment.  The insert is the
    only write bound to the session and nothing throws after it, so the
    [abortTransaction] of the catch block has nothing to undo; the
    increment of the save hook is not bound to the session. *)
Definition insertComment (env : Env) (data : CreateCommentDTO)
    : M (S := Store) (Post.doc * doc * option doc) :=
  post <- reading (fun s => findById (posts s) (postId data)) ;;
  match post with
  | None => throw (AppError "文章不存在" 404)
  | Some post =>
      author <- reading (fun s => findById (users s) (authorId data)) ;;
      match author with
      | None => throw (AppError "用户不存在" 404)
      | Some _ =>
          parent <-
            match truthy (parentCommentId data) with
            | Some pid =>
                parentComment <- reading
                  (fun s => CommentModel.findById (comments s) pid) ;;
                match parentComment with
                | None => throw (AppError "父评论不存在" 404)
                | Some _ => ret (Some pid)
                end
            | None => ret None
            end ;;
          comment <- CommentModel.create
            (make (freshId env) (now env) (dto_content data)
               (postId data) (authorId data) parent) ;;
          populatedComment <- reading
            (fun s => CommentModel.findById (comments s) (_id comment)) ;;
          ret (post, comment, populatedComment)
      end
  end.

Definition createComment (env : Env) (data : CreateCommentDTO)
    : M (S := Store) (option doc) :=
  r <- insertComment env data ;;
  let '(post, comment, populatedComment) := r in
  tryCatch
    (notifyNewComment env data (Post.author post) (_id comment))
    (fun _ => ret tt) ;;;
  ret populatedComment.

Definition updateComment (commentId authorId0 : ObjectId)
    (newContent : string) : M (S := Store) (option doc) :=
  comment <- reading (fun s => CommentModel.findById (comments s) commentId) ;;
  match comment with
  | None => throw (AppError "评论不存在" 404)
  | Some comment =>
      if negb (String.eqb (author comment) authorId0)
      then throw (AppError "没有权限编辑此评论" 403)
      else
        CommentModel.saveDoc
          (set_isEdited true (set_content newContent comment)) ;;;
        reading (fun s => CommentModel.findById (comments s) commentId)
  end.

Definition deleteComment (env : Env) (commentId userId : ObjectId)
    (isAdmin : bool) : M (S := Store) unit :=
  comment <- reading (fun s => CommentModel.findById (comments s) commentId) ;;
  match comment with
  | None => throw (AppError "评论不存在" 404)
  | Some comment =>
      let isAuthor := String.eqb (author comment) userId in
      if negb isAuthor && negb isAdmin
      then throw (AppError "没有权限删除此评论" 403)
      else
        CommentModel.saveDoc (set_deleted (now env) comment) ;;;
        CommentModel.incCommentCount (post comment) (-1)
  end.

Definition likeComment (env : Env) (commentId userId : ObjectId)
    : M (S := Store) doc :=
  comment <- reading (fun s => CommentModel.findById (comments s) commentId) ;;
  match comment with
  | None => throw (AppError "评论不存在" 404)
  | Some comment =>
      if memId userId (likes comment) then ret comment
      else
        let likes' := likes comment ++ [userId] in
        let comment' := set_likeCount (lengthZ likes')
                          (set_likes likes' comment) in
        CommentModel.saveDoc comment' ;;;
        (if negb (String.eqb (author comment') userId)
         then tryCatch
                (NotificationService.createLikeCommentNotification env
                   {| NotificationService.ln_commentId := commentId;
                      NotificationService.likerId := userId;
                      NotificationService.ln_authorId := author comment' |})
                (fun _ => ret tt)
         else ret tt) ;;;
        ret comment'
  end.

Definition unlikeComment (commentId userId : ObjectId)
    : M (S := Store) doc :=
  comment <- reading (fun s => CommentModel.findById (comments s) commentId) ;;
  match comment with
  | None => throw (AppError "评论不存在" 404)
  | Some comment =>
      let likes' := removeId userId (likes comment) in
      let comment' := set_likeCount (lengthZ likes')
                        (set_likes likes' comment) in
      CommentModel.saveDoc comment' ;;;
      ret comment'
  end.

Definition moderateComment (commentId : ObjectId) (approved : bool)
    : M (S := Store) doc :=
  comment <- reading (fun s => CommentModel.findById (comments s) commentId) ;;
  match comment with
  | None => throw (AppError "评论不存在" 404)
  | Some comment =>
      let comment' := set_isApproved approved comment in
      CommentModel.saveDoc comment' ;;;
      (if approved
       then CommentModel.incCommentCount (post comment') 1
       else CommentModel.incCommentCount (post comment') (-1)) ;;;
      ret comment'
  end.

Definition highlightComment (commentId : ObjectId) (highlighted : bool)
    : M (S := Store) doc :=
  comment <- reading (fun s => CommentModel.findById (comments s) commentId) ;;
  match comment with
  | None => throw (AppError "评论不存在" 404)
  | Some comment =>
      let comment' := set_isHighlighted highlighted comment in
      CommentModel.saveDoc comment' ;;;
      ret comment'
  end.

(** [.sort({ isHighlighted: -1, createdAt: -1 })] *)
Definition highlightedThenNewest (a b : doc) : bool :=
  if Bool.eqb (isHighlighted a) (isHighlighted b)
  then createdAt b <=? createdAt a
  else isHighlighted a.

(** [.sort({ createdAt: 1 })] *)
Definition oldestFirst (a b : doc) : bool := createdAt a <=? createdAt b.

(** [.sort({ createdAt: -1 })] *)
Definition newestFirst (a b : doc) : bool := createdAt b <=? createdAt a.

Definition mkMeta (total0 page0 limit0 : Z) : Meta :=
  {| total := total0; page := page0; limit := limit0;
     pages := totalPages total0 limit0 |}.

Definition pageOf (srt : doc -> doc -> bool) (q : doc -> bool)
    (page0 limit0 : Z) : M (S := Store) (list doc * Meta) :=
  total0 <- reading (fun s => countDocuments q (comments s)) ;;
  let skip := (page0 - 1) * limit0 in
  found <- reading (fun s => sortBy srt (CommentModel.find q (comments s))) ;;
  match paginate skip limit0 found with
  | Ok data => ret (data, mkMeta total0 page0 limit0)
  | Err e => throw e
  end.

(** [{ parentComment: commentId }] *)
Definition hasParent (commentId : ObjectId) (c : doc) : bool :=
  match parentComment c with
  | Some p => String.eqb p commentId
  | None => false
  end.

(** [{ parentComment: { $in: ids } }] for the ids of a page. *)
Definition isReplyTo (page : list doc) (r : doc) : bool :=
  match parentComment r with
  | Some p => memId p (map _id page)
  | None => false
  end.

(** [.populate({ path: 'replies', options: { limit } })] on the documents
    of a page.  The virtual [replies] asks for the comments whose
    [parentComment] is the document, oldest first.  Mongoose fetches
    them for the whole page with one [find], to which the find
    middleware applies and which does not look at [isApproved]; its limit
    is [limit] times the number of documents, and the replies of each
    document are then cut down to [limit]. *)
Definition populateReplies (limit0 : nat) (all page : list doc)
    : list (doc * list doc) :=
  let found :=
    firstn (limit0 * length page)
      (sortBy oldestFirst (CommentModel.find (isReplyTo page) all)) in
  map (fun c => (c, firstn limit0 (filter (hasParent (_id c)) found))) page.

(** Top-level comments of a post, each with the preview of its replies;
    the populated authors are not carried. *)
Definition getPostComments (postId0 : ObjectId) (page0 limit0 : Z)
    : M (S := Store) (list (doc * list doc) * Meta) :=
  r <- pageOf highlightedThenNewest
         (fun c => String.eqb (post c) postId0 && (level c =? 1)
                   && isApproved c)
         page0 limit0 ;;
  data <- reading (fun s => populateReplies 3 (comments s) (fst r)) ;;
  ret (data, snd r).

(** The parent is returned as it was found, approved or not. *)
Definition getCommentReplies (commentId : ObjectId) (page0 limit0 : Z)
    : M (S := Store) (list doc * doc * Meta) :=
  parent <- reading (fun s => CommentModel.findById (comments s) commentId) ;;
  match parent with
  | None => throw (AppError "评论不存在" 404)
  | Some parent =>
      r <- pageOf oldestFirst
             (fun c => hasParent commentId c && isApproved c)
             page0 limit0 ;;
      ret (fst r, parent, snd r)
  end.

(** [.populate('parentComment', 'content')]: the parent of a document,
    fetched by a [find], which skips a soft-deleted parent and does not
    look at [isApproved]; it is kept whole here, where the code returns
    its id and content. *)
Definition populateParent (all : list doc) (c : doc) : doc * option doc :=
  (c, match parentComment c with
      | Some p => CommentModel.findById all p
      | None => None
      end).

(** The comments of a user, each with its populated parent; the
    populated post (title and slug) and author are not carried. *)
Definition getUserComments (userId : ObjectId) (page0 limit0 : Z)
    : M (S := Store) (list (doc * option doc) * Meta) :=
  r <- pageOf newestFirst
         (fun c => String.eqb (author c) userId && isApproved c)
         page0 limit0 ;;
  data <- reading (fun s => map (populateParent (comments s)) (fst r)) ;;
  ret (data, snd r).
End CommentService.

(** ** PostService (services/postService) *)

Module PostService.
Import Post.

Record CreatePostDTO : Type := {
  dto_title : string;
  dto_content : string;
  dto_slug : option string;
  authorId : ObjectId;
  categoryId : ObjectId;
  tagIds : option (list ObjectId);
  dto_status : option PostStatus;
  dto_publishDate : option Date
}.

Record UpdatePostDTO : Type := {
  upd_title : option string;
  upd_content : option string;
  upd_categoryId : option ObjectId;
  upd_tagIds : option (list ObjectId);
  upd_status : option PostStatus;
  upd_publishDate : option Date
}.

(** [Tag.countDocuments({ _id: { $in: ids } })] *)
Definition countTagsIn (ids : list ObjectId) (l : list Tag.doc) : Z :=
  countDocuments (fun t => memId (Tag._id t) ids) l.

(** [post.save()]: the save hook, then the write. *)
Definition saveDoc (env : Env) (p : doc) : M (S := Store) doc :=
  let p' := preSave (now env) p in
  modify (set_posts (save p')) ;;;
  ret p'.

(** The schema requires a slug and validates it before the save hook
    derives one from the title.  createPost passes [data.slug] on only
    when it is truthy, and the [trim] setter of the schema leaves nothing
    of a slug of white space. *)
Definition slugGiven (data : CreatePostDTO) : bool :=
  match truthy (dto_slug data) with
  | Some slug0 => negb (blank slug0)
  | None => false
  end.

(** The publish date that createPost puts into [postData]. *)
Definition createPublishDate (env : Env) (data : CreatePostDTO)
    : option Date :=
  let scheduled :=
    match dto_status data, dto_publishDate data with
    | Some SCHEDULED, Some d => Some d
    | _, _ => None
    end in
  match dto_status data with
  | Some PUBLISHED => Some (now env)
  | _ => scheduled
  end.

Definition createPost (env : Env) (data : CreatePostDTO)
    : M (S := Store) doc :=
  author0 <- reading (fun s => findById (users s) (authorId data)) ;;
  match author0 with
  | None => throw (AppError "作者不存在" 404)
  | Some _ =>
      category0 <- reading
        (fun s => findById (categories s) (categoryId data)) ;;
      match category0 with
      | None => throw (AppError "分类不存在" 404)
      | Some _ =>
          (match tagIds data with
           | Some ((_ :: _) as ids) =>
               tagCount <- reading (fun s => countTagsIn ids (tagDocs s)) ;;
               if negb (tagCount =? lengthZ ids)
               then throw (AppError "部分标签不存在" 404)
               else ret tt
           | _ => ret tt
           end) ;;;
          let postData :=
            {| _id := freshId env;
               title := dto_title data;
               content := dto_content data;
               author := authorId data;
               category := categoryId data;
               tags := match tagIds data with Some l => l | None => [] end;
               status := match dto_status data with
                         | Some st => st | None => DRAFT end;
               publishDate := createPublishDate env data;
               viewCount := 0; likeCount := 0; commentCount := 0;
               likes := [] |} in
          if negb (slugGiven data)
          then throw (ValidationError
                        "Post validation failed: slug: Path `slug` is required.")
          else
            let post := preSave (now env) postData in
            inserting posts set_posts post ;;;
            ret post
      end
  end.

(** The [updateData] object of updatePost, as the update it performs. *)
Definition applyUpdate (env : Env) (old : doc) (data : UpdatePostDTO)
    (p : doc) : doc :=
  let p := match truthy (upd_title data) with
           | Some t => set_title t p | None => p end in
  let p := match truthy (upd_content data) with
           | Some c => set_content c p | None => p end in
  let p :=
    match upd_status data with
    | Some st =>
        let p := set_status st p in
        if PostStatus_eqb st PUBLISHED
           && negb (PostStatus_eqb (status old) PUBLISHED)
        then set_publishDate (Some (now env)) p
        else if PostStatus_eqb st SCHEDULED
        then set_publishDate
               (Some (match upd_publishDate data with
                      | Some d => d | None => now env end)) p
        else p
    | None => p
    end in
  let p := match truthy (upd_categoryId data) with
           | Some c => set_category c p | None => p end in
  match upd_tagIds data with
  | Some ids => set_tags ids p
  | None => p
  end.

Definition updatePost (env : Env) (postId authorId0 : ObjectId)
    (data : UpdatePostDTO) : M (S := Store) doc :=
  post <- reading (fun s => findById (posts s) postId) ;;
  match post with
  | None => throw (AppError "文章不存在" 404)
  | Some post =>
      if negb (String.eqb (author post) authorId0)
      then throw (AppError "只有作者才能更新文章" 403)
      else
        (match truthy (upd_categoryId data) with
         | Some cid =>
             category0 <- reading (fun s => findById (categories s) cid) ;;
             match category0 with
             | None => throw (AppError "分类不存在" 404)
             | Some _ => ret tt
             end
         | None => ret tt
         end) ;;;
        (match upd_tagIds data with
         | Some ids =>
             tagCount <- reading (fun s => countTagsIn ids (tagDocs s)) ;;
             if negb (tagCount =? lengthZ ids)
             then throw (AppError "部分标签不存在" 404)
             else ret tt
         | None => ret tt
         end) ;;;
        modify (set_posts (updateById postId (applyUpdate env post data))) ;;;
        updatedPost <- reading (fun s => findById (posts s) postId) ;;
        match updatedPost with
        | None => throw (AppError "更新文章失败" 500)
        | Some updatedPost => ret updatedPost
        end
  end.

Definition publishPost (env : Env) (postId authorId0 : ObjectId)
    : M (S := Store) doc :=
  post <- reading (fun s => findById (posts s) postId) ;;
  match post with
  | None => throw (AppError "文章不存在" 404)
  | Some post =>
      if negb (String.eqb (author post) authorId0)
      then throw (AppError "只有作者才能发布文章" 403)
      else if PostStatus_eqb (status post) PUBLISHED
      then throw (AppError "文章已经处于发布状态" 400)
      else saveDoc env
             (set_publishDate (Some (now env)) (set_status PUBLISHED post))
  end.

Definition unpublishPost (env : Env) (postId authorId0 : ObjectId)
    : M (S := Store) doc :=
  post <- reading (fun s => findById (posts s) postId) ;;
  match post with
  | None => throw (AppError "文章不存在" 404)
  | Some post =>
      if negb (String.eqb (author post) authorId0)
      then throw (AppError "只有作者才能更改文章状态" 403)
      else saveDoc env (set_status DRAFT post)
  end.

Definition schedulePost (env : Env) (postId authorId0 : ObjectId)
    (date : Date) : M (S := Store) doc :=
  post <- reading (fun s => findById (posts s) postId) ;;
  match post with
  | None => throw (AppError "文章不存在" 404)
  | Some post =>
      if negb (String.eqb (author post) authorId0)
      then throw (AppError "只有作者才能设置定时发布" 403)
      else if date <=? now env
      then throw (AppError "定时发布日期必须在未来" 400)
      else saveDoc env
             (set_publishDate (Some date) (set_status SCHEDULED post))
  end.

(** [Post.deleteOne({ _id: postId })] *)
Fixpoint deleteOne (id : ObjectId) (l : list doc) : list doc :=
  match l with
  | [] => []
  | p :: r => if String.eqb (_id p) id then r else p :: deleteOne id r
  end.

Definition deletePost (postId authorId0 : ObjectId) : M (S := Store) unit :=
  post <- reading (fun s => findById (posts s) postId) ;;
  match post with
  | None => throw (AppError "文章不存在" 404)
  | Some post =>
      if negb (String.eqb (author post) authorId0)
      then throw (AppError "只有作者才能删除文章" 403)
      else modify (set_posts (deleteOne postId))
  end.

Definition likePost (env : Env) (postId userId : ObjectId)
    : M (S := Store) unit :=
  post <- reading (fun s => findById (posts s) postId) ;;
  match post with
  | None => throw (AppError "文章不存在" 404)
  | Some post =>
      if memId userId (likes post)
      then throw (AppError "已经点赞过这篇文章" 400)
      else
        let likes' := likes post ++ [userId] in
        saveDoc env (set_likeCount (lengthZ likes') (set_likes likes' post)) ;;;
        ret tt
  end.

Definition unlikePost (env : Env) (postId userId : ObjectId)
    : M (S := Store) unit :=
  post <- reading (fun s => findById (posts s) postId) ;;
  match post with
  | None => throw (AppError "文章不存在" 404)
  | Some post =>
      if negb (memId userId (likes post))
      then throw (AppError "还没有点赞过这篇文章" 400)
      else
        let likes' := removeId userId (likes post) in
        saveDoc env (set_likeCount (lengthZ likes') (set_likes likes' post)) ;;;
        ret tt
  end.

(** The filter [{ status: SCHEDULED, publishDate: { $lte: now } }]; a
    missing publish date does not compare. *)
Definition due (now0 : Date) (p : doc) : bool :=
  PostStatus_eqb (status p) SCHEDULED
  && match publishDate p with
     | Some d => d <=? now0
     | None => false
     end.

(** [Post.updateMany(filter, { status: PUBLISHED })] *)
Definition publishDue (now0 : Date) (l : list doc) : list doc :=
  map (fun p => if due now0 p then set_status PUBLISHED p else p) l.

(** Every matched post changes its status, so [modifiedCount] is the
    number of matched posts. *)
Definition publishScheduledPosts (env : Env) : M (S := Store) Z :=
  modifiedCount <- reading (fun s => countDocuments (due (now env)) (posts s)) ;;
  modify (set_posts (publishDue (now env))) ;;;
  ret modifiedCount.

(** [{ tags: { $in: ids } }] on the array field [tags]. *)
Definition sharesTag (ids : list ObjectId) (p : doc) : bool :=
  existsb (fun t => memId t ids) (tags p).

(** The filter of getRelatedPosts around the post it was asked for. *)
Definition relatedTo (postId : ObjectId) (post : doc) (p : doc) : bool :=
  negb (String.eqb (_id p) postId)
  && PostStatus_eqb (status p) PUBLISHED
  && (String.eqb (category p) (category post) || sharesTag (tags post) p).

(** [.sort({ publishDate: -1 })]; a missing date sorts last. *)
Definition latestFirst (a b : doc) : bool :=
  match publishDate a, publishDate b with
  | Some x, Some y => y <=? x
  | Some _, None => true
  | None, Some _ => false
  | None, None => true
  end.

(** The selected documents are kept whole: the projection to the listed
    fields and the populated author are not carried. *)
Definition getRelatedPosts (postId : ObjectId) (limit0 : Z)
    : M (S := Store) (list doc) :=
  post <- reading (fun s => findById (posts s) postId) ;;
  match post with
  | None => throw (AppError "文章不存在" 404)
  | Some post =>
      found <- reading
        (fun s => sortBy latestFirst
                    (filter (relatedTo postId post) (posts s))) ;;
      match paginate 0 limit0 found with
      | Ok relatedPosts => ret relatedPosts
      | Err e => throw e
      end
  end.
End PostService.

(** ** CategoryService (services/categoryService) *)

Module CategoryService.
Import Category.

Record CreateCategoryDTO : Type := {
  new_name : string;
  new_description : option string;
  new_parent : option ObjectId;
  new_order : option Z
}.

(** [parent?: string | null]: [None] is undefined, [Some None] is null. *)
Record UpdateCategoryDTO : Type := {
  upd_name : option string;
  upd_description : option string;
  upd_parent : option (option ObjectId);
  upd_order : option Z
}.

(** [data.parent === categoryId], on the strings as they were sent. *)
Definition isSelf (parent : option ObjectId) (categoryId : ObjectId) : bool :=
  match parent with
  | Some p => String.eqb p categoryId
  | None => false
  end.

(** The [while] loop of updateCategory that walks the ancestors of the
    proposed parent, comparing the printed id of each with the string
    [categoryId] of the request.  [Some true]: the loop threw, the
    category is among them; [Some false]: the loop ended; [None]: the
    loop is still running when the fuel is spent (it never ends on a
    chain that is itself cyclic and does not contain the category). *)
Fixpoint walkAncestors (fuel : nat) (cats : list doc)
    (categoryId : ObjectId) (currentParent : doc) : option bool :=
  match fuel with
  | O => None
  | S fuel' =>
      match parentCategory currentParent with
      | None => Some false
      | Some p =>
          if String.eqb p categoryId then Some true
          else match findById cats p with
               | None => Some false
               | Some nextParent =>
                   walkAncestors fuel' cats categoryId nextParent
               end
      end
  end.

Section Slugs.
(** [slugify] of utils/slugify and the slug that
    [CategorySchema.pre('save')] derives from a modified name: two
    regular-expression rewritings, taken as given. *)
Variable slugify : string -> string.
Variable hookSlug : string -> string.

Definition createCategory (env : Env) (data : CreateCategoryDTO)
    : M (S := Store) doc :=
  existing <- reading
    (fun s => findOne (fun c => String.eqb (name c) (new_name data))
                (categories s)) ;;
  match existing with
  | Some _ => throw (AppError "分类名称已存在" 400)
  | None =>
      let slug0 := slugify (new_name data) in
      slugExist <- reading
        (fun s => findOne (fun c => String.eqb (slug c) slug0)
                    (categories s)) ;;
      match slugExist with
      | Some _ => throw (AppError "分类slug已存在，请使用其他名称" 400)
      | None =>
          (match truthy (new_parent data) with
           | Some p =>
               parent <- reading (fun s => findById (categories s) p) ;;
               match parent with
               | None => throw (AppError "父分类不存在" 404)
               | Some _ => ret tt
               end
           | None => ret tt
           end) ;;;
          let category :=
            {| _id := freshId env;
               name := new_name data;
               slug := hookSlug (new_name data);
               description := match truthy (new_description data) with
                              | Some d => d | None => EmptyString end;
               parentCategory := truthy (new_parent data);
               order := match new_order data with
                        | Some o => o | None => 0 end |} in
          inserting categories set_categories category ;;;
          ret category
      end
  end.

Definition renamed (data : UpdateCategoryDTO) (category : doc)
    : option string :=
  match truthy (upd_name data) with
  | Some n => if String.eqb n (name category) then None else Some n
  | None => None
  end.

(** updateCategory up to the loop: the category with its slug already
    rewritten by a rename, and the proposed parent's document when the
    loop has to run.  [findById] and the [$ne] of the two queries cast
    the ids they are given; the test for the category itself compares
    the two strings of the request. *)
Definition beforeWalk (categoryId : ObjectId) (data : UpdateCategoryDTO)
    : M (S := Store) (doc * option doc) :=
  category <- reading
    (fun s => findById (categories s) (castId categoryId)) ;;
  match category with
  | None => throw (AppError "分类不存在" 404)
  | Some category =>
      category <-
        match renamed data category with
        | Some n =>
            existing <- reading
              (fun s => findOne
                 (fun c => String.eqb (name c) n
                           && negb (String.eqb (_id c) (castId categoryId)))
                 (categories s)) ;;
            match existing with
            | Some _ => throw (AppError "分类名称已存在" 400)
            | None =>
                let slug0 := slugify n in
                slugExist <- reading
                  (fun s => findOne
                     (fun c => String.eqb (slug c) slug0
                               && negb (String.eqb (_id c)
                                          (castId categoryId)))
                     (categories s)) ;;
                match slugExist with
                | Some _ =>
                    throw (AppError "分类slug已存在，请使用其他名称" 400)
                | None => ret (set_slug slug0 category)
                end
            end
        | None => ret category
        end ;;
      match upd_parent data with
      | Some parent =>
          if isSelf parent categoryId
          then throw (AppError "不能将分类自身设为父分类" 400)
          else
            match truthy parent with
            | Some p =>
                parentCategory0 <- reading
                  (fun s => findById (categories s) (castId p)) ;;
                match parentCategory0 with
                | None => throw (AppError "父分类不存在" 404)
                | Some parentDoc => ret (category, Some parentDoc)
                end
            | None => ret (category, None)
            end
      | None => ret (category, None)
      end
  end.

(** updateCategory after the loop: the assignments, of which the one of
    the parent stores [new ObjectId(data.parent)], and the save, whose
    hook rewrites the slug of a renamed category. *)
Definition afterWalk (category : doc) (data : UpdateCategoryDTO)
    : M (S := Store) doc :=
  let modifiedName := renamed data category in
  let c := match truthy (upd_name data) with
           | Some n => set_name n category | None => category end in
  let c := match upd_description data with
           | Some d => set_description d c | None => c end in
  let c := match upd_parent data with
           | Some parent =>
               set_parentCategory (option_map castId (truthy parent)) c
           | None => c end in
  let c := match upd_order data with
           | Some o => set_order o c | None => c end in
  let c := match modifiedName with
           | Some n => set_slug (hookSlug n) c | None => c end in
  modify (set_categories (save c)) ;;;
  ret c.

(** No write precedes a throw, so the [abortTransaction] of the catch
    block has nothing to undo. *)
Definition updateCategory (fuel : nat) (categoryId : ObjectId)
    (data : UpdateCategoryDTO) (s : Store)
    : option (Store * Result doc) :=
  match beforeWalk categoryId data s with
  | (s1, Err e) => Some (s1, Err e)
  | (s1, Ok (category, None)) => Some (afterWalk category data s1)
  | (s1, Ok (category, Some parentDoc)) =>
      match walkAncestors fuel (categories s1) categoryId parentDoc with
      | None => None
      | Some true =>
          Some (s1, Err (AppError
                   "不能设置子分类为父分类，会导致循环依赖" 400))
      | Some false => Some (afterWalk category data s1)
      end
  end.
End Slugs.

(** The loop of updateCategoryOrder over [categoryIds.entries()].  For
    a [parentId] that is null or empty the update carries
    [parentCategory: undefined], a key that Mongoose leaves out of what
    it sends: the parent is then kept, as it is without [parentId]. *)
Fixpoint orderFrom (index : Z) (categoryIds : list ObjectId)
    (parentId : option (option ObjectId)) : M (S := Store) unit :=
  match categoryIds with
  | [] => ret tt
  | id :: rest =>
      category <- reading (fun s => findById (categories s) id) ;;
      match category with
      | None => throw (AppError ("ID为" ++ id ++ "的分类不存在") 404)
      | Some _ =>
          modify (set_categories (updateById id
            (fun c =>
               let c := set_order index c in
               match parentId with
               | Some parent =>
                   match truthy parent with
                   | Some p => set_parentCategory (Some p) c
                   | None => c
                   end
               | None => c
               end))) ;;;
          orderFrom (index + 1) rest parentId
      end
  end.

(** The writes are bound to the session: when the loop throws, the
    transaction is aborted and none of them is kept. *)
Definition updateCategoryOrder (categoryIds : list ObjectId)
    (parentId : option (option ObjectId)) : M (S := Store) unit :=
  fun s =>
    match orderFrom 0 categoryIds parentId s with
    | (s', Ok tt) => (s', Ok tt)
    | (_, Err e) => (s, Err e)
    end.

(** [{ parentCategory: parentId }] *)
Definition isChildOf (parentId : ObjectId) (c : doc) : bool :=
  match parentCategory c with
  | Some p => String.eqb p parentId
  | None => false
  end.

(** No write precedes a throw. *)
Definition deleteCategory (categoryId : ObjectId) : M (S := Store) unit :=
  category <- reading (fun s => findById (categories s) categoryId) ;;
  match category with
  | None => throw (AppError "分类不存在" 404)
  | Some _ =>
      childCategories <- reading
        (fun s => filter (isChildOf categoryId) (categories s)) ;;
      match childCategories with
      | _ :: _ => throw (AppError "该分类下有子分类，不能删除" 400)
      | [] =>
          postCount <- reading
            (fun s => countDocuments
                        (fun p => String.eqb (Post.category p) categoryId)
                        (posts s)) ;;
          if 0 <? postCount
          then throw (AppError ("该分类下有" ++ showCount postCount
                                ++ "篇文章，不能删除") 400)
          else modify (set_categories
                         (deleteFirst
                            (fun c => String.eqb (_id c) categoryId)))
      end
  end.

(** The [for] loop of findChildren over the children of one category:
    each child's id, then what the recursive call pushes for it. *)
Fixpoint pushChildren (findChildren : ObjectId -> option (list ObjectId))
    (children : list doc) : option (list ObjectId) :=
  match children with
  | [] => Some []
  | child :: rest =>
      match findChildren (_id child) with
      | None => None
      | Some below =>
          match pushChildren findChildren rest with
          | None => None
          | Some after => Some (_id child :: below ++ after)
          end
      end
  end.

(** The recursive closure of getCategoryAndChildrenIds, as the ids it
    pushes; [None] when the recursion is deeper than the fuel (it never
    ends on a cycle of categories). *)
Fixpoint findChildren (fuel : nat) (cats : list doc) (parentId : ObjectId)
    : option (list ObjectId) :=
  match fuel with
  | O => None
  | S fuel' =>
      pushChildren (findChildren fuel' cats)
        (filter (isChildOf parentId) cats)
  end.

Definition getCategoryAndChildrenIds (fuel : nat) (categoryId : ObjectId)
    (s : Store) : option (list ObjectId) :=
  match findChildren fuel (categories s) categoryId with
  | Some ids => Some (categoryId :: ids)
  | None => None
  end.
End CategoryService.

(** ** Sequences of operations *)

(** The mutating operations of CommentService, each with what the
    environment supplies while it runs. *)
Inductive CommentOp : Type :=
| CreateComment (env : Env) (data : CommentService.CreateCommentDTO)
| UpdateComment (commentId authorId : ObjectId) (content : string)
| DeleteComment (env : Env) (commentId userId : ObjectId) (isAdmin : bool)
| LikeComment (env : Env) (commentId userId : ObjectId)
| UnlikeComment (commentId userId : ObjectId)
| ModerateComment (commentId : ObjectId) (isApproved : bool)
| HighlightComment (commentId : ObjectId) (isHighlighted : bool).

(** The database after one operation, whatever it returned or threw. *)
Definition commentStep (op : CommentOp) (s : Store) : Store :=
  match op with
  | CreateComment env data => fst (CommentService.createComment env data s)
  | UpdateComment c a content => fst (CommentService.updateComment c a content s)
  | DeleteComment env c u adm => fst (CommentService.deleteComment env c u adm s)
  | LikeComment env c u => fst (CommentService.likeComment env c u s)
  | UnlikeComment c u => fst (CommentService.unlikeComment c u s)
  | ModerateComment c b => fst (CommentService.moderateComment c b s)
  | HighlightComment c b => fst (CommentService.highlightComment c b s)
  end.

Definition runComments (ops : list CommentOp) (s : Store) : Store :=
  fold_left (fun s op => commentStep op s) ops s.

(** The mutating operations of PostService on a post's life cycle. *)
Inductive PostOp : Type :=
| CreatePost (env : Env) (data : PostService.CreatePostDTO)
| UpdatePost (env : Env) (postId authorId : ObjectId)
    (data : PostService.UpdatePostDTO)
| PublishPost (env : Env) (postId authorId : ObjectId)
| UnpublishPost (env : Env) (postId authorId : ObjectId)
| SchedulePost (env : Env) (postId authorId : ObjectId) (publishDate : Date)
| DeletePost (postId authorId : ObjectId)
| SweepScheduled (env : Env).

Definition postStep (op : PostOp) (s : Store) : Store :=
  match op with
  | CreatePost env data => fst (PostService.createPost env data s)
  | UpdatePost env p a data => fst (PostService.updatePost env p a data s)
  | PublishPost env p a => fst (PostService.publishPost env p a s)
  | UnpublishPost env p a => fst (PostService.unpublishPost env p a s)
  | SchedulePost env p a d => fst (PostService.schedulePost env p a d s)
  | DeletePost p a => fst (PostService.deletePost p a s)
  | SweepScheduled env => fst (PostService.publishScheduledPosts env s)
  end.

Definition runPosts (ops : list PostOp) (s : Store) : Store :=
  fold_left (fun s op => postStep op s) ops s.

(** A create that asks for a scheduled post names its publish date. *)
Definition datedCreate (op : PostOp) : bool :=
  match op with
  | CreatePost _ data =>
      match PostService.dto_status data, PostService.dto_publishDate data with
      | Some SCHEDULED, None => false
      | _, _ => true
      end
  | _ => true
  end.

(** ** Predicates of the specification *)

(** The comments of a post that count: approved and not soft-deleted. *)
Definition counts (postId : ObjectId) (c : Comment.doc) : bool :=
  String.eqb (Comment.post c) postId && Comment.isApproved c
  && negb (Comment.isDeleted c).

Definition countedComments (postId : ObjectId) (l : list Comment.doc) : Z :=
  countDocuments (counts postId) l.

(** Every stored post's commentCount is the number of its comments that
    count. *)
Definition counterExact (s : Store) : Prop :=
  forall pid p, findById (posts s) pid = Some p ->
                Post.commentCount p = countedComments pid (comments s).

Definition isModeration (op : CommentOp) : bool :=
  match op with
  | ModerateComment _ _ => true
  | _ => false
  end.

(** The driver generates an id that no stored comment has. *)
Definition freshFor (op : CommentOp) (s : Store) : Prop :=
  match op with
  | CreateComment env _ => ~ In (freshId env) (map docId (comments s))
  | _ => True
  end.

Fixpoint freshRun (ops : list CommentOp) (s : Store) : Prop :=
  match ops with
  | [] => True
  | op :: rest => freshFor op s /\ freshRun rest (commentStep op s)
  end.

(** The unique index on [_id]. *)
Definition uniqueIds {A} `{Document A} (l : list A) : Prop :=
  NoDup (map docId l).

(** [likeCount] is the cardinality of [likes]. *)
Definition likeCountConsistent (c : Comment.doc) : Prop :=
  Comment.likeCount c = lengthZ (Comment.likes c).

(** What never changes on a stored comment: its place in the forest. *)
Definition sameNode (c c' : Comment.doc) : Prop :=
  Comment._id c' = Comment._id c
  /\ Comment.post c' = Comment.post c
  /\ Comment.parentComment c' = Comment.parentComment c
  /\ Comment.level c' = Comment.level c
  /\ Comment.path c' = Comment.path c.

(** [d] is below [x] in the category tree: following parent links from
    [d] through stored categories reaches [x] after [n] further links. *)
Inductive descendantAt (cats : list Category.doc) (x : ObjectId)
    : nat -> ObjectId -> Prop :=
| child_of d c :
    findById cats d = Some c ->
    Category.parentCategory c = Some x ->
    descendantAt cats x 0 d
| below_child n d c p :
    findById cats d = Some c ->
    Category.parentCategory c = Some p ->
    descendantAt cats x n p ->
    descendantAt cats x (S n) d.

Definition descendant (cats : list Category.doc) (x d : ObjectId) : Prop :=
  exists n, descendantAt cats x n d.

(** Two states of the database that differ at most in the notifications. *)
Definition onlyNotifications (s s' : Store) : Prop :=
  users s' = users s /\ tagDocs s' = tagDocs s
  /\ categories s' = categories s /\ posts s' = posts s
  /\ comments s' = comments s.

(** The comment that createComment stores: the schema defaults, then level
    and path from the parent that the save hook reads. *)
Definition newComment (env : Env) (data : CommentService.CreateCommentDTO)
    (parent : option Comment.doc) : Comment.doc :=
  match parent with
  | Some p =>
      Comment.set_path
        (CommentModel.childPath (Comment.path p) (Comment._id p))
        (Comment.set_level (Comment.level p + 1)
           (Comment.make (freshId env) (now env)
              (CommentService.dto_content data) (CommentService.postId data)
              (CommentService.authorId data) (Some (Comment._id p))))
  | None =>
      Comment.set_path EmptyString
        (Comment.make (freshId env) (now env)
           (CommentService.dto_content data) (CommentService.postId data)
           (CommentService.authorId data) None)
  end.

(** An operation that leaves the posts alone and at most saves one loaded
    comment without touching what makes it count. *)
Definition quietEffect (s s' : Store) : Prop :=
  posts s' = posts s
  /\ (comments s' = comments s
      \/ exists i c0 c',
           CommentModel.findById (comments s) i = Some c0
           /\ sameNode c0 c'
           /\ Comment.isApproved c' = Comment.isApproved c0
           /\ Comment.isDeleted c' = Comment.isDeleted c0
           /\ comments s' = save c' (comments s)).

(** The comments stored under the ids of [l] are stored under the same ids
    in [l'], at the same place of the forest. *)
Definition stable (l l' : list Comment.doc) : Prop :=
  forall i c, findById l i = Some c ->
              exists c', findById l' i = Some c' /\ sameNode c c'.

(** What one operation of CommentService does to the comments: nothing,
    one save of a loaded comment that keeps its place in the forest, or
    one insert under a new id. *)
Inductive commentsEffect (l l' : list Comment.doc) : Prop :=
| effect_none : l' = l -> commentsEffect l l'
| effect_save (i : ObjectId) (c0 c' : Comment.doc) :
    CommentModel.findById l i = Some c0 ->
    sameNode c0 c' ->
    (likeCountConsistent c0 -> likeCountConsistent c') ->
    l' = save c' l ->
    commentsEffect l l'
| effect_insert (c : Comment.doc) :
    ~ In (docId c) (map docId l) ->
    likeCountConsistent c ->
    l' = l ++ [c] ->
    commentsEffect l l'.

(** A published post carries a publish date; with [sched] set, so does a
    scheduled post. *)
Definition dated (sched : bool) (p : Post.doc) : Prop :=
  Post.status p = PUBLISHED \/ (sched = true /\ Post.status p = SCHEDULED) ->
  Post.publishDate p <> None.

(** A post that the sweep has to publish at time [now0]. *)
Definition isDue (now0 : Date) (p : Post.doc) : Prop :=
  Post.status p = SCHEDULED
  /\ exists d, Post.publishDate p = Some d /\ d <= now0.

(** The posts whose stored status differs between two states of the
    collection, position by position. *)
Definition statusChanged (pp : Post.doc * Post.doc) : bool :=
  negb (PostStatus_eqb (Post.status (fst pp)) (Post.status (snd pp))).

Definition changedCount (before after : list Post.doc) : Z :=
  lengthZ (filter statusChanged (combine before after)).

(** A post's likes hold no user twice and its likeCount is their number. *)
Definition postLikesExact (p : Post.doc) : Prop :=
  NoDup (Post.likes p) /\ Post.likeCount p = lengthZ (Post.likes p).

(** What a notification about the new comment [commentId] of the request
    [data] looks like: sent by the commenter to someone else. *)
Definition commentNotice (data : CommentService.CreateCommentDTO)
    (commentId : ObjectId) (n : Notification.doc) : Prop :=
  Notification.recipient n <> CommentService.authorId data
  /\ Notification.sender n = Some (CommentService.authorId data)
  /\ Notification.relatedPost n = Some (CommentService.postId data)
  /\ Notification.relatedComment n = Some commentId
  /\ Notification.isRead n = false.

(** No category is below itself. *)
Definition acyclic (cats : list Category.doc) : Prop :=
  forall x, ~ descendant cats x x.

(** A measure that decreases along every parent link: its existence is
    what makes the walks over the category tree end. *)
Definition ranked (rank : ObjectId -> nat) (cats : list Category.doc)
    : Prop :=
  Forall (fun c => match Category.parentCategory c with
                   | Some p => (rank p < rank (Category._id c))%nat
                   | None => True
                   end) cats.

(** The mutating operations of CategoryService. *)
Inductive CategoryOp : Type :=
| CreateCategory (env : Env) (data : CategoryService.CreateCategoryDTO)
| UpdateCategory (fuel : nat) (categoryId : ObjectId)
    (data : CategoryService.UpdateCategoryDTO)
| DeleteCategory (categoryId : ObjectId)
| UpdateCategoryOrder (categoryIds : list ObjectId)
    (parentId : option (option ObjectId)).

(** What an operation leaves behind: the database and the error it threw,
    if any. *)
Definition outcome {A} (x : Store * Result A) : Store * option Error :=
  (fst x, match snd x with Ok _ => None | Err e => Some e end).

Section CategorySteps.
Variable slugify : string -> string.
Variable hookSlug : string -> string.

Definition categoryStep (op : CategoryOp) (s : Store)
    : option (Store * option Error) :=
  match op with
  | CreateCategory env data =>
      Some (outcome (CategoryService.createCategory slugify hookSlug env
                       data s))
  | UpdateCategory fuel id data =>
      option_map outcome
        (CategoryService.updateCategory slugify hookSlug fuel id data s)
  | DeleteCategory id => Some (outcome (CategoryService.deleteCategory id s))
  | UpdateCategoryOrder ids parentId =>
      Some (outcome (CategoryService.updateCategoryOrder ids parentId s))
  end.
End CategorySteps.

(** Category names are unique, as the schema's index asks. *)
Definition uniqueNames (cats : list Category.doc) : Prop :=
  NoDup (map Category.name cats).

(** The update that updateCategoryOrder applies to the category at
    position [index] of its list. *)
Definition placed (index : Z) (parentId : option (option ObjectId))
    (c : Category.doc) : Category.doc :=
  let c := Category.set_order index c in
  match parentId with
  | Some parent =>
      match truthy parent with
      | Some p => Category.set_parentCategory (Some p) c
      | None => c
      end
  | None => c
  end.

(** Following the spec and the schema's note on the field: the path of a
    comment names its ancestors from the top-level comment down to its
    parent, separated by "/"; it is empty for a top-level comment. *)
Definition pathOf (ancestors : list ObjectId) : string :=
  String.concat "/" ancestors.

(** ** A small database used in the examples *)

Module Scenario.
Definition annId : ObjectId := "65a000000000000000000001".
Definition bobId : ObjectId := "65a000000000000000000002".
Definition newsId : ObjectId := "65b000000000000000000001".
Definition postId : ObjectId := "65c000000000000000000001".
Definition commentA : ObjectId := "65d000000000000000000001".
Definition commentB : ObjectId := "65d000000000000000000002".

Definition ann : User.doc := {| User._id := annId; User.username := "ann" |}.
Definition bob : User.doc := {| User._id := bobId; User.username := "bob" |}.

Definition news : Category.doc :=
  {| Category._id := newsId; Category.name := "news";
     Category.slug := "news"; Category.description := EmptyString;
     Category.parentCategory := None; Category.order := 0 |}.

(** A published post of ann without comments or likes. *)
Definition post : Post.doc :=
  {| Post._id := postId; Post.title := "hello"; Post.content := "world";
     Post.author := annId; Post.category := newsId; Post.tags := [];
     Post.status := PUBLISHED; Post.publishDate := Some 5;
     Post.viewCount := 0; Post.likeCount := 0; Post.commentCount := 0;
     Post.likes := [] |}.

Definition blog : Store :=
  {| users := [ann; bob]; tagDocs := []; categories := [news];
     posts := [post]; comments := []; notifications := [] |}.

Definition noPosts : Store :=
  {| users := [ann; bob]; tagDocs := []; categories := [news];
     posts := []; comments := []; notifications := [] |}.

Definition at_ (t : Date) (id : ObjectId) : Env :=
  {| now := t; freshId := id;
     notificationId := "65e000000000000000000001";
     notificationFault := None |}.

(** The environment of an operation that inserts nothing. *)
Definition later (t : Date) : Env := at_ t "65f000000000000000000001".

(** The same as [at_], with the notifications collection refusing
    writes. *)
Definition failing (t : Date) (id : ObjectId) : Env :=
  {| now := t; freshId := id;
     notificationId := "65e000000000000000000001";
     notificationFault := Some (MongoError "connection closed") |}.

(** bob comments on ann's post; ann replies to bob. *)
Definition topLevel : CommentService.CreateCommentDTO :=
  {| CommentService.dto_content := "first";
     CommentService.postId := postId;
     CommentService.authorId := bobId;
     CommentService.parentCommentId := None |}.

Definition reply : CommentService.CreateCommentDTO :=
  {| CommentService.dto_content := "thanks";
     CommentService.postId := postId;
     CommentService.authorId := annId;
     CommentService.parentCommentId := Some commentA |}.

Definition newPost (st : option PostStatus) (d : option Date)
    : PostService.CreatePostDTO :=
  {| PostService.dto_title := "draft"; PostService.dto_content := "text";
     PostService.dto_slug := Some "draft";
     PostService.authorId := annId; PostService.categoryId := newsId;
     PostService.tagIds := None; PostService.dto_status := st;
     PostService.dto_publishDate := d |}.

(** A chain of categories: news, its child tech, its grandchild rust. *)
(** The id of news as a request may spell it. *)
Definition newsIdUpper : string := "65B000000000000000000001".

Definition techId : ObjectId := "65b000000000000000000002".
Definition rustId : ObjectId := "65b000000000000000000003".

Definition tech : Category.doc :=
  {| Category._id := techId; Category.name := "tech";
     Category.slug := "tech"; Category.description := EmptyString;
     Category.parentCategory := Some newsId; Category.order := 0 |}.

Definition rust : Category.doc :=
  {| Category._id := rustId; Category.name := "rust";
     Category.slug := "rust"; Category.description := EmptyString;
     Category.parentCategory := Some techId; Category.order := 0 |}.

Definition tree : Store :=
  {| users := [ann]; tagDocs := []; categories := [news; tech; rust];
     posts := []; comments := []; notifications := [] |}.

Definition reparent (p : ObjectId) : CategoryService.UpdateCategoryDTO :=
  {| CategoryService.upd_name := None;
     CategoryService.upd_description := None;
     CategoryService.upd_parent := Some (Some p);
     CategoryService.upd_order := None |}.

(** bob's comment and ann's reply on the post. *)
Definition threaded : Store :=
  Eval vm_compute in
    runComments [CreateComment (at_ 10 commentA) topLevel;
                 CreateComment (at_ 20 commentB) reply] blog.

(** Then ann likes her post and bob's comment. *)
Definition liked : Store :=
  Eval vm_compute in
    fst (PostService.likePost (later 30) postId annId
           (fst (CommentService.likeComment (later 30) commentA annId
                   threaded))).

Definition likedPost : Post.doc :=
  Eval vm_compute in hd post (posts liked).


Definition replyB : Comment.doc :=
  Eval vm_compute in
    hd (Comment.make EmptyString 0 EmptyString EmptyString EmptyString None) (tl (comments threaded)).

(** bob's comment as createComment stores it at time 10, and the
    database after creating it while notifications cannot be written. *)
Definition firstComment : Comment.doc :=
  Eval vm_compute in newComment (at_ 10 commentA) topLevel None.

Definition commented : Store :=
  Eval vm_compute in
    fst (CommentService.createComment (failing 10 commentA) topLevel blog).

(** After bob's comment alone, and after bob has soft-deleted it once
    ann has replied. *)
Definition afterA : Store :=
  Eval vm_compute in
    fst (CommentService.createComment (at_ 10 commentA) topLevel blog).

Definition afterDelete : Store :=
  Eval vm_compute in
    fst (CommentService.deleteComment (later 30) commentA bobId false
           threaded).

(** A post scheduled at time 10 for time 50, swept at time 20. *)
Definition lifecycle : list PostOp :=
  [CreatePost (at_ 10 postId) (newPost (Some SCHEDULED) (Some 50));
   SweepScheduled (later 20)].

Definition scheduledPost : Post.doc :=
  Eval vm_compute in hd post (posts (runPosts lifecycle noPosts)).

(** Three more posts of ann in the same category: two published at
    times 3 and 9, one draft. *)
Definition otherPost (id : ObjectId) (st : PostStatus) (d : option Date)
    : Post.doc :=
  {| Post._id := id; Post.title := "more"; Post.content := "text";
     Post.author := annId; Post.category := newsId; Post.tags := [];
     Post.status := st; Post.publishDate := d;
     Post.viewCount := 0; Post.likeCount := 0; Post.commentCount := 0;
     Post.likes := [] |}.

Definition shelf : Store :=
  {| users := [ann; bob]; tagDocs := []; categories := [news];
     posts := [post;
               otherPost "65c000000000000000000002" PUBLISHED (Some 3);
               otherPost "65c000000000000000000003" DRAFT None;
               otherPost "65c000000000000000000004" PUBLISHED (Some 9)];
     comments := []; notifications := [] |}.

(** The blog with two tags, and a post request that names tags. *)
Definition coqTag : ObjectId := "65a100000000000000000001".
Definition mlTag : ObjectId := "65a100000000000000000002".

Definition tagged : Store :=
  {| users := [ann; bob];
     tagDocs := [ {| Tag._id := coqTag; Tag.name := "coq" |};
                  {| Tag._id := mlTag; Tag.name := "ml" |} ];
     categories := [news];
     posts := [post]; comments := []; notifications := [] |}.

Definition newTaggedPost (ids : list ObjectId) : PostService.CreatePostDTO :=
  {| PostService.dto_title := "draft"; PostService.dto_content := "text";
     PostService.dto_slug := Some "draft";
     PostService.authorId := annId; PostService.categoryId := newsId;
     PostService.tagIds := Some ids; PostService.dto_status := None;
     PostService.dto_publishDate := None |}.

(** The database right after the insert of bob's comment, before any
    notification is written. *)
Definition inserted : Store :=
  Eval vm_compute in
    fst (CommentService.insertComment (at_ 10 commentA) topLevel blog).

(** ann's reply rejected by a moderator. *)
Definition rejected : Store :=
  Eval vm_compute in
    fst (CommentService.moderateComment commentB false threaded).

(** The depth of the three categories of [tree]. *)
Definition treeDepth (id : ObjectId) : nat :=
  if String.eqb id rustId then 2
  else if String.eqb id techId then 1 else 0.

(** The tree with one post filed under rust. *)
Definition filed : Store :=
  {| users := [ann]; tagDocs := []; categories := [news; tech; rust];
     posts := [ {| Post._id := postId; Post.title := "filed";
                   Post.content := "text"; Post.author := annId;
                   Post.category := rustId; Post.tags := [];
                   Post.status := DRAFT; Post.publishDate := None;
                   Post.viewCount := 0; Post.likeCount := 0;
                   Post.commentCount := 0; Post.likes := [] |} ];
     comments := []; notifications := [] |}.

(** bob's reply to ann's reply: a comment at the third level. *)
Definition commentC : ObjectId := "65d000000000000000000003".

Definition nested : CommentService.CreateCommentDTO :=
  {| CommentService.dto_content := "and again";
     CommentService.postId := postId;
     CommentService.authorId := bobId;
     CommentService.parentCommentId := Some commentB |}.

Definition replyC : Comment.doc :=
  Eval vm_compute in
    hd (Comment.make EmptyString 0 EmptyString EmptyString EmptyString None)
      (tl (tl (comments
                 (fst (CommentService.createComment (at_ 25 commentC) nested
                         threaded))))).
End Scenario.

(** * Properties *)

(** ** Collections *)

Section CollectionFacts.
Context {A : Type} `{Document A}.

Lemma findById_Some (l : list A) (i : ObjectId) (d : A) :
  findById l i = Some d -> docId d = i /\ In d l.
Proof.
  unfold findById, findOne. intros E.
  apply find_some in E. destruct E as [Hin Hid].
  apply String.eqb_eq in Hid. auto.
Qed.

Lemma findById_None (l : list A) (i : ObjectId) :
  findById l i = None <-> ~ In i (map docId l).
Proof.
  unfold findById, findOne. induction l as [|d r IH]; simpl.
  - split; auto.
  - destruct (String.eqb (docId d) i) eqn:E.
    + apply String.eqb_eq in E. split; [discriminate | intros N; tauto].
    + apply String.eqb_neq in E. rewrite IH. tauto.
Qed.

Lemma findById_app (l r : list A) (i : ObjectId) :
  findById (l ++ r) i =
  match findById l i with
  | Some d => Some d
  | None => findById r i
  end.
Proof.
  unfold findById, findOne. induction l as [|d l IH]; simpl; auto.
  destruct (String.eqb (docId d) i); auto.
Qed.

Lemma findById_unique (l : list A) (i : ObjectId) (d : A) :
  uniqueIds l -> In d l -> docId d = i -> findById l i = Some d.
Proof.
  unfold uniqueIds, findById, findOne.
  induction l as [|x r IH]; simpl; intros U Hin Hid; [tauto|].
  inversion U as [|? ? Hx Ur]; subst.
  destruct Hin as [-> | Hin].
  - now rewrite String.eqb_refl.
  - destruct (String.eqb (docId x) (docId d)) eqn:E; auto.
    apply String.eqb_eq in E. exfalso. apply Hx. rewrite E.
    now apply in_map.
Qed.

(** An update that keeps the id of the document it rewrites. *)
Lemma map_docId_updateById (j : ObjectId) (f : A -> A) (l : list A) :
  (forall d, docId d = j -> docId (f d) = j) ->
  map docId (updateById j f l) = map docId l.
Proof.
  intros Hf. induction l as [|d r IH]; simpl; auto.
  destruct (String.eqb (docId d) j) eqn:E; simpl.
  - apply String.eqb_eq in E. now rewrite (Hf d E), E.
  - now rewrite IH.
Qed.

Lemma findById_updateById (j : ObjectId) (f : A -> A) (l : list A)
    (i : ObjectId) :
  (forall d, docId d = j -> docId (f d) = j) ->
  findById (updateById j f l) i =
  if String.eqb i j then option_map f (findById l j) else findById l i.
Proof.
  intros Hf. unfold findById, findOne.
  induction l as [|d r IH]; simpl.
  - now destruct (String.eqb i j).
  - destruct (String.eqb (docId d) j) eqn:E; simpl.
    + apply String.eqb_eq in E.
      rewrite (Hf d E). destruct (String.eqb i j) eqn:Eij.
      * apply String.eqb_eq in Eij. subst i.
        now rewrite String.eqb_refl.
      * rewrite E. rewrite String.eqb_sym, Eij. reflexivity.
    + destruct (String.eqb (docId d) i) eqn:Edi.
      * apply String.eqb_eq in Edi. subst i. now rewrite E.
      * exact IH.
Qed.

(** The update only looks at the document it finds. *)
Lemma updateById_found (j : ObjectId) (f : A -> A) (l : list A) (d : A) :
  findById l j = Some d ->
  updateById j f l = updateById j (fun _ => f d) l.
Proof.
  unfold findById, findOne. induction l as [|x r IH]; simpl; intros E.
  - discriminate.
  - destruct (String.eqb (docId x) j).
    + now inversion E.
    + now rewrite IH.
Qed.


Lemma Forall_updateById (P : A -> Prop) (j : ObjectId) (f : A -> A)
    (l : list A) :
  Forall P l -> (forall d, In d l -> P d -> P (f d)) ->
  Forall P (updateById j f l).
Proof.
  induction l as [|x r IH]; simpl; intros F Hf; auto.
  inversion F; subst.
  destruct (String.eqb (docId x) j); constructor; simpl in *; auto.
Qed.

Lemma Forall_save (P : A -> Prop) (d : A) (l : list A) :
  Forall P l -> P d -> Forall P (save d l).
Proof.
  intros F Pd. apply Forall_updateById; auto.
Qed.

Lemma insertOne_Ok (d : A) (l l' : list A) :
  insertOne d l = Ok l' ->
  l' = l ++ [d] /\ ~ In (docId d) (map docId l).
Proof.
  unfold insertOne. destruct (findById l (docId d)) eqn:E; [discriminate|].
  intros Q. inversion Q. split; auto. now apply findById_None.
Qed.

Lemma uniqueIds_app_one (d : A) (l : list A) :
  uniqueIds l -> ~ In (docId d) (map docId l) -> uniqueIds (l ++ [d]).
Proof.
  unfold uniqueIds. intros U N. rewrite map_app. simpl.
  apply NoDup_app; auto.
  - constructor; [simpl; tauto | constructor].
  - intros a Ha [<- | []]. exact (N Ha).
Qed.
End CollectionFacts.

Lemma In_insertSorted {A} (before : A -> A -> bool) (x y : A) (l : list A) :
  In y (insertSorted before x l) <-> y = x \/ In y l.
Proof.
  induction l as [|z r IH]; simpl.
  - intuition.
  - destruct (before x z); simpl; [intuition|]. rewrite IH. intuition.
Qed.

Lemma In_sortBy {A} (before : A -> A -> bool) (y : A) (l : list A) :
  In y (sortBy before l) <-> In y l.
Proof.
  induction l as [|x r IH]; simpl; [tauto|].
  rewrite In_insertSorted, IH. intuition.
Qed.

Lemma In_paginate {A} (skip limit0 : Z) (l data : list A) (y : A) :
  paginate skip limit0 l = Ok data -> In y data -> In y l.
Proof.
  unfold paginate. destruct (skip <? 0); [discriminate|].
  intros Q Hy. inversion Q; subst; clear Q.
  assert (Sk : forall n (k : list A), In y (skipn n k) -> In y k).
  { intros n k. rewrite <- (firstn_skipn n k) at 2. intros I.
    apply in_or_app. now right. }
  assert (Fi : forall n (k : list A), In y (firstn n k) -> In y k).
  { intros n k. rewrite <- (firstn_skipn n k) at 2. intros I.
    apply in_or_app. now left. }
  destruct (limit0 =? 0); eauto.
Qed.

(** ** Running the operation monad *)

Ltac run_monad :=
  cbv beta delta
    [bind ret throw get modify reading tryCatch inserting driver];
  simpl.

Ltac run_monad_in H :=
  cbv beta delta
    [bind ret throw get modify reading tryCatch inserting driver] in H;
  simpl in H.

(** Case analysis on the innermost scrutinee of the goal. *)
Ltac break_match :=
  match goal with
  | |- context [match ?x with _ => _ end] =>
      lazymatch x with
      | context [match _ with _ => _ end] => fail
      | _ => destruct x eqn:?
      end
  end.

Ltac break_match_in H :=
  match type of H with
  | context [match ?x with _ => _ end] =>
      lazymatch x with
      | context [match _ with _ => _ end] => fail
      | _ => destruct x eqn:?
      end
  end.

Lemma PostStatus_eqb_eq (a b : PostStatus) :
  PostStatus_eqb a b = true <-> a = b.
Proof. destruct a, b; simpl; split; congruence. Qed.

(** ** The scheduled-publish sweep *)

Section Sweep.
Import PostService.

Lemma due_isDue (now0 : Date) (p : Post.doc) :
  due now0 p = true <-> isDue now0 p.
Proof.
  unfold due, isDue. rewrite andb_true_iff, PostStatus_eqb_eq.
  destruct (Post.publishDate p) as [d|].
  - rewrite Z.leb_le. split.
    + intros [St Le]. eauto.
    + intros [St [d' [E Le]]]. inversion E. subst. auto.
  - split; [intros [_ F]; discriminate | intros [_ [d [E _]]]; discriminate].
Qed.

Lemma due_published (now0 : Date) (p : Post.doc) :
  due now0 (Post.set_status PUBLISHED p) = false.
Proof. reflexivity. Qed.

Lemma publishDue_not_due (now0 : Date) (l : list Post.doc) :
  filter (due now0) (publishDue now0 l) = [].
Proof.
  induction l as [|p r IH]; simpl; auto.
  destruct (due now0 p) eqn:E.
  - rewrite due_published. exact IH.
  - rewrite E. exact IH.
Qed.

Lemma publishDue_idempotent (now0 : Date) (l : list Post.doc) :
  publishDue now0 (publishDue now0 l) = publishDue now0 l.
Proof.
  induction l as [|p r IH]; simpl; auto.
  destruct (due now0 p) eqn:E.
  - rewrite due_published. now rewrite IH.
  - rewrite E. now rewrite IH.
Qed.

Lemma publishDue_pointwise (now0 : Date) (l : list Post.doc) :
  Forall2
    (fun p p' =>
       p' = Post.set_status (Post.status p') p
       /\ Post.publishDate p' = Post.publishDate p
       /\ (isDue now0 p -> Post.status p' = PUBLISHED)
       /\ (~ isDue now0 p -> p' = p))
    l (publishDue now0 l).
Proof.
  induction l as [|p r IH]; simpl; constructor; auto.
  destruct (due now0 p) eqn:E.
  - repeat split; auto. intros N. exfalso. apply N. now apply due_isDue.
  - repeat split; auto.
    + now destruct p.
    + intros D. apply due_isDue in D. congruence.
Qed.

Lemma publishDue_changed (now0 : Date) (l : list Post.doc) :
  changedCount l (publishDue now0 l) = countDocuments (due now0) l.
Proof.
  unfold changedCount, countDocuments, lengthZ. f_equal.
  induction l as [|p r IH]; simpl; auto.
  destruct (due now0 p) eqn:E; unfold statusChanged at 1; simpl.
  - unfold due in E. apply andb_true_iff in E. destruct E as [St _].
    apply PostStatus_eqb_eq in St. rewrite St. simpl. now rewrite IH.
  - destruct (Post.status p); simpl; exact IH.
Qed.

(** C5.  For every database state, the sweep returns a count [n] and a
    new state in which exactly the posts that were scheduled with a
    publish date not after now have become published, every other post
    is untouched, no publish date has changed, [n] is the number of
    posts whose status changed, and running the sweep again at once
    changes nothing and returns 0. *)
Theorem sweepScheduled_publishes_due_once (env : Env) (s : Store) :
  exists s' n,
    publishScheduledPosts env s = (s', Ok n)
    /\ Forall2
         (fun p p' =>
            p' = Post.set_status (Post.status p') p
            /\ Post.publishDate p' = Post.publishDate p
            /\ (isDue (now env) p -> Post.status p' = PUBLISHED)
            /\ (~ isDue (now env) p -> p' = p))
         (posts s) (posts s')
    /\ n = changedCount (posts s) (posts s')
    /\ (users s', tagDocs s', categories s', comments s', notifications s')
       = (users s, tagDocs s, categories s, comments s, notifications s)
    /\ publishScheduledPosts env s' = (s', Ok 0).
Proof.
  unfold publishScheduledPosts. run_monad.
  eexists. eexists. split; [reflexivity|]. simpl.
  split; [apply publishDue_pointwise|].
  split; [symmetry; apply publishDue_changed|].
  split; [reflexivity|].
  unfold set_posts; simpl. rewrite publishDue_idempotent.
  unfold countDocuments. now rewrite publishDue_not_due.
Qed.
End Sweep.

(** ** Comment lookups *)

Lemma CommentModel_findById_Some (l : list Comment.doc) (i : ObjectId)
    (c : Comment.doc) :
  CommentModel.findById l i = Some c ->
  Comment._id c = i /\ Comment.isDeleted c = false /\ In c l.
Proof.
  unfold CommentModel.findById, findOne. intros E.
  apply find_some in E. destruct E as [Hin Hq].
  apply andb_true_iff in Hq. destruct Hq as [Hid Hdel].
  apply String.eqb_eq in Hid. apply negb_true_iff in Hdel. auto.
Qed.

(** Under the unique index, the visible comment found by id is the stored
    document with that id. *)
Lemma CommentModel_findById_raw (l : list Comment.doc) (i : ObjectId)
    (c : Comment.doc) :
  uniqueIds l -> CommentModel.findById l i = Some c -> findById l i = Some c.
Proof.
  intros U E. apply CommentModel_findById_Some in E.
  destruct E as [Hid [_ Hin]]. now apply findById_unique.
Qed.

Lemma removeId_absent (u : ObjectId) (l : list ObjectId) :
  memId u l = false -> removeId u l = l.
Proof.
  unfold memId, removeId. induction l as [|i r IH]; simpl; auto.
  intros E. apply orb_false_iff in E. destruct E as [Ei Er].
  rewrite String.eqb_sym, Ei. simpl. now rewrite IH.
Qed.

(** ** Likes *)

(** A post that [u] already likes refuses the like and is left as it is. *)
Lemma likePost_again (env : Env) (s : Store) (postId u : ObjectId)
    (p : Post.doc) :
  findById (posts s) postId = Some p ->
  memId u (Post.likes p) = true ->
  PostService.likePost env postId u s
  = (s, Err (AppError "已经点赞过这篇文章" 400)).
Proof.
  intros F L. unfold PostService.likePost. run_monad. now rewrite F, L.
Qed.

(** A comment that [u] already likes is returned as it is. *)
Lemma likeComment_again (env : Env) (s : Store) (commentId u : ObjectId)
    (c : Comment.doc) :
  CommentModel.findById (comments s) commentId = Some c ->
  memId u (Comment.likes c) = true ->
  CommentService.likeComment env commentId u s = (s, Ok c).
Proof.
  intros F L. unfold CommentService.likeComment. run_monad. now rewrite F, L.
Qed.







(** ** Creating a scheduled post *)

(** Whatever it is asked, createPost throws no error that carries the
    status 400 (the ValidationError of a missing slug carries none), and
    a createPost that throws has written nothing. *)
Lemma createPost_errors (env : Env) (data : PostService.CreatePostDTO)
    (s s' : Store) (e : Error) :
  PostService.createPost env data s = (s', Err e) ->
  s' = s /\ statusCode e <> Some 400.
Proof.
  unfold PostService.createPost. intros H. run_monad_in H.
  repeat (break_match_in H; simpl in H; try discriminate);
    inversion H; subst; clear H; split; try reflexivity;
    try (simpl; discriminate);
    match goal with
    | I : insertOne _ _ = Err _ |- _ =>
        unfold insertOne in I; break_match_in I; inversion I; simpl;
        discriminate
    end.
Qed.

(** createPost never looks at the clock when it takes a publish date:
    whatever date a request for a scheduled post names, the call has the
    same outcome up to that date. *)
Lemma createPost_takes_any_date (env : Env) (data : PostService.CreatePostDTO)
    (d1 d2 : Date) (s : Store) :
  PostService.dto_status data = Some SCHEDULED ->
  let at_date d :=
    {| PostService.dto_title := PostService.dto_title data;
       PostService.dto_content := PostService.dto_content data;
       PostService.dto_slug := PostService.dto_slug data;
       PostService.authorId := PostService.authorId data;
       PostService.categoryId := PostService.categoryId data;
       PostService.tagIds := PostService.tagIds data;
       PostService.dto_status := PostService.dto_status data;
       PostService.dto_publishDate := Some d |} in
  match PostService.createPost env (at_date d1) s,
        PostService.createPost env (at_date d2) s with
  | (s1, Ok p1), (s2, Ok p2) =>
      Post.publishDate p1 = Some d1 /\ Post.publishDate p2 = Some d2
      /\ Post.status p1 = SCHEDULED /\ Post.status p2 = SCHEDULED
  | (s1, Err e1), (s2, Err e2) => s1 = s /\ s2 = s /\ e1 = e2
  | _, _ => False
  end.
Proof.
  intros St at_date. subst at_date.
  unfold PostService.createPost, PostService.slugGiven,
    PostService.createPublishDate.
  run_monad. rewrite St.
  destruct (findById (users s) (PostService.authorId data)); simpl; auto.
  destruct (findById (categories s) (PostService.categoryId data)); simpl;
    auto.
  destruct (PostService.tagIds data) as [[|i ids]|]; simpl;
    try destruct (PostService.countTagsIn _ _ =? _); simpl; auto;
    destruct (truthy (PostService.dto_slug data)) as [sl|]; simpl; auto;
    destruct (blank sl); simpl; auto;
    unfold insertOne; simpl;
    change (docId ?x) with (Post._id x); simpl;
    destruct (findById (posts s) (freshId env)); simpl; auto.
Qed.

(** C3.  createPost has no check of the publish date: asked at time 1000
    for a scheduled post with a slug and with publish date 500, it
    succeeds and stores a scheduled post whose publish date is in the
    past, where schedulePost throws the 400 error "the scheduled date
    must be in the future".  (Without a slug the same request fails the
    schema's validation, whatever its date.) *)
Theorem createPost_scheduled_in_the_past_is_stored :
  exists s' p,
    PostService.dto_slug (Scenario.newPost (Some SCHEDULED) (Some 500))
    = Some "draft"
    /\ PostService.createPost (Scenario.at_ 1000 Scenario.postId)
         (Scenario.newPost (Some SCHEDULED) (Some 500)) Scenario.noPosts
       = (s', Ok p)
    /\ Post.status p = SCHEDULED
    /\ Post.publishDate p = Some 500
    /\ 500 <= now (Scenario.at_ 1000 Scenario.postId)
    /\ findById (posts s') Scenario.postId = Some p
    /\ snd (PostService.schedulePost (Scenario.later 1000) Scenario.postId
              Scenario.annId 500 s')
       = Err (AppError "定时发布日期必须在未来" 400).
Proof.
  eexists. eexists. split; [reflexivity|].
  split; [vm_compute; reflexivity|].
  repeat split; try reflexivity. vm_compute. discriminate.
Qed.

(** The same request without a slug stores nothing, for any date: the
    schema's [required] check on the slug comes first. *)
Lemma createPost_without_slug_fails (env : Env)
    (data : PostService.CreatePostDTO) (s s' : Store)
    (r : Result Post.doc) :
  PostService.dto_slug data = None ->
  PostService.createPost env data s = (s', r) ->
  s' = s /\ exists e, r = Err e.
Proof.
  intros Sl H. unfold PostService.createPost, PostService.slugGiven in H.
  rewrite Sl in H. run_monad_in H.
  repeat (break_match_in H; simpl in H; try discriminate);
    inversion H; subst; eauto.
Qed.

(** ** Reparenting a category under one of its descendants *)

Section CategoryCycle.
Import CategoryService.
Variable slugify : string -> string.
Variable hookSlug : string -> string.

Lemma descendantAt_stored (cats : list Category.doc) (x d : ObjectId)
    (n : nat) :
  descendantAt cats x n d -> exists c, findById cats d = Some c.
Proof. intros D. destruct D; eauto. Qed.

(** The walk from a descendant meets the category before the fuel that
    its depth asks for is spent. *)
Lemma walkAncestors_descendant (cats : list Category.doc) (x : ObjectId)
    (n : nat) (d : ObjectId) :
  descendantAt cats x n d ->
  forall (c : Category.doc) (fuel : nat),
    findById cats d = Some c -> (n < fuel)%nat ->
    walkAncestors fuel cats x c = Some true.
Proof.
  induction 1 as [d c0 F0 P0 | n d c0 p F0 P0 D IH]; intros c fuel F L.
  - destruct fuel as [|fuel]; [lia|]. simpl.
    rewrite F0 in F. inversion F; subst c.
    now rewrite P0, String.eqb_refl.
  - destruct fuel as [|fuel]; [lia|]. simpl.
    rewrite F0 in F. inversion F; subst c. rewrite P0.
    destruct (String.eqb p x); auto.
    destruct (descendantAt_stored _ _ _ _ D) as [cp Fp].
    rewrite Fp. apply IH; auto. lia.
Qed.

(** Let [d] be a descendant of the stored category [x], at depth [n],
    and let the request spell both ids as they are stored.  Updating
    [x] with parent [d] ends, given fuel for more than [n] turns of the
    ancestor walk, by throwing an error of status 400 and leaves the
    database, hence every category's parent and order, unchanged; unless
    the update also renames [x] or [d] is [x] itself, the error is the
    one of the cycle check. *)
Lemma updateCategory_rejects_descendant_parent (fuel : nat) (s : Store)
    (x d : ObjectId) (n : nat) (cx : Category.doc)
    (data : UpdateCategoryDTO) :
  castId x = x ->
  castId d = d ->
  findById (categories s) x = Some cx ->
  descendantAt (categories s) x n d ->
  d <> EmptyString ->
  upd_parent data = Some (Some d) ->
  (n < fuel)%nat ->
  exists e,
    updateCategory slugify hookSlug fuel x data s = Some (s, Err e)
    /\ statusCode e = Some 400
    /\ (renamed data cx = None -> d <> x ->
        e = AppError "不能设置子分类为父分类，会导致循环依赖" 400).
Proof.
  intros Cx Cd Fx D Ne Pd L.
  destruct (descendantAt_stored _ _ _ _ D) as [cd Fd].
  assert (W : walkAncestors fuel (categories s) x cd = Some true)
    by (eapply walkAncestors_descendant; eauto).
  assert (T : truthy (Some d) = Some d).
  { simpl. destruct (String.eqb d EmptyString) eqn:E; auto.
    apply String.eqb_eq in E. contradiction. }
  unfold updateCategory, beforeWalk. run_monad. rewrite Cx, Fx, Pd.
  unfold isSelf.
  destruct (renamed data cx) as [nm|] eqn:R;
    repeat (first [rewrite T | rewrite Cd | rewrite Fd | rewrite W
                  | break_match];
            simpl);
    eexists; (split; [reflexivity|]); (split; [reflexivity|]);
    intros Q N; try discriminate; try reflexivity.
  match goal with E : String.eqb d x = true |- _ =>
    apply String.eqb_eq in E; contradiction end.
Qed.
End CategoryCycle.

(** Categories whose parent links decrease a measure form a forest. *)
Lemma acyclic_ranked (rank : ObjectId -> nat) (cats : list Category.doc) :
  ranked rank cats -> acyclic cats.
Proof.
  unfold ranked. intros R.
  assert (Up : forall x n d, descendantAt cats x n d ->
                 (rank x < rank d)%nat).
  { assert (Link : forall d c p, findById cats d = Some c ->
                     Category.parentCategory c = Some p ->
                     (rank p < rank d)%nat).
    { intros d c p F P. apply findById_Some in F. destruct F as [Hid I].
      rewrite Forall_forall in R. specialize (R c I). rewrite P in R.
      now rewrite <- Hid. }
    intros x n d D. induction D as [d c F P | n d c p F P D IH].
    - eapply Link; eauto.
    - pose proof (Link _ _ _ F P). lia. }
  intros x [n D]. apply Up in D. lia.
Qed.

(** C8.  updateCategory lets a category be put under its own descendant
    when the request spells the category's id with upper-case digits.
    In the tree news > tech > rust, the update of news with parent rust
    is refused with the error of the cycle check when news is named as
    it is stored.  Named in upper case, news is found all the same, by
    the cast of findById, but the walk up from rust compares each
    ancestor's printed id with the string of the request and never
    meets it: the call succeeds, news is stored with parent rust and is
    from then on below itself. *)
Theorem updateCategory_saves_a_cycle_for_an_upper_case_id :
  castId Scenario.newsIdUpper = Scenario.newsId
  /\ findById (categories Scenario.tree) Scenario.newsId
     = Some Scenario.news
  /\ Category.parentCategory Scenario.news = None
  /\ descendant (categories Scenario.tree) Scenario.newsId Scenario.rustId
  /\ acyclic (categories Scenario.tree)
  /\ CategoryService.updateCategory (fun n => n) (fun n => n) 3
       Scenario.newsId (Scenario.reparent Scenario.rustId) Scenario.tree
     = Some (Scenario.tree,
             Err (AppError "不能设置子分类为父分类，会导致循环依赖" 400))
  /\ exists s' c,
       CategoryService.updateCategory (fun n => n) (fun n => n) 3
         Scenario.newsIdUpper (Scenario.reparent Scenario.rustId)
         Scenario.tree
       = Some (s', Ok c)
       /\ c = Category.set_parentCategory (Some Scenario.rustId)
                Scenario.news
       /\ categories s' = [c; Scenario.tech; Scenario.rust]
       /\ findById (categories s') Scenario.newsId = Some c
       /\ descendant (categories s') Scenario.newsId Scenario.newsId
       /\ ~ acyclic (categories s').
Proof.
  assert (Cyc : descendant
                  [Category.set_parentCategory (Some Scenario.rustId)
                     Scenario.news; Scenario.tech; Scenario.rust]
                  Scenario.newsId Scenario.newsId).
  { exists 2%nat.
    eapply below_child with (p := Scenario.rustId);
      [reflexivity | reflexivity |].
    eapply below_child with (c := Scenario.rust) (p := Scenario.techId);
      [reflexivity | reflexivity |].
    eapply child_of with (c := Scenario.tech); reflexivity. }
  split; [reflexivity|]. split; [reflexivity|]. split; [reflexivity|].
  split.
  { exists 1%nat.
    eapply below_child with (c := Scenario.rust) (p := Scenario.techId);
      [reflexivity | reflexivity |].
    eapply child_of with (c := Scenario.tech); reflexivity. }
  split.
  { apply (acyclic_ranked Scenario.treeDepth).
    repeat constructor; simpl; lia. }
  split; [reflexivity|].
  eexists. eexists. split; [reflexivity|].
  split; [reflexivity|]. split; [reflexivity|]. split; [reflexivity|].
  split; [exact Cyc|].
  intros A. exact (A Scenario.newsId Cyc).
Qed.

(** In stored spelling the same request is refused, for any fuel above
    the depth of rust below news. *)
Example updateCategory_cycle_in_stored_spelling :
  exists e,
    CategoryService.updateCategory (fun n => n) (fun n => n) 2
      Scenario.newsId (Scenario.reparent Scenario.rustId) Scenario.tree
    = Some (Scenario.tree, Err e)
    /\ statusCode e = Some 400
    /\ (CategoryService.renamed (Scenario.reparent Scenario.rustId)
          Scenario.news = None ->
        Scenario.rustId <> Scenario.newsId ->
        e = AppError "不能设置子分类为父分类，会导致循环依赖" 400).
Proof.
  apply (updateCategory_rejects_descendant_parent (fun n => n) (fun n => n)
           2 Scenario.tree Scenario.newsId Scenario.rustId 1 Scenario.news
           (Scenario.reparent Scenario.rustId)).
  - reflexivity.
  - reflexivity.
  - reflexivity.
  - eapply below_child with (c := Scenario.rust) (p := Scenario.techId);
      [reflexivity | reflexivity |].
    eapply child_of with (c := Scenario.tech); reflexivity.
  - discriminate.
  - reflexivity.
  - lia.
Qed.

(** ** Creating a comment *)

Lemma onlyNotifications_refl (s : Store) : onlyNotifications s s.
Proof. unfold onlyNotifications. auto. Qed.

Lemma createNotification_frame (env : Env) (n : Notification.doc) (s : Store) :
  onlyNotifications s (fst (NotificationService.createNotification env n s)).
Proof.
  unfold NotificationService.createNotification. run_monad.
  destruct (notificationFault env); simpl; [apply onlyNotifications_refl|].
  destruct (insertOne n (notifications s)); simpl;
    unfold onlyNotifications; simpl; auto.
Qed.

Ltac use_notification_frames :=
  repeat match goal with
         | H : NotificationService.createNotification ?e ?n ?s = (?s', _)
           |- _ =>
             let F := fresh "F" in
             pose proof (createNotification_frame e n s) as F;
             rewrite H in F; simpl in F; clear H
         end;
  try match goal with
      | |- context [fst (NotificationService.createNotification ?e ?n ?s)] =>
          pose proof (createNotification_frame e n s)
      end;
  unfold onlyNotifications in *; simpl; intuition congruence.

Lemma notifyNewComment_frame (env : Env)
    (data : CommentService.CreateCommentDTO) (postAuthor commentId : ObjectId)
    (s : Store) :
  onlyNotifications s
    (fst (CommentService.notifyNewComment env data postAuthor commentId s)).
Proof.
  unfold CommentService.notifyNewComment,
    NotificationService.createCommentNotification,
    NotificationService.createReplyNotification.
  run_monad. repeat (break_match; simpl); use_notification_frames.
Qed.

Lemma createLikeCommentNotification_frame (env : Env)
    (data : NotificationService.LikeCommentNotificationDTO) (s : Store) :
  onlyNotifications s
    (fst (NotificationService.createLikeCommentNotification env data s)).
Proof.
  unfold NotificationService.createLikeCommentNotification.
  run_monad. repeat (break_match; simpl); use_notification_frames.
Qed.

Lemma CommentModel_findById_app_new (l : list Comment.doc) (c : Comment.doc) :
  ~ In (Comment._id c) (map docId l) ->
  Comment.isDeleted c = false ->
  CommentModel.findById (l ++ [c]) (Comment._id c) = Some c.
Proof.
  unfold CommentModel.findById, findOne. intros N V.
  induction l as [|x r IH]; simpl.
  - now rewrite String.eqb_refl, V.
  - simpl in N. destruct (String.eqb (Comment._id x) (Comment._id c)) eqn:E.
    + apply String.eqb_eq in E. exfalso. apply N. now left.
    + simpl. apply IH. intros I. apply N. now right.
Qed.

Lemma newComment_fresh (env : Env) (data : CommentService.CreateCommentDTO)
    (parent : option Comment.doc) :
  Comment._id (newComment env data parent) = freshId env
  /\ Comment.isDeleted (newComment env data parent) = false
  /\ Comment.isApproved (newComment env data parent) = true
  /\ Comment.post (newComment env data parent) = CommentService.postId data
  /\ Comment.likes (newComment env data parent) = []
  /\ Comment.likeCount (newComment env data parent) = 0.
Proof. destruct parent; simpl; auto 10. Qed.

(** What a successful insert of createComment has read and written. *)
Lemma insertComment_Ok (env : Env) (data : CommentService.CreateCommentDTO)
    (s s1 : Store) (post : Post.doc) (c : Comment.doc)
    (pop : option Comment.doc) :
  CommentService.insertComment env data s = (s1, Ok (post, c, pop)) ->
  exists parent,
    findById (posts s) (CommentService.postId data) = Some post
    /\ (exists u, findById (users s) (CommentService.authorId data) = Some u)
    /\ match truthy (CommentService.parentCommentId data) with
       | Some pid =>
           exists p, parent = Some p
                     /\ CommentModel.findById (comments s) pid = Some p
       | None => parent = None
       end
    /\ c = newComment env data parent
    /\ ~ In (freshId env) (map docId (comments s))
    /\ comments s1 = comments s ++ [c]
    /\ posts s1 = updateById (CommentService.postId data)
                    (Post.inc_commentCount 1) (posts s)
    /\ (users s1, tagDocs s1, categories s1, notifications s1)
       = (users s, tagDocs s, categories s, notifications s)
    /\ pop = Some c.
Proof.
  intros H.
  unfold CommentService.insertComment, CommentModel.create,
    CommentModel.preSaveNew, CommentModel.incCommentCount in H.
  run_monad_in H.
  repeat (break_match_in H; simpl in H; try discriminate).
  - inversion Heqo2; subst d2; clear Heqo2.
    inversion H; subst; clear H.
    apply insertOne_Ok in Heqr. destruct Heqr as [-> N].
    pose proof (CommentModel_findById_Some _ _ _ Heqo3) as [Hid _].
    subst s0. exists (Some d1). change (docId ?x) with (Comment._id x) in N.
    simpl in N. repeat split; eauto.
    apply (CommentModel_findById_app_new (comments s)
             (newComment env data (Some d1))); auto.
  - inversion H; subst; clear H.
    apply insertOne_Ok in Heqr. destruct Heqr as [-> N].
    exists None. change (docId ?x) with (Comment._id x) in N.
    simpl in N. repeat split; eauto.
    apply (CommentModel_findById_app_new (comments s)
             (newComment env data None)); auto.
Qed.

(** createComment is its insert followed by the notifications, whose
    outcome it discards. *)
Lemma createComment_cases (env : Env) (data : CommentService.CreateCommentDTO)
    (s : Store) :
  match CommentService.insertComment env data s with
  | (s1, Ok (post, c, pop)) =>
      exists s2,
        CommentService.createComment env data s = (s2, Ok pop)
        /\ s2 = fst (CommentService.notifyNewComment env data
                       (Post.author post) (Comment._id c) s1)
        /\ onlyNotifications s1 s2
  | (s1, Err e) => CommentService.createComment env data s = (s1, Err e)
  end.
Proof.
  unfold CommentService.createComment. run_monad.
  destruct (CommentService.insertComment env data s) as [s1 [[[post c] pop]|e]];
    auto.
  pose proof (notifyNewComment_frame env data (Post.author post)
                (Comment._id c) s1) as F.
  destruct (CommentService.notifyNewComment env data (Post.author post)
              (Comment._id c) s1) as [s2 [[]|e]]; simpl in *; eauto.
Qed.

(** ** Notifications that cannot be written *)



(** ** Soft deletion and the listings *)

Lemma createComment_Ok (env : Env) (data : CommentService.CreateCommentDTO)
    (s s2 : Store) (c : Comment.doc) :
  CommentService.createComment env data s = (s2, Ok (Some c)) ->
  exists parent,
    match truthy (CommentService.parentCommentId data) with
    | Some pid =>
        exists p, parent = Some p
                  /\ CommentModel.findById (comments s) pid = Some p
    | None => parent = None
    end
    /\ c = newComment env data parent
    /\ ~ In (freshId env) (map docId (comments s))
    /\ comments s2 = comments s ++ [c].
Proof.
  intros H. pose proof (createComment_cases env data s) as C.
  destruct (CommentService.insertComment env data s)
    as [s1 [[[post c0] pop]|e]] eqn:I.
  - destruct C as [s2' [C [_ F]]]. rewrite H in C. inversion C; subst.
    apply insertComment_Ok in I.
    destruct I as [parent [_ [_ [Par [Ec [Fresh [Cs [_ [_ Pop]]]]]]]]].
    inversion Pop; subst c0. exists parent.
    destruct F as [_ [_ [_ [_ Fc]]]]. rewrite Fc. auto.
  - rewrite H in C. discriminate.
Qed.

Lemma deleteComment_Ok (env : Env) (commentId userId : ObjectId)
    (isAdmin : bool) (s s' : Store) :
  CommentService.deleteComment env commentId userId isAdmin s = (s', Ok tt) ->
  exists c,
    CommentModel.findById (comments s) commentId = Some c
    /\ comments s' = save (Comment.set_deleted (now env) c) (comments s).
Proof.
  unfold CommentService.deleteComment, CommentModel.saveDoc,
    CommentModel.incCommentCount.
  intros H. run_monad_in H.
  repeat (break_match_in H; simpl in H; try discriminate).
  inversion H; subst; clear H. simpl. eauto.
Qed.

Lemma CommentModel_findById_app (l r : list Comment.doc) (i : ObjectId) :
  CommentModel.findById (l ++ r) i =
  match CommentModel.findById l i with
  | Some c => Some c
  | None => CommentModel.findById r i
  end.
Proof.
  unfold CommentModel.findById, findOne.
  induction l as [|x l IH]; simpl; auto.
  destruct (String.eqb (Comment._id x) i && negb (Comment.isDeleted x)); auto.
Qed.

Lemma updateById_app_fresh {A} `{Document A} (i : ObjectId) (f : A -> A)
    (l r : list A) (d : A) :
  ~ In i (map docId l) -> docId d = i ->
  updateById i f (l ++ d :: r) = l ++ f d :: r.
Proof.
  intros N E. induction l as [|x l IH]; simpl.
  - now rewrite E, String.eqb_refl.
  - simpl in N. destruct (String.eqb (docId x) i) eqn:Ex.
    + apply String.eqb_eq in Ex. exfalso. apply N. now left.
    + rewrite IH; auto.
Qed.

Lemma pageOf_In (srt : Comment.doc -> Comment.doc -> bool)
    (q : Comment.doc -> bool) (page0 limit0 : Z) (s s' : Store)
    (data : list Comment.doc) (meta : Meta) (x : Comment.doc) :
  CommentService.pageOf srt q page0 limit0 s = (s', Ok (data, meta)) ->
  In x data ->
  In x (comments s) /\ q x = true /\ Comment.isDeleted x = false.
Proof.
  unfold CommentService.pageOf. intros H. run_monad_in H.
  destruct (paginate _ _ _) as [found|e] eqn:P; [|discriminate].
  inversion H; subst; clear H. intros I.
  eapply In_paginate in I; eauto. apply In_sortBy in I.
  unfold CommentModel.find in I. apply filter_In in I.
  destruct I as [I Q]. apply andb_true_iff in Q. destruct Q as [Q D].
  apply negb_true_iff in D. auto.
Qed.

Lemma pageOf_Ok (srt : Comment.doc -> Comment.doc -> bool)
    (q : Comment.doc -> bool) (page0 limit0 : Z) (s s' : Store)
    (data : list Comment.doc) (meta : Meta) :
  CommentService.pageOf srt q page0 limit0 s = (s', Ok (data, meta)) ->
  s' = s
  /\ meta = CommentService.mkMeta (countDocuments q (comments s)) page0 limit0
  /\ paginate ((page0 - 1) * limit0) limit0
       (sortBy srt (CommentModel.find q (comments s))) = Ok data.
Proof.
  unfold CommentService.pageOf. intros H.
  cbv beta iota delta [bind ret throw get reading] in H.
  destruct (paginate _ _ _) as [found|e] eqn:P; [|discriminate].
  inversion H; subst; auto.
Qed.

Lemma In_firstn {A} (n : nat) (l : list A) (x : A) :
  In x (firstn n l) -> In x l.
Proof.
  intros I. rewrite <- (firstn_skipn n l). apply in_or_app. now left.
Qed.

Lemma firstn_short {A} (n : nat) (l : list A) :
  (length l <= n)%nat -> firstn n l = l.
Proof.
  revert n. induction l as [|x r IH]; intros n L; [now destruct n|].
  destruct n as [|n]; simpl in *; [lia|]. rewrite IH; auto. lia.
Qed.

(** The preview of a document holds stored replies to it that are not
    soft-deleted, oldest first, at most [limit0] of them; whether they
    are approved is not asked. *)
Lemma populateReplies_entries (limit0 : nat) (all page : list Comment.doc) :
  map fst (CommentService.populateReplies limit0 all page) = page.
Proof.
  unfold CommentService.populateReplies. rewrite map_map. simpl.
  apply map_id.
Qed.

Lemma populateReplies_In (limit0 : nat) (all page : list Comment.doc)
    (c : Comment.doc) (preview : list Comment.doc) :
  In (c, preview) (CommentService.populateReplies limit0 all page) ->
  In c page
  /\ (length preview <= limit0)%nat
  /\ forall r, In r preview ->
       In r all
       /\ Comment.isDeleted r = false
       /\ Comment.parentComment r = Some (Comment._id c).
Proof.
  unfold CommentService.populateReplies. intros I.
  apply in_map_iff in I. destruct I as [c0 [E I]].
  inversion E; subst c0 preview; clear E.
  split; [exact I|]. split; [apply firstn_le_length|].
  intros r Ir. apply In_firstn in Ir. apply filter_In in Ir.
  destruct Ir as [Ir Hp]. apply In_firstn in Ir. apply In_sortBy in Ir.
  unfold CommentModel.find in Ir. apply filter_In in Ir.
  destruct Ir as [Ia Q]. apply andb_true_iff in Q. destruct Q as [_ D].
  apply negb_true_iff in D. repeat split; auto.
  unfold CommentService.hasParent in Hp.
  destruct (Comment.parentComment r) as [q|]; [|discriminate].
  apply String.eqb_eq in Hp. now subst.
Qed.

Lemma getPostComments_Ok (postId : ObjectId) (page0 limit0 : Z)
    (s s' : Store) (data : list (Comment.doc * list Comment.doc))
    (meta : Meta) :
  CommentService.getPostComments postId page0 limit0 s
  = (s', Ok (data, meta)) ->
  s' = s
  /\ data = CommentService.populateReplies 3 (comments s) (map fst data)
  /\ CommentService.pageOf CommentService.highlightedThenNewest
       (fun c => String.eqb (Comment.post c) postId
                 && (Comment.level c =? 1) && Comment.isApproved c)
       page0 limit0 s
     = (s, Ok (map fst data, meta)).
Proof.
  unfold CommentService.getPostComments. intros H.
  cbv beta iota delta [bind ret throw get reading] in H.
  destruct (CommentService.pageOf _ _ page0 limit0 s)
    as [s1 [[entries m]|e]] eqn:P; [|discriminate].
  pose proof (pageOf_Ok _ _ _ _ _ _ _ _ P) as [-> _].
  simpl in H. inversion H; subst s' data meta; clear H.
  rewrite populateReplies_entries. auto.
Qed.

Lemma populateParent_entries (all page : list Comment.doc) :
  map fst (map (CommentService.populateParent all) page) = page.
Proof.
  induction page as [|c r IH]; simpl; [reflexivity | now rewrite IH].
Qed.

Lemma getUserComments_Ok (userId : ObjectId) (page0 limit0 : Z)
    (s s' : Store) (data : list (Comment.doc * option Comment.doc))
    (meta : Meta) :
  CommentService.getUserComments userId page0 limit0 s
  = (s', Ok (data, meta)) ->
  s' = s
  /\ data = map (CommentService.populateParent (comments s)) (map fst data)
  /\ CommentService.pageOf CommentService.newestFirst
       (fun c => String.eqb (Comment.author c) userId
                 && Comment.isApproved c)
       page0 limit0 s
     = (s, Ok (map fst data, meta)).
Proof.
  unfold CommentService.getUserComments. intros H.
  cbv beta iota delta [bind ret throw get reading] in H.
  destruct (CommentService.pageOf _ _ page0 limit0 s)
    as [s1 [[entries m]|e]] eqn:P; [|discriminate].
  pose proof (pageOf_Ok _ _ _ _ _ _ _ _ P) as [-> _].
  simpl in H. inversion H; subst s' data meta; clear H.
  rewrite populateParent_entries. auto.
Qed.

Lemma CommentModel_findById_hidden (l : list Comment.doc) (i : ObjectId) :
  (forall x, In x l -> Comment.isDeleted x = false -> Comment._id x <> i) ->
  CommentModel.findById l i = None.
Proof.
  unfold CommentModel.findById, findOne. intros Hd.
  destruct (find _ l) as [x|] eqn:E; auto.
  apply find_some in E. destruct E as [I Q].
  apply andb_true_iff in Q. destruct Q as [Qi Qd].
  apply String.eqb_eq in Qi. apply negb_true_iff in Qd.
  exfalso. eapply Hd; eauto.
Qed.

(** C4, as the code has it.  Create a top-level comment A, create a reply
    B whose parent is A, soft-delete A.  Then no page of the post's
    top-level listing contains A, neither as an entry nor in a preview of
    replies, and the listing of A's replies throws the
    404 error "comment does not exist", because the lookup of the parent
    skips soft-deleted comments; B itself is still stored, visible and
    approved, at level 2 with parent A and path A. *)
Theorem softDeleted_parent_hides_its_replies (s sa sb sd : Store)
    (envA envB envD : Env) (dataA dataB : CommentService.CreateCommentDTO)
    (a b : Comment.doc) (userId : ObjectId) (isAdmin : bool) :
  CommentService.createComment envA dataA s = (sa, Ok (Some a)) ->
  truthy (CommentService.parentCommentId dataA) = None ->
  CommentService.createComment envB dataB sa = (sb, Ok (Some b)) ->
  truthy (CommentService.parentCommentId dataB) = Some (Comment._id a) ->
  CommentService.deleteComment envD (Comment._id a) userId isAdmin sb
  = (sd, Ok tt) ->
  (forall page0 limit0 s' data meta,
      CommentService.getPostComments (CommentService.postId dataA)
        page0 limit0 sd = (s', Ok (data, meta)) ->
      ~ In (Comment._id a) (map Comment._id (map fst data))
      /\ forall entry r, In entry data -> In r (snd entry) ->
                         Comment._id r <> Comment._id a)
  /\ (forall page0 limit0,
        CommentService.getCommentReplies (Comment._id a) page0 limit0 sd
        = (sd, Err (AppError "评论不存在" 404)))
  /\ In b (CommentModel.find
             (fun c => CommentService.hasParent (Comment._id a) c
                       && Comment.isApproved c) (comments sd))
  /\ Comment.parentComment b = Some (Comment._id a)
  /\ Comment.level b = 2
  /\ Comment.path b = Comment._id a.
Proof.
  intros HA TA HB TB HD.
  apply createComment_Ok in HA. rewrite TA in HA.
  destruct HA as [pa [-> [Ea [NA CA]]]].
  assert (Ia : Comment._id a = freshId envA)
    by (subst a; apply newComment_fresh).
  assert (Va : Comment.isDeleted a = false)
    by (subst a; apply newComment_fresh).
  rewrite <- Ia in NA.
  apply createComment_Ok in HB. rewrite TB in HB.
  destruct HB as [pb [[p [-> Fp]] [Eb [NB CB]]]].
  rewrite CA in Fp. rewrite CommentModel_findById_app_new in Fp by auto.
  inversion Fp; subst p; clear Fp.
  assert (Ib : Comment._id b = freshId envB)
    by (subst b; apply newComment_fresh).
  assert (Vb : Comment.isDeleted b = false)
    by (subst b; apply newComment_fresh).
  assert (Nab : Comment._id b <> Comment._id a).
  { intros E. apply NB. rewrite CA, map_app, <- Ib, E. apply in_or_app.
    right. simpl. now left. }
  apply deleteComment_Ok in HD. destruct HD as [c [Fc CD]].
  rewrite CB, CommentModel_findById_app, CA in Fc.
  rewrite CommentModel_findById_app_new in Fc by auto.
  inversion Fc; subst c; clear Fc.
  assert (Sd : comments sd
               = comments s ++ Comment.set_deleted (now envD) a :: [b]).
  { rewrite CD, CB, CA, <- app_assoc. simpl. unfold save.
    apply (updateById_app_fresh (Comment._id a)
             (fun _ => Comment.set_deleted (now envD) a) (comments s) [b] a);
      auto. }
  assert (Hidden : forall x, In x (comments sd) ->
                     Comment.isDeleted x = false ->
                     Comment._id x <> Comment._id a).
  { intros x I V. rewrite Sd in I. apply in_app_or in I.
    destruct I as [I | [<- | [<- | []]]].
    - intros E. apply NA. rewrite <- E. now apply in_map.
    - discriminate.
    - exact Nab. }
  split; [|split; [|split; [|split; [|split]]]].
  - intros page0 limit0 s' data meta G.
    apply getPostComments_Ok in G. destruct G as [-> [Ed G]]. split.
    + intros I. apply in_map_iff in I. destruct I as [x [Ex Ix]].
      destruct (pageOf_In _ _ _ _ _ _ _ _ x G Ix) as [Is [_ Vx]].
      exact (Hidden x Is Vx Ex).
    + intros [c preview] r Ie Ir. rewrite Ed in Ie.
      apply populateReplies_In in Ie. destruct Ie as [_ [_ Pr]].
      destruct (Pr r Ir) as [Is [Vr _]]. exact (Hidden r Is Vr).
  - intros page0 limit0. unfold CommentService.getCommentReplies. run_monad.
    now rewrite (CommentModel_findById_hidden _ _ Hidden).
  - unfold CommentModel.find. apply filter_In. split.
    + rewrite Sd. apply in_or_app. right. simpl. auto.
    + subst b. simpl. unfold CommentService.hasParent. simpl.
      now rewrite String.eqb_refl.
  - subst b. reflexivity.
  - subst b. rewrite Ea at 1. reflexivity.
  - subst b. simpl. rewrite Ea at 1. reflexivity.
Qed.

Lemma softDeleted_parent_witness :
  (forall page0 limit0 s' data meta,
      CommentService.getPostComments
        (CommentService.postId Scenario.topLevel) page0 limit0
        Scenario.afterDelete = (s', Ok (data, meta)) ->
      ~ In (Comment._id Scenario.firstComment)
          (map Comment._id (map fst data))
      /\ forall entry r, In entry data -> In r (snd entry) ->
                         Comment._id r <> Comment._id Scenario.firstComment)
  /\ (forall page0 limit0,
        CommentService.getCommentReplies (Comment._id Scenario.firstComment)
          page0 limit0 Scenario.afterDelete
        = (Scenario.afterDelete, Err (AppError "评论不存在" 404)))
  /\ In Scenario.replyB
       (CommentModel.find
          (fun c => CommentService.hasParent
                      (Comment._id Scenario.firstComment) c
                    && Comment.isApproved c)
          (comments Scenario.afterDelete))
  /\ Comment.parentComment Scenario.replyB
     = Some (Comment._id Scenario.firstComment)
  /\ Comment.level Scenario.replyB = 2
  /\ Comment.path Scenario.replyB = Comment._id Scenario.firstComment.
Proof.
  apply (softDeleted_parent_hides_its_replies Scenario.blog Scenario.afterA
           Scenario.threaded Scenario.afterDelete
           (Scenario.at_ 10 Scenario.commentA)
           (Scenario.at_ 20 Scenario.commentB) (Scenario.later 30)
           Scenario.topLevel Scenario.reply Scenario.firstComment
           Scenario.replyB Scenario.bobId false);
    reflexivity.
Defined.

(** The claim of C4 fails on the code: in the database reached by creating
    A, replying to it with B and soft-deleting A, the listing of A's
    replies does not succeed. *)
Lemma listReplies_of_softDeleted_parent_fails :
  let s := runComments
             [CreateComment (Scenario.at_ 10 Scenario.commentA)
                Scenario.topLevel;
              CreateComment (Scenario.at_ 20 Scenario.commentB)
                Scenario.reply;
              DeleteComment (Scenario.later 30) Scenario.commentA
                Scenario.bobId false] Scenario.blog in
  snd (CommentService.getCommentReplies Scenario.commentA 1 10 s)
  = Err (AppError "评论不存在" 404)
  /\ ~ (exists data parent meta,
          snd (CommentService.getCommentReplies Scenario.commentA 1 10 s)
          = Ok (data, parent, meta)
          /\ In Scenario.replyB data).
Proof.
  vm_compute. split; [reflexivity|].
  intros [data [parent [meta [E _]]]]. discriminate.
Qed.

(** ** What the comment operations do to the stored comments *)

Lemma sameNode_refl (c : Comment.doc) : sameNode c c.
Proof. unfold sameNode. auto. Qed.

Lemma sameNode_trans (a b c : Comment.doc) :
  sameNode a b -> sameNode b c -> sameNode a c.
Proof. unfold sameNode. intuition congruence. Qed.

Lemma insertComment_Err (env : Env) (data : CommentService.CreateCommentDTO)
    (s s1 : Store) (e : Error) :
  CommentService.insertComment env data s = (s1, Err e) ->
  comments s1 = comments s.
Proof.
  intros H.
  unfold CommentService.insertComment, CommentModel.create,
    CommentModel.preSaveNew, CommentModel.incCommentCount in H.
  run_monad_in H.
  repeat (break_match_in H; simpl in H; try discriminate);
    inversion H; subst; reflexivity.
Qed.

Lemma createComment_effect (env : Env)
    (data : CommentService.CreateCommentDTO) (s : Store) :
  commentsEffect (comments s)
    (comments (fst (CommentService.createComment env data s))).
Proof.
  pose proof (createComment_cases env data s) as C.
  destruct (CommentService.insertComment env data s)
    as [s1 [[[post c] pop]|e]] eqn:I.
  - destruct C as [s2 [C [_ F]]]. rewrite C. simpl.
    apply insertComment_Ok in I.
    destruct I as [parent [_ [_ [_ [Ec [Fresh [Cs _]]]]]]].
    destruct F as [_ [_ [_ [_ Fc]]]].
    apply effect_insert with (c := c).
    + change (docId c) with (Comment._id c). subst c.
      destruct parent; exact Fresh.
    + subst c. destruct parent; reflexivity.
    + congruence.
  - rewrite C. simpl. apply effect_none. eapply insertComment_Err; eauto.
Qed.

Ltac saved_effect c0 :=
  eapply effect_save with (c0 := c0);
  [ eassumption | | | reflexivity ];
  [ unfold sameNode; simpl; auto
  | unfold likeCountConsistent; simpl; auto ].

Lemma updateComment_effect (commentId authorId : ObjectId) (content : string)
    (s : Store) :
  commentsEffect (comments s)
    (comments (fst (CommentService.updateComment commentId authorId
                      content s))).
Proof.
  unfold CommentService.updateComment, CommentModel.saveDoc. run_monad.
  destruct (CommentModel.findById (comments s) commentId) as [c0|] eqn:F;
    simpl; [|now apply effect_none].
  destruct (negb (String.eqb (Comment.author c0) authorId)); simpl;
    [now apply effect_none|].
  saved_effect c0.
Qed.

Lemma deleteComment_effect (env : Env) (commentId userId : ObjectId)
    (isAdmin : bool) (s : Store) :
  commentsEffect (comments s)
    (comments (fst (CommentService.deleteComment env commentId userId
                      isAdmin s))).
Proof.
  unfold CommentService.deleteComment, CommentModel.saveDoc,
    CommentModel.incCommentCount. run_monad.
  destruct (CommentModel.findById (comments s) commentId) as [c0|] eqn:F;
    simpl; [|now apply effect_none].
  break_match; simpl; [now apply effect_none|].
  saved_effect c0.
Qed.

Lemma likeComment_effect (env : Env) (commentId userId : ObjectId)
    (s : Store) :
  commentsEffect (comments s)
    (comments (fst (CommentService.likeComment env commentId userId s))).
Proof.
  unfold CommentService.likeComment, CommentModel.saveDoc. run_monad.
  destruct (CommentModel.findById (comments s) commentId) as [c0|] eqn:F;
    simpl; [|now apply effect_none].
  destruct (memId userId (Comment.likes c0)); simpl; [now apply effect_none|].
  destruct (negb (String.eqb (Comment.author c0) userId)); simpl;
    [|saved_effect c0].
  match goal with
  | |- context [NotificationService.createLikeCommentNotification ?e ?d ?s1] =>
      pose proof (createLikeCommentNotification_frame e d s1) as Fr;
      destruct (NotificationService.createLikeCommentNotification e d s1)
        as [s2 [[]|err]]
  end; simpl in *; destruct Fr as [_ [_ [_ [_ Fc]]]]; rewrite Fc;
    saved_effect c0.
Qed.

Lemma unlikeComment_effect (commentId userId : ObjectId) (s : Store) :
  commentsEffect (comments s)
    (comments (fst (CommentService.unlikeComment commentId userId s))).
Proof.
  unfold CommentService.unlikeComment, CommentModel.saveDoc. run_monad.
  destruct (CommentModel.findById (comments s) commentId) as [c0|] eqn:F;
    simpl; [|now apply effect_none].
  saved_effect c0.
Qed.

Lemma moderateComment_effect (commentId : ObjectId) (approved : bool)
    (s : Store) :
  commentsEffect (comments s)
    (comments (fst (CommentService.moderateComment commentId approved s))).
Proof.
  unfold CommentService.moderateComment, CommentModel.saveDoc,
    CommentModel.incCommentCount. run_monad.
  destruct (CommentModel.findById (comments s) commentId) as [c0|] eqn:F;
    simpl; [|now apply effect_none].
  destruct approved; simpl; saved_effect c0.
Qed.

Lemma highlightComment_effect (commentId : ObjectId) (highlighted : bool)
    (s : Store) :
  commentsEffect (comments s)
    (comments (fst (CommentService.highlightComment commentId highlighted s))).
Proof.
  unfold CommentService.highlightComment, CommentModel.saveDoc. run_monad.
  destruct (CommentModel.findById (comments s) commentId) as [c0|] eqn:F;
    simpl; [|now apply effect_none].
  saved_effect c0.
Qed.

Lemma commentStep_effect (op : CommentOp) (s : Store) :
  commentsEffect (comments s) (comments (commentStep op s)).
Proof.
  destruct op; simpl.
  - apply createComment_effect.
  - apply updateComment_effect.
  - apply deleteComment_effect.
  - apply likeComment_effect.
  - apply unlikeComment_effect.
  - apply moderateComment_effect.
  - apply highlightComment_effect.
Qed.

Lemma stable_refl (l : list Comment.doc) : stable l l.
Proof. intros i c F. exists c. split; [assumption | apply sameNode_refl]. Qed.

Lemma stable_trans (l1 l2 l3 : list Comment.doc) :
  stable l1 l2 -> stable l2 l3 -> stable l1 l3.
Proof.
  intros S12 S23 i c F.
  destruct (S12 i c F) as [c2 [F2 N2]].
  destruct (S23 i c2 F2) as [c3 [F3 N3]].
  exists c3. split; [assumption | eapply sameNode_trans; eauto].
Qed.

Lemma effect_uniqueIds (l l' : list Comment.doc) :
  uniqueIds l -> commentsEffect l l' -> uniqueIds l'.
Proof.
  intros U [-> | i c0 c' F N _ -> | c Fresh _ ->]; auto.
  - unfold uniqueIds, save. rewrite map_docId_updateById; auto.
  - now apply uniqueIds_app_one.
Qed.

Lemma effect_stable (l l' : list Comment.doc) :
  uniqueIds l -> commentsEffect l l' -> stable l l'.
Proof.
  intros U [-> | i c0 c' F N _ -> | c Fresh _ ->].
  - apply stable_refl.
  - pose proof (CommentModel_findById_Some _ _ _ F) as [Hid _].
    apply (CommentModel_findById_raw _ _ _ U) in F.
    assert (Hid' : docId c' = i) by (destruct N as [E _]; rewrite <- Hid; exact E).
    intros j c Fj. unfold save. rewrite Hid'.
    rewrite findById_updateById by (intros; assumption).
    destruct (String.eqb j i) eqn:E.
    + apply String.eqb_eq in E. subst j. rewrite F. simpl.
      exists c'. split; auto. congruence.
    + exists c. split; [assumption | apply sameNode_refl].
  - intros j c0 Fj. exists c0. rewrite findById_app, Fj.
    split; [reflexivity | apply sameNode_refl].
Qed.

Lemma effect_likeCount (l l' : list Comment.doc) :
  Forall likeCountConsistent l -> commentsEffect l l' ->
  Forall likeCountConsistent l'.
Proof.
  intros K [-> | i c0 c' F _ Kc -> | c _ Kc ->]; auto.
  - apply Forall_save; auto. apply Kc.
    apply CommentModel_findById_Some in F. destruct F as [_ [_ I]].
    rewrite Forall_forall in K. auto.
  - apply Forall_app. split; auto.
Qed.

(** Along any sequence of comment operations the ids stay unique, every
    stored comment keeps its place in the forest, and every likeCount
    stays the number of likes. *)
Lemma runComments_invariants (ops : list CommentOp) (s : Store) :
  uniqueIds (comments s) ->
  uniqueIds (comments (runComments ops s))
  /\ stable (comments s) (comments (runComments ops s))
  /\ (Forall likeCountConsistent (comments s) ->
      Forall likeCountConsistent (comments (runComments ops s))).
Proof.
  revert s. induction ops as [|op ops IH]; intros s U; simpl.
  - split; [assumption|]. split; [apply stable_refl | auto].
  - pose proof (commentStep_effect op s) as E.
    destruct (IH (commentStep op s) (effect_uniqueIds _ _ U E))
      as [U' [S' K']].
    split; [assumption|]. split.
    + eapply stable_trans; [eapply effect_stable; eauto | exact S'].
    + intros K. apply K'. eapply effect_likeCount; eauto.
Qed.

(** ** Level and path of a comment *)

(** A reply to a comment that is missing or soft-deleted is refused before
    anything is written. *)
Lemma createComment_without_parent_fails (env : Env)
    (data : CommentService.CreateCommentDTO) (s : Store) (pid : ObjectId)
    (post : Post.doc) (u : User.doc) :
  findById (posts s) (CommentService.postId data) = Some post ->
  findById (users s) (CommentService.authorId data) = Some u ->
  truthy (CommentService.parentCommentId data) = Some pid ->
  CommentModel.findById (comments s) pid = None ->
  CommentService.createComment env data s
  = (s, Err (AppError "父评论不存在" 404)).
Proof.
  intros Fp Fu T Fc.
  pose proof (createComment_cases env data s) as C.
  assert (I : CommentService.insertComment env data s
              = (s, Err (AppError "父评论不存在" 404))).
  { unfold CommentService.insertComment. run_monad.
    now rewrite Fp, Fu, T, Fc. }
  now rewrite I in C.
Qed.

Lemma pathOf_nonempty (a : ObjectId) (rest : list ObjectId) :
  a <> EmptyString -> pathOf (a :: rest) <> EmptyString.
Proof.
  intros Na. unfold pathOf. simpl.
  destruct rest; [exact Na|].
  destruct a; [contradiction | discriminate].
Qed.

Lemma append_assoc (a b c : string) :
  ((a ++ b) ++ c = a ++ (b ++ c))%string.
Proof. induction a as [|x a IH]; simpl; [reflexivity | now rewrite IH]. Qed.

Lemma pathOf_snoc (a : ObjectId) (rest : list ObjectId) (last : ObjectId) :
  pathOf ((a :: rest) ++ [last])
  = (pathOf (a :: rest) ++ "/" ++ last)%string.
Proof.
  unfold pathOf. revert a. induction rest as [|b rest IH]; intros a.
  - reflexivity.
  - change (String.concat "/" ((a :: b :: rest) ++ [last]))
      with (a ++ "/" ++ String.concat "/" ((b :: rest) ++ [last]))%string.
    rewrite IH.
    change (String.concat "/" (a :: b :: rest))
      with (a ++ "/" ++ String.concat "/" (b :: rest))%string.
    now rewrite !append_assoc.
Qed.

(** The path that the save hook writes is the one of the spec: the
    ancestors of the parent, then the parent. *)
Lemma childPath_pathOf (ancestors : list ObjectId) (parentId : ObjectId) :
  Forall (fun a => a <> EmptyString) ancestors ->
  CommentModel.childPath (pathOf ancestors) parentId
  = pathOf (ancestors ++ [parentId]).
Proof.
  intros Ne. unfold CommentModel.childPath.
  destruct ancestors as [|a rest]; [reflexivity|].
  inversion Ne as [|? ? Na _]; subst.
  pose proof (pathOf_nonempty a rest Na) as N.
  apply String.eqb_neq in N. rewrite N. now rewrite pathOf_snoc.
Qed.

(** C6.  Let createComment succeed with comment [c] on a database whose
    comment ids are unique.  If [c] has no parent its level is 1 and its
    path is empty; otherwise its parent [p] was found, level(c) =
    level(p) + 1 and path(c) is the path of [p] extended with the id of
    [p]: the id alone under a top-level parent, the parent's path, "/"
    and the id otherwise, so that when the parent's path lists the
    parent's ancestors, the path of [c] lists them and then the parent.
    After any further sequence of comment operations (updates, likes,
    moderation, highlighting, soft deletions, of the parent too, and
    other creations) [c] is still stored with the same parent, level and
    path, and its level and path still stand in that relation to the
    stored parent. *)
Theorem comment_level_and_path_fixed_at_creation (s s1 : Store) (env : Env)
    (data : CommentService.CreateCommentDTO) (c : Comment.doc)
    (ops : list CommentOp) :
  uniqueIds (comments s) ->
  CommentService.createComment env data s = (s1, Ok (Some c)) ->
  match truthy (CommentService.parentCommentId data) with
  | None =>
      Comment.parentComment c = None
      /\ Comment.level c = 1 /\ Comment.path c = EmptyString
  | Some pid =>
      exists p,
        CommentModel.findById (comments s) pid = Some p
        /\ Comment.parentComment c = Some pid
        /\ Comment.level c = Comment.level p + 1
        /\ Comment.path c
           = (if String.eqb (Comment.path p) EmptyString then pid
              else (Comment.path p ++ "/" ++ pid)%string)
        /\ (forall ancestors,
              Forall (fun a => a <> EmptyString) ancestors ->
              Comment.path p = pathOf ancestors ->
              Comment.path c = pathOf (ancestors ++ [pid]))
  end
  /\ exists c',
       findById (comments (runComments ops s1)) (Comment._id c) = Some c'
       /\ Comment.parentComment c' = Comment.parentComment c
       /\ Comment.level c' = Comment.level c
       /\ Comment.path c' = Comment.path c
       /\ match Comment.parentComment c' with
          | None => Comment.level c' = 1 /\ Comment.path c' = EmptyString
          | Some pid =>
              exists p',
                findById (comments (runComments ops s1)) pid = Some p'
                /\ Comment.level c' = Comment.level p' + 1
                /\ Comment.path c'
                   = (if String.eqb (Comment.path p') EmptyString then pid
                      else (Comment.path p' ++ "/" ++ pid)%string)
                /\ (forall ancestors,
                      Forall (fun a => a <> EmptyString) ancestors ->
                      Comment.path p' = pathOf ancestors ->
                      Comment.path c' = pathOf (ancestors ++ [pid]))
          end.
Proof.
  intros U H. apply createComment_Ok in H.
  destruct H as [parent [Par [Ec [Fresh Cs]]]].
  assert (Hid : Comment._id c = freshId env)
    by (subst c; apply newComment_fresh).
  assert (U1 : uniqueIds (comments s1)).
  { rewrite Cs. apply uniqueIds_app_one; auto.
    change (docId c) with (Comment._id c). now rewrite Hid. }
  destruct (runComments_invariants ops s1 U1) as [_ [St _]].
  assert (Fc : findById (comments s1) (Comment._id c) = Some c).
  { apply findById_unique; auto. rewrite Cs. apply in_or_app. right.
    simpl. auto. }
  destruct (St _ _ Fc) as [c' [Fc' [_ [_ [Np [Nl Npath]]]]]].
  destruct (truthy (CommentService.parentCommentId data)) as [pid|].
  - destruct Par as [p [-> Fp]].
    pose proof (CommentModel_findById_Some _ _ _ Fp) as [Pid _].
    assert (Fp1 : findById (comments s1) pid = Some p).
    { rewrite Cs, findById_app.
      now rewrite (CommentModel_findById_raw _ _ _ U Fp). }
    destruct (St _ _ Fp1) as [p' [Fp' [_ [_ [_ [Pl Ppath]]]]]].
    assert (Facts : Comment.parentComment c = Some pid
                    /\ Comment.level c = Comment.level p + 1
                    /\ Comment.path c
                       = CommentModel.childPath (Comment.path p) pid).
    { subst c. simpl. rewrite Pid. auto. }
    destruct Facts as [Cp [Cl Cpath]].
    assert (Spelled : Comment.path c
                      = (if String.eqb (Comment.path p) EmptyString then pid
                         else (Comment.path p ++ "/" ++ pid)%string))
      by exact Cpath.
    assert (Listed : forall ancestors,
               Forall (fun a => a <> EmptyString) ancestors ->
               Comment.path p = pathOf ancestors ->
               Comment.path c = pathOf (ancestors ++ [pid])).
    { intros ancestors Ne Ep. rewrite Cpath, Ep.
      now apply childPath_pathOf. }
    split; [exists p; repeat split; auto|].
    exists c'. repeat split; auto. rewrite Np, Cp.
    exists p'. rewrite Nl, Npath, Pl, Ppath. repeat split; auto.
  - subst parent.
    assert (Facts : Comment.parentComment c = None
                    /\ Comment.level c = 1 /\ Comment.path c = EmptyString)
      by (subst c; simpl; auto).
    destruct Facts as [Cp [Cl Cpath]].
    split; [auto|].
    exists c'. repeat split; auto. rewrite Np, Cp. split; congruence.
Qed.

(** A reply to a reply: bob's comment C under ann's reply B to bob's
    comment A has level 3 and path "A/B", also after B has been
    soft-deleted and C rejected. *)
Lemma comment_level_and_path_witness :
  ((exists p,
       CommentModel.findById (comments Scenario.threaded) Scenario.commentB
       = Some p
       /\ Comment.parentComment Scenario.replyC = Some Scenario.commentB
       /\ Comment.level Scenario.replyC = Comment.level p + 1
       /\ Comment.path Scenario.replyC
          = (if String.eqb (Comment.path p) EmptyString
             then Scenario.commentB
             else (Comment.path p ++ "/" ++ Scenario.commentB)%string)
       /\ (forall ancestors,
             Forall (fun a => a <> EmptyString) ancestors ->
             Comment.path p = pathOf ancestors ->
             Comment.path Scenario.replyC
             = pathOf (ancestors ++ [Scenario.commentB])))
   /\ exists c',
        findById
          (comments
             (runComments
                [DeleteComment (Scenario.later 30) Scenario.commentB
                   Scenario.annId false;
                 ModerateComment Scenario.commentC false]
                (fst (CommentService.createComment
                        (Scenario.at_ 25 Scenario.commentC) Scenario.nested
                        Scenario.threaded))))
          (Comment._id Scenario.replyC) = Some c'
        /\ Comment.parentComment c' = Comment.parentComment Scenario.replyC
        /\ Comment.level c' = Comment.level Scenario.replyC
        /\ Comment.path c' = Comment.path Scenario.replyC
        /\ match Comment.parentComment c' with
           | None => Comment.level c' = 1 /\ Comment.path c' = EmptyString
           | Some pid =>
               exists p',
                 findById
                   (comments
                      (runComments
                         [DeleteComment (Scenario.later 30) Scenario.commentB
                            Scenario.annId false;
                          ModerateComment Scenario.commentC false]
                         (fst (CommentService.createComment
                                 (Scenario.at_ 25 Scenario.commentC)
                                 Scenario.nested Scenario.threaded))))
                   pid = Some p'
                 /\ Comment.level c' = Comment.level p' + 1
                 /\ Comment.path c'
                    = (if String.eqb (Comment.path p') EmptyString then pid
                       else (Comment.path p' ++ "/" ++ pid)%string)
                 /\ (forall ancestors,
                       Forall (fun a => a <> EmptyString) ancestors ->
                       Comment.path p' = pathOf ancestors ->
                       Comment.path c' = pathOf (ancestors ++ [pid]))
           end)
  /\ Comment.level Scenario.replyC = 3
  /\ Comment.path Scenario.replyC
     = "65d000000000000000000001/65d000000000000000000002".
Proof.
  split; [|split; reflexivity].
  refine (comment_level_and_path_fixed_at_creation Scenario.threaded
            (fst (CommentService.createComment
                    (Scenario.at_ 25 Scenario.commentC) Scenario.nested
                    Scenario.threaded))
            (Scenario.at_ 25 Scenario.commentC)
            Scenario.nested Scenario.replyC
            [DeleteComment (Scenario.later 30) Scenario.commentB
               Scenario.annId false;
             ModerateComment Scenario.commentC false] _ _).
  - unfold uniqueIds. simpl. repeat constructor; simpl; intuition discriminate.
  - reflexivity.
Defined.

(** ** Publish dates along the life cycle of a post *)

Section PublishDates.
Import PostService.
Variable sched : bool.

Lemma preSave_dated (now0 : Date) (p : Post.doc) :
  dated sched p -> dated sched (Post.preSave now0 p).
Proof.
  unfold dated, Post.preSave. intros D G.
  destruct (Post.status p) eqn:St; destruct (Post.publishDate p) eqn:Pd;
    simpl in *; rewrite ?St, ?Pd in *; try discriminate; auto.
Qed.

Lemma applyUpdate_dated (env : Env) (data : UpdatePostDTO) (p : Post.doc) :
  dated sched p -> dated sched (applyUpdate env p data p).
Proof.
  unfold dated, applyUpdate. intros D.
  destruct (Post.status p) eqn:St;
    repeat (break_match; simpl); simpl in *;
    try rewrite St; try discriminate; intros G; auto;
    destruct G as [G | [_ G]]; try discriminate;
    match goal with
    | H : PostStatus_eqb ?a ?b = _ |- _ =>
        destruct a; simpl in H; try discriminate
    | _ => idtac
    end; auto.
Qed.

Lemma publishDue_dated (now0 : Date) (l : list Post.doc) :
  Forall (dated sched) l -> Forall (dated sched) (publishDue now0 l).
Proof.
  unfold publishDue. intros F. apply Forall_map.
  eapply Forall_impl; [|exact F]. intros p D.
  destruct (due now0 p) eqn:E; auto.
  unfold due in E. apply andb_true_iff in E. destruct E as [_ E].
  unfold dated. simpl. destruct (Post.publishDate p); discriminate.
Qed.

Lemma deleteOne_Forall (P : Post.doc -> Prop) (id : ObjectId)
    (l : list Post.doc) :
  Forall P l -> Forall P (deleteOne id l).
Proof.
  induction l as [|p r IH]; simpl; intros F; auto.
  inversion F; subst. destruct (String.eqb (Post._id p) id); auto.
Qed.

Lemma createPost_dated (env : Env) (data : CreatePostDTO) (s : Store) :
  (sched = true -> datedCreate (CreatePost env data) = true) ->
  Forall (dated sched) (posts s) ->
  Forall (dated sched) (posts (fst (createPost env data s))).
Proof.
  intros Hd F. unfold createPost. run_monad.
  repeat (break_match; simpl); auto;
    match goal with
    | H : insertOne _ _ = Ok _ |- _ =>
        apply insertOne_Ok in H; destruct H as [-> _]
    end;
    (apply Forall_app; split; [assumption|]);
    constructor; auto; apply preSave_dated;
    unfold dated, createPublishDate; simpl in *;
    destruct (dto_status data) as [[| |]|];
    destruct (dto_publishDate data); simpl;
    intros [G | [Sc G]]; try specialize (Hd Sc);
    first [discriminate | congruence].
Qed.

Lemma saveDoc_dated (env : Env) (p : Post.doc) (s : Store) :
  dated sched p -> Forall (dated sched) (posts s) ->
  Forall (dated sched) (posts (fst (saveDoc env p s))).
Proof.
  intros D F. unfold saveDoc. run_monad.
  apply Forall_save; auto. now apply preSave_dated.
Qed.

Lemma updatePost_dated (env : Env) (postId authorId0 : ObjectId)
    (data : UpdatePostDTO) (s : Store) :
  Forall (dated sched) (posts s) ->
  Forall (dated sched) (posts (fst (updatePost env postId authorId0 data s))).
Proof.
  intros F. unfold updatePost. run_monad.
  destruct (findById (posts s) postId) as [post|] eqn:Fp; simpl; auto.
  assert (Dp : dated sched post).
  { apply findById_Some in Fp. destruct Fp as [_ I].
    rewrite Forall_forall in F. auto. }
  assert (G : Forall (dated sched)
                (updateById postId (applyUpdate env post data) (posts s))).
  { rewrite (updateById_found _ _ _ _ Fp).
    apply Forall_updateById; auto. intros. now apply applyUpdate_dated. }
  repeat (break_match; simpl); auto.
Qed.

Lemma postStep_dated (op : PostOp) (s : Store) :
  (sched = true -> datedCreate op = true) ->
  Forall (dated sched) (posts s) ->
  Forall (dated sched) (posts (postStep op s)).
Proof.
  intros Hd F. destruct op; simpl.
  - now apply createPost_dated.
  - now apply updatePost_dated.
  - unfold publishPost. run_monad.
    repeat (break_match; simpl); auto.
    apply Forall_save; auto. apply preSave_dated.
    unfold dated. simpl. discriminate.
  - unfold unpublishPost. run_monad.
    repeat (break_match; simpl); auto.
    apply Forall_save; auto. apply preSave_dated.
    unfold dated. simpl. intros [G | [_ G]]; discriminate.
  - unfold schedulePost. run_monad.
    repeat (break_match; simpl); auto.
    apply Forall_save; auto. apply preSave_dated.
    unfold dated. simpl. discriminate.
  - unfold deletePost. run_monad.
    repeat (break_match; simpl); auto.
    now apply deleteOne_Forall.
  - unfold publishScheduledPosts. run_monad. now apply publishDue_dated.
Qed.

Lemma runPosts_dated (ops : list PostOp) (s : Store) :
  (sched = true -> forallb datedCreate ops = true) ->
  Forall (dated sched) (posts s) ->
  Forall (dated sched) (posts (runPosts ops s)).
Proof.
  revert s. induction ops as [|op ops IH]; intros s Hd F; simpl; auto.
  apply IH.
  - intros Sc. specialize (Hd Sc). simpl in Hd.
    apply andb_true_iff in Hd. tauto.
  - apply postStep_dated; auto.
    intros Sc. specialize (Hd Sc). simpl in Hd.
    apply andb_true_iff in Hd. tauto.
Qed.
End PublishDates.

(** C2, as the code has it.  Start without posts and run any sequence of
    create, update, publish, unpublish, schedule, delete and sweep.  Every
    published post then has a publish date, and so has every scheduled
    post provided each create that asked for a scheduled post named its
    publish date.  (A draft may have one as well: unpublish keeps it.) *)
Theorem published_or_scheduled_post_has_publishDate (s0 : Store)
    (ops : list PostOp) (p : Post.doc) :
  posts s0 = [] ->
  In p (posts (runPosts ops s0)) ->
  (Post.status p = PUBLISHED -> Post.publishDate p <> None)
  /\ (forallb datedCreate ops = true ->
      Post.status p = SCHEDULED -> Post.publishDate p <> None).
Proof.
  intros E I. split.
  - intros St.
    assert (F : Forall (dated false) (posts (runPosts ops s0))).
    { apply runPosts_dated; [discriminate|]. rewrite E. constructor. }
    rewrite Forall_forall in F. apply (F p I). now left.
  - intros Hd St.
    assert (F : Forall (dated true) (posts (runPosts ops s0))).
    { apply runPosts_dated; [auto|]. rewrite E. constructor. }
    rewrite Forall_forall in F. apply (F p I). right. auto.
Qed.

Lemma published_or_scheduled_witness :
  (Post.status Scenario.scheduledPost = PUBLISHED ->
   Post.publishDate Scenario.scheduledPost <> None)
  /\ (forallb datedCreate Scenario.lifecycle = true ->
      Post.status Scenario.scheduledPost = SCHEDULED ->
      Post.publishDate Scenario.scheduledPost <> None).
Proof.
  apply (published_or_scheduled_post_has_publishDate Scenario.noPosts
           Scenario.lifecycle Scenario.scheduledPost).
  - reflexivity.
  - vm_compute. left. reflexivity.
Defined.

(** A create that asks for a scheduled post without naming a date stores a
    scheduled post without publish date; updatePost puts the current time
    there in the same situation. *)
Lemma createPost_scheduled_without_date :
  let s := runPosts
             [CreatePost (Scenario.at_ 10 Scenario.postId)
                (Scenario.newPost (Some SCHEDULED) None)] Scenario.noPosts in
  option_map (fun p => (Post.status p, Post.publishDate p))
    (findById (posts s) Scenario.postId)
  = Some (SCHEDULED, None).
Proof. vm_compute. reflexivity. Qed.

(** The claim of C2 fails on the code: a post created as published and then
    unpublished is a draft that still has its publish date. *)
Lemma unpublished_post_keeps_publishDate :
  let s := runPosts
             [CreatePost (Scenario.at_ 10 Scenario.postId)
                (Scenario.newPost (Some PUBLISHED) None);
              UnpublishPost (Scenario.later 20) Scenario.postId
                Scenario.annId] Scenario.noPosts in
  exists p,
    In p (posts s)
    /\ Post.status p = DRAFT
    /\ Post.publishDate p = Some 10
    /\ ~ (Post.publishDate p <> None
          <-> Post.status p = PUBLISHED \/ Post.status p = SCHEDULED).
Proof.
  vm_compute. eexists. split; [left; reflexivity|]. simpl.
  split; [reflexivity|]. split; [reflexivity|].
  intros [H _]. destruct H as [H | H]; discriminate.
Qed.

(** ** The comment counter without moderation *)

Lemma countDocuments_cons {A} (q : A -> bool) (x : A) (l : list A) :
  countDocuments q (x :: l) = (if q x then 1 else 0) + countDocuments q l.
Proof.
  unfold countDocuments, lengthZ. cbn [filter].
  destruct (q x); cbn [length]; lia.
Qed.

Lemma countDocuments_app_one {A} (q : A -> bool) (l : list A) (c : A) :
  countDocuments q (l ++ [c]) = countDocuments q l + (if q c then 1 else 0).
Proof.
  induction l as [|x r IH]; simpl.
  - rewrite countDocuments_cons. unfold countDocuments, lengthZ.
    cbn [filter length]. lia.
  - rewrite !countDocuments_cons, IH. lia.
Qed.

Lemma countDocuments_updateById {A} `{Document A} (q : A -> bool)
    (i : ObjectId) (f : A -> A) (l : list A) (d : A) :
  findById l i = Some d ->
  countDocuments q (updateById i f l)
  = countDocuments q l - (if q d then 1 else 0) + (if q (f d) then 1 else 0).
Proof.
  unfold findById, findOne. induction l as [|x r IH]; simpl; intros E.
  - discriminate.
  - destruct (String.eqb (docId x) i).
    + inversion E; subst. rewrite !countDocuments_cons. lia.
    + rewrite !countDocuments_cons, IH by assumption. lia.
Qed.

Ltac quiet_save i c0 :=
  simpl; split; [auto|]; right;
  match goal with
  | |- context [save ?c (comments _)] => exists i, c0, c
  end;
  repeat split; try eassumption; reflexivity.

Lemma quiet_updateComment (commentId authorId : ObjectId) (content : string)
    (s : Store) :
  quietEffect s (fst (CommentService.updateComment commentId authorId
                        content s)).
Proof.
  unfold CommentService.updateComment, CommentModel.saveDoc, quietEffect.
  run_monad.
  destruct (CommentModel.findById (comments s) commentId) as [c0|] eqn:F;
    simpl; auto.
  destruct (negb (String.eqb (Comment.author c0) authorId)); simpl; auto.
  quiet_save commentId c0.
Qed.

Lemma quiet_likeComment (env : Env) (commentId userId : ObjectId)
    (s : Store) :
  quietEffect s (fst (CommentService.likeComment env commentId userId s)).
Proof.
  unfold CommentService.likeComment, CommentModel.saveDoc, quietEffect.
  run_monad.
  destruct (CommentModel.findById (comments s) commentId) as [c0|] eqn:F;
    simpl; auto.
  destruct (memId userId (Comment.likes c0)); simpl; auto.
  destruct (negb (String.eqb (Comment.author c0) userId)); simpl.
  - match goal with
    | |- context [NotificationService.createLikeCommentNotification
                    ?e ?d ?s1] =>
        pose proof (createLikeCommentNotification_frame e d s1) as Fr;
        destruct (NotificationService.createLikeCommentNotification e d s1)
          as [s2 [[]|err]]
    end; simpl in *; destruct Fr as [_ [_ [_ [Fp Fc]]]]; rewrite Fp, Fc;
      quiet_save commentId c0.
  - quiet_save commentId c0.
Qed.

Lemma quiet_unlikeComment (commentId userId : ObjectId) (s : Store) :
  quietEffect s (fst (CommentService.unlikeComment commentId userId s)).
Proof.
  unfold CommentService.unlikeComment, CommentModel.saveDoc, quietEffect.
  run_monad.
  destruct (CommentModel.findById (comments s) commentId) as [c0|] eqn:F;
    simpl; auto.
  quiet_save commentId c0.
Qed.

Lemma quiet_highlightComment (commentId : ObjectId) (highlighted : bool)
    (s : Store) :
  quietEffect s (fst (CommentService.highlightComment commentId
                        highlighted s)).
Proof.
  unfold CommentService.highlightComment, CommentModel.saveDoc, quietEffect.
  run_monad.
  destruct (CommentModel.findById (comments s) commentId) as [c0|] eqn:F;
    simpl; auto.
  quiet_save commentId c0.
Qed.

Lemma counts_same (pid : ObjectId) (c0 c' : Comment.doc) :
  sameNode c0 c' ->
  Comment.isApproved c' = Comment.isApproved c0 ->
  Comment.isDeleted c' = Comment.isDeleted c0 ->
  counts pid c' = counts pid c0.
Proof.
  unfold counts. intros [_ [P _]] A D. now rewrite P, A, D.
Qed.

Lemma quiet_counter (s s' : Store) :
  uniqueIds (comments s) ->
  Forall (fun c => Comment.isApproved c = true) (comments s) ->
  counterExact s -> quietEffect s s' ->
  counterExact s'
  /\ Forall (fun c => Comment.isApproved c = true) (comments s').
Proof.
  intros U A C [Ep [Ec | [i [c0 [c' [F [N [Ea [Ed Ec]]]]]]]]].
  - split; [|now rewrite Ec]. intros pid p Fp. rewrite Ec.
    apply C. now rewrite <- Ep.
  - pose proof (CommentModel_findById_Some _ _ _ F) as [Hid [_ I0]].
    apply (CommentModel_findById_raw _ _ _ U) in F.
    assert (Hid' : docId c' = i)
      by (destruct N as [E _]; rewrite <- Hid; exact E).
    split.
    + intros pid p Fp. rewrite Ec. unfold countedComments, save.
      rewrite Hid'. rewrite (countDocuments_updateById _ _ _ _ _ F).
      rewrite (counts_same pid c0 c' N Ea Ed).
      rewrite Ep in Fp. rewrite (C pid p Fp). unfold countedComments. lia.
    + rewrite Ec. apply Forall_save; auto. rewrite Ea.
      rewrite Forall_forall in A. auto.
Qed.

Lemma insertComment_Err_fresh (env : Env)
    (data : CommentService.CreateCommentDTO) (s s1 : Store) (e : Error) :
  ~ In (freshId env) (map docId (comments s)) ->
  CommentService.insertComment env data s = (s1, Err e) ->
  s1 = s.
Proof.
  intros Fresh H. apply findById_None in Fresh.
  unfold CommentService.insertComment, CommentModel.create,
    CommentModel.preSaveNew, CommentModel.incCommentCount in H.
  run_monad_in H.
  repeat (break_match_in H; simpl in H; try discriminate);
    try (inversion H; subst; reflexivity);
    match goal with
    | I : insertOne _ _ = Err _ |- _ =>
        unfold insertOne in I; simpl in I;
        change (docId ?x) with (Comment._id x) in I; simpl in I;
        rewrite Fresh in I; discriminate
    end.
Qed.

Lemma createComment_counter (env : Env)
    (data : CommentService.CreateCommentDTO) (s : Store) :
  Forall (fun c => Comment.isApproved c = true) (comments s) ->
  counterExact s ->
  ~ In (freshId env) (map docId (comments s)) ->
  counterExact (fst (CommentService.createComment env data s))
  /\ Forall (fun c => Comment.isApproved c = true)
       (comments (fst (CommentService.createComment env data s))).
Proof.
  intros A C Fresh.
  pose proof (createComment_cases env data s) as Cs.
  destruct (CommentService.insertComment env data s)
    as [s1 [[[post c] pop]|e]] eqn:I.
  - destruct Cs as [s2 [E [_ [_ [_ [_ [Fp Fc]]]]]]]. rewrite E. simpl.
    apply insertComment_Ok in I.
    destruct I as [parent [Fpost [_ [_ [Ec [_ [Ecs [Eps _]]]]]]]].
    destruct (newComment_fresh env data parent)
      as [_ [Vd [Va [Vp _]]]]. rewrite <- Ec in Vd, Va, Vp.
    split.
    + intros pid p F. rewrite Fp, Eps in F.
      rewrite findById_updateById in F by (intros d; auto).
      rewrite Fc, Ecs. unfold countedComments.
      rewrite countDocuments_app_one. unfold counts at 2.
      rewrite Vd, Va, Vp, String.eqb_sym.
      destruct (String.eqb pid (CommentService.postId data)) eqn:Ep.
      * apply String.eqb_eq in Ep. subst pid. rewrite Fpost in F.
        inversion F; subst p. simpl.
        rewrite (C _ _ Fpost). unfold countedComments. lia.
      * simpl. rewrite (C _ _ F). unfold countedComments. lia.
    + rewrite Fc, Ecs. apply Forall_app. split; auto.
  - rewrite Cs. simpl.
    rewrite (insertComment_Err_fresh _ _ _ _ _ Fresh I). auto.
Qed.

Lemma deleteComment_counter (env : Env) (commentId userId : ObjectId)
    (isAdmin : bool) (s : Store) :
  uniqueIds (comments s) ->
  Forall (fun c => Comment.isApproved c = true) (comments s) ->
  counterExact s ->
  counterExact (fst (CommentService.deleteComment env commentId userId
                       isAdmin s))
  /\ Forall (fun c => Comment.isApproved c = true)
       (comments (fst (CommentService.deleteComment env commentId userId
                         isAdmin s))).
Proof.
  intros U A C.
  unfold CommentService.deleteComment, CommentModel.saveDoc,
    CommentModel.incCommentCount. run_monad.
  destruct (CommentModel.findById (comments s) commentId) as [c0|] eqn:F;
    simpl; auto.
  destruct (negb (String.eqb (Comment.author c0) userId) && negb isAdmin);
    simpl; auto.
  pose proof (CommentModel_findById_Some _ _ _ F) as [Hid [Vd I0]].
  apply (CommentModel_findById_raw _ _ _ U) in F.
  assert (Va : Comment.isApproved c0 = true)
    by (rewrite Forall_forall in A; auto).
  split.
  - intros pid p Fp. simpl in Fp.
    rewrite findById_updateById in Fp by (intros d; auto).
    simpl. unfold countedComments, save.
    change (docId (Comment.set_deleted (now env) c0)) with (Comment._id c0).
    rewrite Hid, (countDocuments_updateById _ _ _ _ _ F).
    unfold counts at 2 3. simpl. rewrite Va, Vd, String.eqb_sym.
    rewrite andb_false_r.
    destruct (String.eqb pid (Comment.post c0)) eqn:Ep; simpl.
    + apply String.eqb_eq in Ep. subst pid.
      destruct (findById (posts s) (Comment.post c0)) as [p0|] eqn:F0;
        [|discriminate].
      inversion Fp; subst p. simpl. rewrite (C _ _ F0).
      unfold countedComments. lia.
    + rewrite (C _ _ Fp). unfold countedComments. lia.
  - apply Forall_save; auto.
Qed.

(** Along any sequence of comment operations without moderation, in
    which every created comment gets an id of its own, every post's
    commentCount stays the number of its approved comments that are not
    deleted. *)
Lemma commentCount_exact_without_moderation (ops : list CommentOp)
    (s : Store) :
  uniqueIds (comments s) ->
  Forall (fun c => Comment.isApproved c = true) (comments s) ->
  counterExact s ->
  freshRun ops s ->
  existsb isModeration ops = false ->
  counterExact (runComments ops s).
Proof.
  revert s. induction ops as [|op ops IH]; intros s U A C Fr Nm; simpl; auto.
  simpl in Fr, Nm. destruct Fr as [Fo Fr].
  apply orb_false_iff in Nm. destruct Nm as [No Nm].
  pose proof (effect_uniqueIds _ _ U (commentStep_effect op s)) as U'.
  assert (Step : counterExact (commentStep op s)
                 /\ Forall (fun c => Comment.isApproved c = true)
                      (comments (commentStep op s))).
  { destruct op; simpl in *; try discriminate.
    - now apply createComment_counter.
    - apply quiet_counter with (s := s); auto. apply quiet_updateComment.
    - now apply deleteComment_counter.
    - apply quiet_counter with (s := s); auto. apply quiet_likeComment.
    - apply quiet_counter with (s := s); auto. apply quiet_unlikeComment.
    - apply quiet_counter with (s := s); auto. apply quiet_highlightComment. }
  destruct Step as [C' A']. apply IH; auto.
Qed.

(** ** The comment counter under moderation *)

(** C1.  After bob's comment on ann's post is created and then approved
    once more by a moderator, the post's commentCount is 2 while it has
    one approved comment that is not deleted: moderateComment adds 1
    without looking at the approval state the comment already had. *)
Theorem moderate_approved_comment_overcounts :
  let s := runComments
             [CreateComment (Scenario.at_ 10 Scenario.commentA)
                Scenario.topLevel;
              ModerateComment Scenario.commentA true] Scenario.blog in
  option_map Post.commentCount (findById (posts s) Scenario.postId) = Some 2
  /\ countedComments Scenario.postId (comments s) = 1.
Proof. vm_compute. split; reflexivity. Qed.

(** ** Liking twice in a row *)

Lemma memId_last (u : ObjectId) (l : list ObjectId) :
  memId u (l ++ [u]) = true.
Proof.
  unfold memId. rewrite existsb_app. simpl.
  rewrite String.eqb_refl. now rewrite orb_true_r.
Qed.

Lemma preSave_keeps (now0 : Date) (p : Post.doc) :
  Post._id (Post.preSave now0 p) = Post._id p
  /\ Post.likes (Post.preSave now0 p) = Post.likes p.
Proof.
  unfold Post.preSave.
  destruct (Post.status p); destruct (Post.publishDate p); auto.
Qed.

Lemma findById_save {A} `{Document A} (l : list A) (d d0 : A) :
  findById l (docId d) = Some d0 -> findById (save d l) (docId d) = Some d.
Proof.
  intros F. unfold save.
  rewrite findById_updateById by (intros; reflexivity).
  now rewrite String.eqb_refl, F.
Qed.

Lemma CommentModel_findById_visible (l : list Comment.doc) (i : ObjectId)
    (c : Comment.doc) :
  findById l i = Some c -> Comment.isDeleted c = false ->
  CommentModel.findById l i = Some c.
Proof.
  unfold CommentModel.findById, findById, findOne.
  induction l as [|x r IH]; simpl; intros E V; [discriminate|].
  change (docId x) with (Comment._id x) in E.
  destruct (String.eqb (Comment._id x) i); simpl.
  - inversion E; subst. now rewrite V.
  - auto.
Qed.

(** A like of a post that succeeded makes the same like fail. *)
Lemma likePost_twice (env env' : Env) (s s1 : Store) (postId u : ObjectId) :
  PostService.likePost env postId u s = (s1, Ok tt) ->
  PostService.likePost env' postId u s1
  = (s1, Err (AppError "已经点赞过这篇文章" 400)).
Proof.
  intros H. unfold PostService.likePost, PostService.saveDoc in H.
  run_monad_in H.
  destruct (findById (posts s) postId) as [post|] eqn:F; [|discriminate].
  destruct (memId u (Post.likes post)) eqn:M; [discriminate|].
  inversion H; subst s1; clear H.
  pose proof (findById_Some _ _ _ F) as [Hid _].
  change (docId post) with (Post._id post) in Hid.
  match goal with
  | |- context [set_posts (save ?d) s] => set (p' := d)
  end.
  assert (Hid' : docId p' = postId).
  { unfold p'. change (docId ?x) with (Post._id x).
    now rewrite (proj1 (preSave_keeps _ _)). }
  eapply likePost_again with (p := p').
  - simpl. rewrite <- Hid'. eapply findById_save. rewrite Hid'. eauto.
  - unfold p'. rewrite (proj2 (preSave_keeps _ _)). simpl.
    apply memId_last.
Qed.

(** A like of a comment that succeeded makes the same like return the
    comment as the first like left it. *)
Lemma likeComment_twice (env env' : Env) (s s1 : Store)
    (commentId u : ObjectId) (c1 : Comment.doc) :
  uniqueIds (comments s) ->
  CommentService.likeComment env commentId u s = (s1, Ok c1) ->
  CommentService.likeComment env' commentId u s1 = (s1, Ok c1).
Proof.
  intros U H. unfold CommentService.likeComment, CommentModel.saveDoc in H.
  run_monad_in H.
  destruct (CommentModel.findById (comments s) commentId) as [c0|] eqn:F;
    [|discriminate].
  pose proof (CommentModel_findById_Some _ _ _ F) as [Hid [Vd _]].
  destruct (memId u (Comment.likes c0)) eqn:M.
  - inversion H; subst. now apply likeComment_again.
  - apply (CommentModel_findById_raw _ _ _ U) in F.
    assert (Stored : forall s2,
               comments s2
               = save (Comment.set_likeCount
                         (lengthZ (Comment.likes c0 ++ [u]))
                         (Comment.set_likes (Comment.likes c0 ++ [u]) c0))
                   (comments s) ->
               CommentService.likeComment env' commentId u s2
               = (s2, Ok (Comment.set_likeCount
                            (lengthZ (Comment.likes c0 ++ [u]))
                            (Comment.set_likes (Comment.likes c0 ++ [u])
                               c0)))).
    { intros s2 E. apply likeComment_again; [|apply memId_last].
      rewrite E. apply CommentModel_findById_visible; [|exact Vd].
      set (c' := Comment.set_likeCount (lengthZ (Comment.likes c0 ++ [u]))
                   (Comment.set_likes (Comment.likes c0 ++ [u]) c0)).
      assert (Hid' : docId c' = commentId) by exact Hid.
      rewrite <- Hid'. eapply findById_save. rewrite Hid'. exact F. }
    destruct (negb (String.eqb (Comment.author c0) u)); simpl in H.
    + match type of H with
      | context [NotificationService.createLikeCommentNotification
                   ?e ?d ?s'] =>
          pose proof (createLikeCommentNotification_frame e d s') as Fr;
          destruct (NotificationService.createLikeCommentNotification e d s')
            as [s2 [[]|err]]
      end; simpl in *; inversion H; subst; apply Stored;
        destruct Fr as [_ [_ [_ [_ Fc]]]]; exact Fc.
    + inversion H; subst. apply Stored. reflexivity.
Qed.

(** * Further properties of the services *)

(** ** PostService: who may change a post *)

(** X1.  Whoever is not the author of a stored post cannot update,
    publish, unpublish, schedule or delete it: each call throws its 403
    error and writes nothing. *)
Theorem post_mutations_are_author_only (env : Env) (s : Store)
    (postId caller : ObjectId) (post : Post.doc)
    (data : PostService.UpdatePostDTO) (date : Date) :
  findById (posts s) postId = Some post ->
  Post.author post <> caller ->
  PostService.updatePost env postId caller data s
  = (s, Err (AppError "只有作者才能更新文章" 403))
  /\ PostService.publishPost env postId caller s
     = (s, Err (AppError "只有作者才能发布文章" 403))
  /\ PostService.unpublishPost env postId caller s
     = (s, Err (AppError "只有作者才能更改文章状态" 403))
  /\ PostService.schedulePost env postId caller date s
     = (s, Err (AppError "只有作者才能设置定时发布" 403))
  /\ PostService.deletePost postId caller s
     = (s, Err (AppError "只有作者才能删除文章" 403)).
Proof.
  intros F N. apply String.eqb_neq in N.
  unfold PostService.updatePost, PostService.publishPost,
    PostService.unpublishPost, PostService.schedulePost,
    PostService.deletePost.
  run_monad. rewrite F, N. simpl. repeat split; reflexivity.
Qed.

Lemma post_mutations_author_only_witness :
  PostService.updatePost (Scenario.later 40) Scenario.postId Scenario.bobId
    {| PostService.upd_title := Some "taken over";
       PostService.upd_content := None;
       PostService.upd_categoryId := None;
       PostService.upd_tagIds := None;
       PostService.upd_status := Some DRAFT;
       PostService.upd_publishDate := None |} Scenario.blog
  = (Scenario.blog, Err (AppError "只有作者才能更新文章" 403))
  /\ PostService.publishPost (Scenario.later 40) Scenario.postId
       Scenario.bobId Scenario.blog
     = (Scenario.blog, Err (AppError "只有作者才能发布文章" 403))
  /\ PostService.unpublishPost (Scenario.later 40) Scenario.postId
       Scenario.bobId Scenario.blog
     = (Scenario.blog, Err (AppError "只有作者才能更改文章状态" 403))
  /\ PostService.schedulePost (Scenario.later 40) Scenario.postId
       Scenario.bobId 90 Scenario.blog
     = (Scenario.blog, Err (AppError "只有作者才能设置定时发布" 403))
  /\ PostService.deletePost Scenario.postId Scenario.bobId Scenario.blog
     = (Scenario.blog, Err (AppError "只有作者才能删除文章" 403)).
Proof.
  apply (post_mutations_are_author_only (Scenario.later 40) Scenario.blog
           Scenario.postId Scenario.bobId Scenario.post).
  - reflexivity.
  - discriminate.
Defined.

(** ** PostService: scheduling, publishing and the sweep *)

Lemma findById_save_same {A} `{Document A} (l : list A) (i : ObjectId)
    (d0 d : A) :
  findById l i = Some d0 -> docId d = i -> findById (save d l) i = Some d.
Proof.
  intros F E. subst i. eapply findById_save; eauto.
Qed.

Lemma findById_save_other {A} `{Document A} (l : list A) (i : ObjectId)
    (d : A) :
  docId d <> i -> findById (save d l) i = findById l i.
Proof.
  intros N. unfold save.
  rewrite findById_updateById by (intros; reflexivity).
  destruct (String.eqb i (docId d)) eqn:E; auto.
  apply String.eqb_eq in E. congruence.
Qed.

(** X2.  The author of a stored post can schedule it exactly for a date
    after now: a date at or before now is refused with the 400 error and
    nothing is written; a later date makes the post scheduled with that
    publish date, all its other fields and all other collections being
    kept. *)
Theorem schedulePost_needs_a_future_date (env : Env) (s : Store)
    (postId : ObjectId) (post : Post.doc) (date : Date) :
  findById (posts s) postId = Some post ->
  (date <= now env ->
   PostService.schedulePost env postId (Post.author post) date s
   = (s, Err (AppError "定时发布日期必须在未来" 400)))
  /\ (now env < date ->
      exists s',
        PostService.schedulePost env postId (Post.author post) date s
        = (s', Ok (Post.set_publishDate (Some date)
                     (Post.set_status SCHEDULED post)))
        /\ findById (posts s') postId
           = Some (Post.set_publishDate (Some date)
                     (Post.set_status SCHEDULED post))
        /\ (users s', tagDocs s', categories s', comments s',
            notifications s')
           = (users s, tagDocs s, categories s, comments s,
              notifications s)).
Proof.
  intros F. pose proof (findById_Some _ _ _ F) as [Hid _].
  unfold PostService.schedulePost, PostService.saveDoc. run_monad.
  rewrite F, String.eqb_refl. simpl. split; intros L.
  - apply Z.leb_le in L. now rewrite L.
  - apply Z.leb_gt in L. rewrite L. eexists. split; [reflexivity|].
    split; [|reflexivity]. simpl.
    eapply findById_save_same; eauto.
Qed.

Lemma schedulePost_witness :
  (50 <= now (Scenario.later 40) ->
   PostService.schedulePost (Scenario.later 40) Scenario.postId
     (Post.author Scenario.post) 50 Scenario.blog
   = (Scenario.blog, Err (AppError "定时发布日期必须在未来" 400)))
  /\ (now (Scenario.later 40) < 50 ->
      exists s',
        PostService.schedulePost (Scenario.later 40) Scenario.postId
          (Post.author Scenario.post) 50 Scenario.blog
        = (s', Ok (Post.set_publishDate (Some 50)
                     (Post.set_status SCHEDULED Scenario.post)))
        /\ findById (posts s') Scenario.postId
           = Some (Post.set_publishDate (Some 50)
                     (Post.set_status SCHEDULED Scenario.post))
        /\ (users s', tagDocs s', categories s', comments s',
            notifications s')
           = (users Scenario.blog, tagDocs Scenario.blog,
              categories Scenario.blog, comments Scenario.blog,
              notifications Scenario.blog)).
Proof.
  apply (schedulePost_needs_a_future_date (Scenario.later 40) Scenario.blog
           Scenario.postId Scenario.post 50).
  reflexivity.
Defined.

Lemma publishPost_published (env : Env) (s : Store) (postId : ObjectId)
    (post : Post.doc) :
  findById (posts s) postId = Some post ->
  Post.status post = PUBLISHED ->
  PostService.publishPost env postId (Post.author post) s
  = (s, Err (AppError "文章已经处于发布状态" 400)).
Proof.
  intros F St. unfold PostService.publishPost. run_monad.
  now rewrite F, String.eqb_refl, St.
Qed.

(** X3.  For the author of a stored post, publishPost throws the 400
    error "already published" on a published post and writes nothing;
    on a draft or scheduled post it stores the post as published with
    the current time as publish date, whatever date it carried. *)
Theorem publishPost_once (env : Env) (s : Store) (postId : ObjectId)
    (post : Post.doc) :
  findById (posts s) postId = Some post ->
  (Post.status post = PUBLISHED ->
   PostService.publishPost env postId (Post.author post) s
   = (s, Err (AppError "文章已经处于发布状态" 400)))
  /\ (Post.status post <> PUBLISHED ->
      exists s',
        PostService.publishPost env postId (Post.author post) s
        = (s', Ok (Post.set_publishDate (Some (now env))
                     (Post.set_status PUBLISHED post)))
        /\ findById (posts s') postId
           = Some (Post.set_publishDate (Some (now env))
                     (Post.set_status PUBLISHED post))
        /\ PostService.publishPost env postId (Post.author post) s'
           = (s', Err (AppError "文章已经处于发布状态" 400))).
Proof.
  intros F. pose proof (findById_Some _ _ _ F) as [Hid _].
  split; intros St; [now apply publishPost_published|].
  assert (E : PostStatus_eqb (Post.status post) PUBLISHED = false).
  { destruct (Post.status post); simpl; congruence. }
  set (p' := Post.set_publishDate (Some (now env))
               (Post.set_status PUBLISHED post)).
  exists (set_posts (save p') s).
  assert (G : findById (posts (set_posts (save p') s)) postId = Some p')
    by (simpl; eapply findById_save_same; eauto).
  split; [|split; [exact G|]].
  - unfold PostService.publishPost, PostService.saveDoc. run_monad.
    now rewrite F, String.eqb_refl, E.
  - apply (publishPost_published env _ postId p' G). reflexivity.
Qed.

Lemma publishPost_once_witness :
  (Post.status Scenario.scheduledPost = PUBLISHED ->
   PostService.publishPost (Scenario.later 30) Scenario.postId
     (Post.author Scenario.scheduledPost)
     (runPosts Scenario.lifecycle Scenario.noPosts)
   = (runPosts Scenario.lifecycle Scenario.noPosts,
      Err (AppError "文章已经处于发布状态" 400)))
  /\ (Post.status Scenario.scheduledPost <> PUBLISHED ->
      exists s',
        PostService.publishPost (Scenario.later 30) Scenario.postId
          (Post.author Scenario.scheduledPost)
          (runPosts Scenario.lifecycle Scenario.noPosts)
        = (s', Ok (Post.set_publishDate (Some (now (Scenario.later 30)))
                     (Post.set_status PUBLISHED Scenario.scheduledPost)))
        /\ findById (posts s') Scenario.postId
           = Some (Post.set_publishDate (Some (now (Scenario.later 30)))
                     (Post.set_status PUBLISHED Scenario.scheduledPost))
        /\ PostService.publishPost (Scenario.later 30) Scenario.postId
             (Post.author Scenario.scheduledPost) s'
           = (s', Err (AppError "文章已经处于发布状态" 400))).
Proof.
  apply (publishPost_once (Scenario.later 30)
           (runPosts Scenario.lifecycle Scenario.noPosts) Scenario.postId
           Scenario.scheduledPost).
  reflexivity.
Defined.

Lemma findById_publishDue (now0 : Date) (l : list Post.doc) (i : ObjectId) :
  findById (PostService.publishDue now0 l) i
  = option_map
      (fun p => if PostService.due now0 p
                then Post.set_status PUBLISHED p else p)
      (findById l i).
Proof.
  unfold findById, findOne, PostService.publishDue.
  induction l as [|p r IH]; simpl; auto.
  change (docId ?x) with (Post._id x).
  destruct (PostService.due now0 p) eqn:D; simpl;
    destruct (String.eqb (Post._id p) i); auto; simpl; now rewrite D.
Qed.

(** X4.  A post that schedulePost has scheduled for a date stays
    scheduled under a sweep that runs before that date and is published
    by a sweep that runs at or after it; in both cases its publish date
    is still the scheduled one. *)
Theorem scheduled_post_is_published_by_the_first_due_sweep
    (env sweepEnv : Env) (s s1 : Store) (postId caller : ObjectId)
    (date : Date) (p : Post.doc) :
  PostService.schedulePost env postId caller date s = (s1, Ok p) ->
  exists p2,
    findById (posts (fst (PostService.publishScheduledPosts sweepEnv s1)))
      postId = Some p2
    /\ Post.publishDate p2 = Some date
    /\ now env < date
    /\ (now sweepEnv < date -> p2 = p /\ Post.status p2 = SCHEDULED)
    /\ (date <= now sweepEnv -> Post.status p2 = PUBLISHED).
Proof.
  unfold PostService.schedulePost, PostService.saveDoc. intros H.
  run_monad_in H.
  destruct (findById (posts s) postId) as [post|] eqn:F; [|discriminate].
  pose proof (findById_Some _ _ _ F) as [Hid _].
  destruct (negb (String.eqb (Post.author post) caller)); [discriminate|].
  destruct (date <=? now env) eqn:L; [discriminate|].
  apply Z.leb_gt in L. simpl in H. inversion H; subst s1 p; clear H.
  unfold PostService.publishScheduledPosts. run_monad.
  rewrite findById_publishDue.
  erewrite findById_save_same by eauto.
  unfold Post.preSave, PostService.due. simpl.
  destruct (date <=? now sweepEnv) eqn:D.
  - apply Z.leb_le in D. eexists. split; [reflexivity|]. simpl.
    repeat split; auto; lia.
  - apply Z.leb_gt in D. eexists. split; [reflexivity|]. simpl.
    repeat split; auto; lia.
Qed.

Lemma scheduled_then_swept_witness :
  exists p2,
    findById
      (posts (fst (PostService.publishScheduledPosts (Scenario.later 60)
                     (fst (PostService.schedulePost (Scenario.later 20)
                             Scenario.postId Scenario.annId 50
                             Scenario.blog)))))
      Scenario.postId = Some p2
    /\ Post.publishDate p2 = Some 50
    /\ now (Scenario.later 20) < 50
    /\ (now (Scenario.later 60) < 50 ->
        p2 = Post.set_publishDate (Some 50)
               (Post.set_status SCHEDULED Scenario.post)
        /\ Post.status p2 = SCHEDULED)
    /\ (50 <= now (Scenario.later 60) -> Post.status p2 = PUBLISHED).
Proof.
  apply (scheduled_post_is_published_by_the_first_due_sweep
           (Scenario.later 20) (Scenario.later 60) Scenario.blog
           (fst (PostService.schedulePost (Scenario.later 20)
                   Scenario.postId Scenario.annId 50 Scenario.blog))
           Scenario.postId Scenario.annId 50
           (Post.set_publishDate (Some 50)
              (Post.set_status SCHEDULED Scenario.post))).
  reflexivity.
Defined.

(** ** PostService: likes *)

Lemma memId_In (u : ObjectId) (l : list ObjectId) :
  memId u l = true <-> In u l.
Proof.
  unfold memId. rewrite existsb_exists. split.
  - intros [x [I E]]. apply String.eqb_eq in E. now subst.
  - intros I. exists u. split; auto. apply String.eqb_refl.
Qed.

Lemma removeId_last (u : ObjectId) (l : list ObjectId) :
  memId u l = false -> removeId u (l ++ [u]) = l.
Proof.
  intros M. unfold removeId. rewrite filter_app. simpl.
  rewrite String.eqb_refl. simpl. rewrite app_nil_r.
  now apply removeId_absent.
Qed.

Lemma preSave_likeCount (now0 : Date) (p : Post.doc) :
  Post.likeCount (Post.preSave now0 p) = Post.likeCount p.
Proof.
  unfold Post.preSave.
  destruct (Post.status p); destruct (Post.publishDate p); auto.
Qed.

Lemma likePost_Ok (env : Env) (s : Store) (postId u : ObjectId)
    (post : Post.doc) :
  findById (posts s) postId = Some post ->
  memId u (Post.likes post) = false ->
  PostService.likePost env postId u s
  = (set_posts
       (save (Post.preSave (now env)
                (Post.set_likeCount (lengthZ (Post.likes post ++ [u]))
                   (Post.set_likes (Post.likes post ++ [u]) post)))) s,
     Ok tt).
Proof.
  intros F M. unfold PostService.likePost, PostService.saveDoc. run_monad.
  now rewrite F, M.
Qed.

Lemma unlikePost_Ok (env : Env) (s : Store) (postId u : ObjectId)
    (post : Post.doc) :
  findById (posts s) postId = Some post ->
  memId u (Post.likes post) = true ->
  PostService.unlikePost env postId u s
  = (set_posts
       (save (Post.preSave (now env)
                (Post.set_likeCount
                   (lengthZ (removeId u (Post.likes post)))
                   (Post.set_likes (removeId u (Post.likes post)) post))))
       s,
     Ok tt).
Proof.
  intros F M. unfold PostService.unlikePost, PostService.saveDoc. run_monad.
  now rewrite F, M.
Qed.

(** X5.  When user [u] does not yet like a stored post, likePost followed
    by unlikePost both succeed and leave the post with the likes it had
    and with likeCount equal to their number; in between, [u] is the last
    of the likes and likeCount is one more. *)
Theorem likePost_then_unlikePost_restores_likes (env env' : Env) (s : Store)
    (postId u : ObjectId) (post : Post.doc) :
  findById (posts s) postId = Some post ->
  memId u (Post.likes post) = false ->
  exists s1 s2 p1 p2,
    PostService.likePost env postId u s = (s1, Ok tt)
    /\ findById (posts s1) postId = Some p1
    /\ Post.likes p1 = Post.likes post ++ [u]
    /\ Post.likeCount p1 = lengthZ (Post.likes post) + 1
    /\ PostService.unlikePost env' postId u s1 = (s2, Ok tt)
    /\ findById (posts s2) postId = Some p2
    /\ Post.likes p2 = Post.likes post
    /\ Post.likeCount p2 = lengthZ (Post.likes post).
Proof.
  intros F M. pose proof (findById_Some _ _ _ F) as [Hid _].
  set (p1 := Post.preSave (now env)
               (Post.set_likeCount (lengthZ (Post.likes post ++ [u]))
                  (Post.set_likes (Post.likes post ++ [u]) post))).
  assert (L1 : Post.likes p1 = Post.likes post ++ [u])
    by (unfold p1; now rewrite (proj2 (preSave_keeps _ _))).
  assert (I1 : docId p1 = postId)
    by (unfold p1; change (docId ?x) with (Post._id x);
        now rewrite (proj1 (preSave_keeps _ _))).
  set (s1 := set_posts (save p1) s).
  assert (F1 : findById (posts s1) postId = Some p1)
    by (simpl; eapply findById_save_same; eauto).
  set (p2 := Post.preSave (now env')
               (Post.set_likeCount (lengthZ (removeId u (Post.likes p1)))
                  (Post.set_likes (removeId u (Post.likes p1)) p1))).
  assert (L2 : Post.likes p2 = Post.likes post).
  { unfold p2. rewrite (proj2 (preSave_keeps _ _)). simpl.
    rewrite L1. now apply removeId_last. }
  assert (I2 : docId p2 = postId)
    by (unfold p2; change (docId ?x) with (Post._id x);
        now rewrite (proj1 (preSave_keeps _ _))).
  exists s1, (set_posts (save p2) s1), p1, p2.
  split; [|split; [exact F1|split; [exact L1|split; [|split; [|split;
    [|split; [exact L2|]]]]]]].
  - now apply likePost_Ok.
  - unfold p1. rewrite preSave_likeCount. simpl.
    unfold lengthZ. rewrite length_app. simpl. lia.
  - apply (unlikePost_Ok env' s1 postId u p1 F1).
    rewrite L1. apply memId_last.
  - simpl. eapply findById_save_same; eauto.
  - unfold p2. rewrite preSave_likeCount. simpl.
    rewrite L1, removeId_last by assumption. reflexivity.
Qed.

Lemma likePost_unlikePost_witness :
  exists s1 s2 p1 p2,
    PostService.likePost (Scenario.later 40) Scenario.postId Scenario.bobId
      Scenario.liked = (s1, Ok tt)
    /\ findById (posts s1) Scenario.postId = Some p1
    /\ Post.likes p1 = Post.likes Scenario.likedPost ++ [Scenario.bobId]
    /\ Post.likeCount p1 = lengthZ (Post.likes Scenario.likedPost) + 1
    /\ PostService.unlikePost (Scenario.later 50) Scenario.postId
         Scenario.bobId s1 = (s2, Ok tt)
    /\ findById (posts s2) Scenario.postId = Some p2
    /\ Post.likes p2 = Post.likes Scenario.likedPost
    /\ Post.likeCount p2 = lengthZ (Post.likes Scenario.likedPost).
Proof.
  apply (likePost_then_unlikePost_restores_likes (Scenario.later 40)
           (Scenario.later 50) Scenario.liked Scenario.postId
           Scenario.bobId Scenario.likedPost);
    reflexivity.
Defined.

Lemma postLikesExact_preSave (now0 : Date) (p : Post.doc) :
  postLikesExact p -> postLikesExact (Post.preSave now0 p).
Proof.
  unfold postLikesExact.
  now rewrite (proj2 (preSave_keeps _ _)), preSave_likeCount.
Qed.

(** X6.  likePost and unlikePost keep the likes of the stored posts
    exact: if no post lists a user twice and every likeCount is the
    number of likes, the same holds after either call, whoever makes it
    and whether it succeeds or throws. *)
Theorem likePost_unlikePost_keep_likes_exact (env : Env) (s : Store)
    (postId u : ObjectId) :
  Forall postLikesExact (posts s) ->
  Forall postLikesExact (posts (fst (PostService.likePost env postId u s)))
  /\ Forall postLikesExact
       (posts (fst (PostService.unlikePost env postId u s))).
Proof.
  intros W. unfold PostService.likePost, PostService.unlikePost,
    PostService.saveDoc. run_monad.
  destruct (findById (posts s) postId) as [post|] eqn:F; simpl; auto.
  assert (Wp : postLikesExact post).
  { apply findById_Some in F. destruct F as [_ I].
    rewrite Forall_forall in W. auto. }
  destruct Wp as [Nd _].
  destruct (memId u (Post.likes post)) eqn:M; simpl; split; auto.
  - apply Forall_save; auto. apply postLikesExact_preSave.
    split; simpl; auto. unfold removeId. now apply NoDup_filter.
  - apply Forall_save; auto. apply postLikesExact_preSave.
    split; simpl; auto. apply NoDup_app; auto.
    + constructor; [intros []|constructor].
    + intros a Ia [<- | []]. apply memId_In in Ia. congruence.
Qed.

Lemma likes_exact_witness :
  Forall postLikesExact
    (posts (fst (PostService.likePost (Scenario.later 40) Scenario.postId
                   Scenario.bobId Scenario.liked)))
  /\ Forall postLikesExact
       (posts (fst (PostService.unlikePost (Scenario.later 40)
                      Scenario.postId Scenario.bobId Scenario.liked))).
Proof.
  apply (likePost_unlikePost_keep_likes_exact (Scenario.later 40)
           Scenario.liked Scenario.postId Scenario.bobId).
  repeat constructor; simpl; intuition discriminate.
Defined.

(** ** Sorting and paging *)

Section SortFacts.
Context {A : Type} (before : A -> A -> bool).
Hypothesis before_total :
  forall a b, before a b = true \/ before b a = true.
Hypothesis before_trans :
  forall a b c, before a b = true -> before b c = true -> before a c = true.

Lemma insertSorted_sorted (x : A) (l : list A) :
  StronglySorted (fun a b => before a b = true) l ->
  StronglySorted (fun a b => before a b = true) (insertSorted before x l).
Proof.
  induction l as [|y r IH]; simpl; intros S.
  - repeat constructor.
  - inversion S as [|? ? Sr Fy]; subst.
    destruct (before x y) eqn:E.
    + constructor; [assumption|]. constructor; [assumption|].
      eapply Forall_impl; [|exact Fy]. intros z H. eauto.
    + constructor; [auto|].
      apply Forall_forall. intros z Iz.
      apply In_insertSorted in Iz. destruct Iz as [-> | Iz].
      * destruct (before_total x y) as [T | T]; congruence.
      * rewrite Forall_forall in Fy. auto.
Qed.

Lemma sortBy_sorted (l : list A) :
  StronglySorted (fun a b => before a b = true) (sortBy before l).
Proof.
  induction l as [|x r IH]; simpl.
  - constructor.
  - now apply insertSorted_sorted.
Qed.
End SortFacts.

Lemma StronglySorted_skipn {A} (R : A -> A -> Prop) (n : nat) (l : list A) :
  StronglySorted R l -> StronglySorted R (skipn n l).
Proof.
  revert l. induction n as [|n IH]; intros l S; simpl; auto.
  destruct l; auto. inversion S; subst. auto.
Qed.

Lemma StronglySorted_firstn {A} (R : A -> A -> Prop) (n : nat) (l : list A) :
  StronglySorted R l -> StronglySorted R (firstn n l).
Proof.
  revert l. induction n as [|n IH]; intros l S; simpl; [constructor|].
  destruct l; [constructor|]. inversion S as [|? ? Sr F]; subst.
  constructor; auto.
  apply Forall_forall. intros z Iz. rewrite Forall_forall in F. apply F.
  rewrite <- (firstn_skipn n l). apply in_or_app. now left.
Qed.

Lemma StronglySorted_impl {A} (R R' : A -> A -> Prop) (l : list A) :
  (forall a b, R a b -> R' a b) ->
  StronglySorted R l -> StronglySorted R' l.
Proof.
  intros I S. induction S as [|a l S IH F]; constructor; auto.
  eapply Forall_impl; [|exact F]. auto.
Qed.

Lemma paginate_sorted {A} (R : A -> A -> Prop) (skip limit0 : Z)
    (l data : list A) :
  paginate skip limit0 l = Ok data ->
  StronglySorted R l -> StronglySorted R data.
Proof.
  unfold paginate. destruct (skip <? 0); [discriminate|].
  intros Q S. inversion Q; subst; clear Q.
  destruct (limit0 =? 0).
  - now apply StronglySorted_skipn.
  - apply StronglySorted_firstn. now apply StronglySorted_skipn.
Qed.

Lemma paginate_length {A} (skip limit0 : Z) (l data : list A) :
  paginate skip limit0 l = Ok data ->
  0 < limit0 -> lengthZ data <= limit0.
Proof.
  unfold paginate. destruct (skip <? 0); [discriminate|].
  intros Q L. inversion Q; subst; clear Q.
  destruct (limit0 =? 0) eqn:E; [apply Z.eqb_eq in E; lia|].
  unfold lengthZ.
  pose proof (firstn_le_length (Z.to_nat (Z.abs limit0))
                (skipn (Z.to_nat skip) l)).
  lia.
Qed.

(** ** PostService: related posts *)

Lemma latestFirst_total (a b : Post.doc) :
  PostService.latestFirst a b = true \/ PostService.latestFirst b a = true.
Proof.
  unfold PostService.latestFirst.
  destruct (Post.publishDate a), (Post.publishDate b); auto.
  rewrite !Z.leb_le. lia.
Qed.

Lemma latestFirst_trans (a b c : Post.doc) :
  PostService.latestFirst a b = true -> PostService.latestFirst b c = true ->
  PostService.latestFirst a c = true.
Proof.
  unfold PostService.latestFirst.
  destruct (Post.publishDate a), (Post.publishDate b),
    (Post.publishDate c); auto; try discriminate.
  rewrite !Z.leb_le. lia.
Qed.

(** X7.  The posts that getRelatedPosts selects for a stored post are
    stored posts, none of them the post itself, all published, each in
    the post's category or carrying one of its tags, ordered from the
    latest publish date to the earliest, and no more than a positive
    limit; the database is not changed. *)
Theorem getRelatedPosts_returns_published_relatives (s s' : Store)
    (postId : ObjectId) (limit0 : Z) (related : list Post.doc) :
  PostService.getRelatedPosts postId limit0 s = (s', Ok related) ->
  s' = s
  /\ (exists post,
        findById (posts s) postId = Some post
        /\ forall p, In p related ->
             In p (posts s)
             /\ Post._id p <> postId
             /\ Post.status p = PUBLISHED
             /\ (Post.category p = Post.category post
                 \/ exists t, In t (Post.tags p) /\ In t (Post.tags post)))
  /\ StronglySorted (fun a b => PostService.latestFirst a b = true) related
  /\ (0 < limit0 -> lengthZ related <= limit0).
Proof.
  unfold PostService.getRelatedPosts. intros H.
  cbv beta iota delta [bind ret throw get reading] in H.
  destruct (findById (posts s) postId) as [post|] eqn:F;
    [|cbv in H; discriminate].
  destruct (paginate 0 limit0 _) as [data|e] eqn:P; [|discriminate].
  inversion H; subst s' related; clear H.
  split; [reflexivity|]. split; [|split].
  - exists post. split; [reflexivity|]. intros p I.
    eapply In_paginate in I; eauto. apply In_sortBy in I.
    apply filter_In in I. destruct I as [I Q].
    unfold PostService.relatedTo in Q.
    apply andb_true_iff in Q. destruct Q as [Q Rel].
    apply andb_true_iff in Q. destruct Q as [Ne St].
    apply negb_true_iff in Ne. apply String.eqb_neq in Ne.
    apply PostStatus_eqb_eq in St. repeat split; auto.
    apply orb_true_iff in Rel. destruct Rel as [C | T].
    + left. now apply String.eqb_eq in C.
    + right. unfold PostService.sharesTag in T.
      apply existsb_exists in T. destruct T as [t [It Mt]].
      exists t. split; auto. now apply memId_In.
  - eapply paginate_sorted; eauto.
    apply sortBy_sorted; [apply latestFirst_total | apply latestFirst_trans].
  - intros L. eapply paginate_length; eauto.
Qed.

Lemma getRelatedPosts_witness :
  Scenario.shelf = Scenario.shelf
  /\ (exists post,
        findById (posts Scenario.shelf) Scenario.postId = Some post
        /\ forall p,
             In p [Scenario.otherPost "65c000000000000000000004" PUBLISHED
                     (Some 9);
                   Scenario.otherPost "65c000000000000000000002" PUBLISHED
                     (Some 3)] ->
             In p (posts Scenario.shelf)
             /\ Post._id p <> Scenario.postId
             /\ Post.status p = PUBLISHED
             /\ (Post.category p = Post.category post
                 \/ exists t, In t (Post.tags p) /\ In t (Post.tags post)))
  /\ StronglySorted (fun a b => PostService.latestFirst a b = true)
       [Scenario.otherPost "65c000000000000000000004" PUBLISHED (Some 9);
        Scenario.otherPost "65c000000000000000000002" PUBLISHED (Some 3)]
  /\ (0 < 5 ->
      lengthZ
        [Scenario.otherPost "65c000000000000000000004" PUBLISHED (Some 9);
         Scenario.otherPost "65c000000000000000000002" PUBLISHED (Some 3)]
      <= 5).
Proof.
  apply (getRelatedPosts_returns_published_relatives Scenario.shelf
           Scenario.shelf Scenario.postId 5).
  reflexivity.
Defined.

(** ** PostService: the tag check *)

Lemma map_docId_filter {A} `{Document A} (ids : list ObjectId) (l : list A) :
  map docId (filter (fun t => memId (docId t) ids) l)
  = filter (fun i => memId i ids) (map docId l).
Proof.
  induction l as [|t r IH]; simpl; auto.
  destruct (memId (docId t) ids); simpl; now rewrite IH.
Qed.

(** Counting the stored tags among [ids] gives the length of [ids] only
    when [ids] has no repetition and names stored tags only. *)
Lemma countTagsIn_exact (ids : list ObjectId) (l : list Tag.doc) :
  uniqueIds l ->
  (PostService.countTagsIn ids l =? lengthZ ids) = true
  <-> NoDup ids /\ incl ids (map docId l).
Proof.
  intros U. unfold PostService.countTagsIn, countDocuments, lengthZ.
  rewrite Z.eqb_eq, Nat2Z.inj_iff.
  set (stored := filter (fun i => memId i ids) (map docId l)).
  assert (L : length (filter (fun t => memId (Tag._id t) ids) l)
              = length stored).
  { unfold stored. rewrite <- (map_docId_filter ids l).
    now rewrite length_map. }
  rewrite L.
  assert (Ns : NoDup stored) by (apply NoDup_filter; exact U).
  assert (Is : incl stored ids).
  { intros i I. apply filter_In in I. now apply memId_In. }
  split.
  - intros E.
    assert (Ii : incl ids stored)
      by (apply NoDup_length_incl; auto; lia).
    split.
    + apply (NoDup_incl_NoDup Ns); auto. lia.
    + intros i I. apply Ii in I. now apply filter_In in I.
  - intros [Ni Ii].
    assert (I2 : incl ids stored).
    { intros i I. apply filter_In. split; [now apply Ii|].
      now apply memId_In. }
    pose proof (NoDup_incl_length Ns Is).
    pose proof (NoDup_incl_length Ni I2). lia.
Qed.

(** X8.  With an existing author and category and a non-empty list of
    tag ids, createPost answers 404 "some tags do not exist", writing
    nothing, exactly when the list names a tag that is not stored or
    names a tag twice: the check compares the number of matching tags
    with the length of the list. *)
Theorem createPost_rejects_unknown_or_repeated_tags (env : Env) (s : Store)
    (data : PostService.CreatePostDTO) (a : User.doc) (c : Category.doc)
    (ids : list ObjectId) :
  uniqueIds (tagDocs s) ->
  findById (users s) (PostService.authorId data) = Some a ->
  findById (categories s) (PostService.categoryId data) = Some c ->
  PostService.tagIds data = Some ids ->
  ids <> [] ->
  PostService.createPost env data s = (s, Err (AppError "部分标签不存在" 404))
  <-> ~ (NoDup ids /\ incl ids (map docId (tagDocs s))).
Proof.
  intros U Fa Fc Ti Ne.
  pose proof (countTagsIn_exact ids (tagDocs s) U) as X.
  unfold PostService.createPost. run_monad. rewrite Fa, Fc, Ti.
  destruct ids as [|i ids]; [congruence|].
  destruct (PostService.countTagsIn (i :: ids) (tagDocs s)
            =? lengthZ (i :: ids)) eqn:E; simpl.
  - split; [|intros N; exfalso; apply N; now apply X].
    intros Q. exfalso.
    destruct (PostService.slugGiven data); simpl in Q; [|discriminate].
    destruct (insertOne _ (posts s)) as [l|e] eqn:I; simpl in Q;
      [discriminate|].
    unfold insertOne in I.
    destruct (findById (posts s) _); inversion I; subst. discriminate.
  - split; [|reflexivity].
    intros _ P. apply X in P. congruence.
Qed.

Lemma createPost_repeated_tag_witness :
  PostService.createPost (Scenario.at_ 5 "65c000000000000000000009")
    (Scenario.newTaggedPost [Scenario.coqTag; Scenario.coqTag])
    Scenario.tagged
  = (Scenario.tagged, Err (AppError "部分标签不存在" 404))
  <-> ~ (NoDup [Scenario.coqTag; Scenario.coqTag]
         /\ incl [Scenario.coqTag; Scenario.coqTag]
              (map docId (tagDocs Scenario.tagged))).
Proof.
  apply (createPost_rejects_unknown_or_repeated_tags
           (Scenario.at_ 5 "65c000000000000000000009") Scenario.tagged
           (Scenario.newTaggedPost [Scenario.coqTag; Scenario.coqTag])
           Scenario.ann Scenario.news).
  - repeat constructor; simpl; intuition discriminate.
  - reflexivity.
  - reflexivity.
  - reflexivity.
  - discriminate.
Defined.

(** ** PostService: deletion *)

Lemma findById_deleteOne_other (l : list Post.doc) (id other : ObjectId) :
  other <> id ->
  findById (PostService.deleteOne id l) other = findById l other.
Proof.
  intros N. unfold findById, findOne.
  induction l as [|p r IH]; simpl; auto.
  destruct (String.eqb (Post._id p) id) eqn:E.
  - apply String.eqb_eq in E.
    change (docId p) with (Post._id p).
    destruct (String.eqb (Post._id p) other) eqn:E'; auto.
    apply String.eqb_eq in E'. congruence.
  - simpl. now rewrite IH.
Qed.

Lemma findById_deleteOne_same (l : list Post.doc) (id : ObjectId) :
  uniqueIds l -> findById (PostService.deleteOne id l) id = None.
Proof.
  unfold uniqueIds. induction l as [|p r IH]; simpl; intros U; auto.
  inversion U as [|? ? Hp Ur]; subst.
  destruct (String.eqb (Post._id p) id) eqn:E.
  - apply String.eqb_eq in E. apply findById_None.
    change (docId p) with (Post._id p) in Hp. now rewrite <- E.
  - unfold findById, findOne. simpl.
    change (docId p) with (Post._id p). rewrite E. now apply IH.
Qed.

Lemma length_deleteOne (l : list Post.doc) (p : Post.doc) :
  In p l ->
  lengthZ (PostService.deleteOne (Post._id p) l) = lengthZ l - 1.
Proof.
  unfold lengthZ. induction l as [|x r IH]; [simpl; tauto|].
  intros I. cbn [PostService.deleteOne].
  destruct (String.eqb (Post._id x) (Post._id p)) eqn:E.
  - cbn [length]. lia.
  - destruct I as [-> | I]; [now rewrite String.eqb_refl in E|].
    cbn [length]. specialize (IH I). lia.
Qed.

(** X9.  When its author deletes a stored post, the post is gone, every
    other post is found as before, and nothing else is touched: the
    comments written under the post stay in the comments collection,
    since the query form of deleteOne does not run the model's document
    hook. *)
Theorem deletePost_removes_the_post_only (s : Store)
    (postId caller : ObjectId) (post : Post.doc) :
  uniqueIds (posts s) ->
  findById (posts s) postId = Some post ->
  Post.author post = caller ->
  exists s',
    PostService.deletePost postId caller s = (s', Ok tt)
    /\ findById (posts s') postId = None
    /\ (forall other, other <> postId ->
          findById (posts s') other = findById (posts s) other)
    /\ lengthZ (posts s') = lengthZ (posts s) - 1
    /\ comments s' = comments s
    /\ users s' = users s
    /\ categories s' = categories s
    /\ tagDocs s' = tagDocs s
    /\ notifications s' = notifications s.
Proof.
  intros U F A. unfold PostService.deletePost. run_monad.
  rewrite F, A, String.eqb_refl. simpl.
  eexists. split; [reflexivity|]. simpl.
  split; [now apply findById_deleteOne_same|].
  split; [intros; now apply findById_deleteOne_other|].
  split; [|repeat split].
  apply findById_Some in F. destruct F as [Hid I]. simpl in Hid.
  subst postId. now apply length_deleteOne.
Qed.

Lemma deletePost_witness :
  exists s',
    PostService.deletePost Scenario.postId Scenario.annId Scenario.commented
    = (s', Ok tt)
    /\ findById (posts s') Scenario.postId = None
    /\ (forall other, other <> Scenario.postId ->
          findById (posts s') other
          = findById (posts Scenario.commented) other)
    /\ lengthZ (posts s') = lengthZ (posts Scenario.commented) - 1
    /\ comments s' = comments Scenario.commented
    /\ users s' = users Scenario.commented
    /\ categories s' = categories Scenario.commented
    /\ tagDocs s' = tagDocs Scenario.commented
    /\ notifications s' = notifications Scenario.commented.
Proof.
  eapply (deletePost_removes_the_post_only Scenario.commented
            Scenario.postId Scenario.annId).
  - repeat constructor; simpl; intuition discriminate.
  - reflexivity.
  - reflexivity.
Defined.

(** ** CommentService: soft deletion *)

Lemma deleted_comment_is_hidden (l : list Comment.doc) (commentId : ObjectId)
    (c : Comment.doc) (t : Date) :
  uniqueIds l ->
  CommentModel.findById l commentId = Some c ->
  CommentModel.findById (save (Comment.set_deleted t c) l) commentId = None.
Proof.
  intros U F.
  destruct (CommentModel.findById (save (Comment.set_deleted t c) l)
              commentId) as [d|] eqn:G; [exfalso | reflexivity].
  pose proof (CommentModel_findById_Some _ _ _ F) as [Hid _].
  pose proof (CommentModel_findById_Some _ _ _ G) as [_ [Hd _]].
  apply CommentModel_findById_raw in F; [|assumption].
  apply CommentModel_findById_raw in G.
  - rewrite (findById_save_same l commentId c (Comment.set_deleted t c))
      in G by assumption.
    inversion G; subst d. discriminate.
  - unfold uniqueIds, save. rewrite map_docId_updateById; [assumption|].
    reflexivity.
Qed.

Ltac comment_not_found H :=
  run_monad; rewrite H; reflexivity.

(** X10.  Soft deletion is final.  Once deleteComment has succeeded on a
    comment, that comment is out of reach of the whole service: editing,
    deleting again, liking, unliking, moderating, highlighting and
    listing its replies all answer 404 "comment not found" and write
    nothing, and a reply to it is refused with a 404 as well. *)
Theorem deleteComment_is_final (env env' : Env) (s s' : Store)
    (commentId userId : ObjectId) (isAdmin : bool) :
  uniqueIds (comments s) ->
  CommentService.deleteComment env commentId userId isAdmin s = (s', Ok tt) ->
  CommentModel.findById (comments s') commentId = None
  /\ (forall u text, CommentService.updateComment commentId u text s'
    = (s', Err (AppError "评论不存在" 404)))
  /\ (forall u adm,
        CommentService.deleteComment env' commentId u adm s'
          = (s', Err (AppError "评论不存在" 404)))
  /\ (forall u, CommentService.likeComment env' commentId u s'
    = (s', Err (AppError "评论不存在" 404)))
  /\ (forall u, CommentService.unlikeComment commentId u s'
    = (s', Err (AppError "评论不存在" 404)))
  /\ (forall b, CommentService.moderateComment commentId b s'
    = (s', Err (AppError "评论不存在" 404)))
  /\ (forall b, CommentService.highlightComment commentId b s'
    = (s', Err (AppError "评论不存在" 404)))
  /\ (forall page0 limit0,
        CommentService.getCommentReplies commentId page0 limit0 s'
          = (s', Err (AppError "评论不存在" 404)))
  /\ (forall data,
        truthy (CommentService.parentCommentId data) = Some commentId ->
        exists msg,
          CommentService.createComment env' data s'
          = (s', Err (AppError msg 404))).
Proof.
  intros U D.
  apply deleteComment_Ok in D. destruct D as [c [F C']].
  assert (G : CommentModel.findById (comments s') commentId = None)
    by (rewrite C'; now apply deleted_comment_is_hidden).
  split; [exact G|].
  split; [intros; unfold CommentService.updateComment;
          comment_not_found G|].
  split; [intros; unfold CommentService.deleteComment;
          comment_not_found G|].
  split; [intros; unfold CommentService.likeComment;
          comment_not_found G|].
  split; [intros; unfold CommentService.unlikeComment;
          comment_not_found G|].
  split; [intros; unfold CommentService.moderateComment;
          comment_not_found G|].
  split; [intros; unfold CommentService.highlightComment;
          comment_not_found G|].
  split; [intros; unfold CommentService.getCommentReplies;
          comment_not_found G|].
  intros data T.
  unfold CommentService.createComment, CommentService.insertComment.
  run_monad.
  destruct (findById (posts s') (CommentService.postId data));
    [|eexists; reflexivity].
  simpl.
  destruct (findById (users s') (CommentService.authorId data));
    [|eexists; reflexivity].
  simpl. rewrite T. simpl. rewrite G. eexists; reflexivity.
Qed.

Lemma deleteComment_is_final_witness :
  CommentModel.findById (comments Scenario.afterDelete) Scenario.commentA
  = None
  /\ (forall u text,
        CommentService.updateComment Scenario.commentA u text
          Scenario.afterDelete
            = (Scenario.afterDelete, Err (AppError "评论不存在" 404)))
  /\ (forall u adm,
        CommentService.deleteComment (Scenario.later 40) Scenario.commentA
          u adm Scenario.afterDelete
            = (Scenario.afterDelete, Err (AppError "评论不存在" 404)))
  /\ (forall u,
        CommentService.likeComment (Scenario.later 40) Scenario.commentA u
          Scenario.afterDelete
            = (Scenario.afterDelete, Err (AppError "评论不存在" 404)))
  /\ (forall u,
        CommentService.unlikeComment Scenario.commentA u
          Scenario.afterDelete
            = (Scenario.afterDelete, Err (AppError "评论不存在" 404)))
  /\ (forall b,
        CommentService.moderateComment Scenario.commentA b
          Scenario.afterDelete
            = (Scenario.afterDelete, Err (AppError "评论不存在" 404)))
  /\ (forall b,
        CommentService.highlightComment Scenario.commentA b
          Scenario.afterDelete
            = (Scenario.afterDelete, Err (AppError "评论不存在" 404)))
  /\ (forall page0 limit0,
        CommentService.getCommentReplies Scenario.commentA page0 limit0
          Scenario.afterDelete
            = (Scenario.afterDelete, Err (AppError "评论不存在" 404)))
  /\ (forall data,
        truthy (CommentService.parentCommentId data)
        = Some Scenario.commentA ->
        exists msg,
          CommentService.createComment (Scenario.later 40) data
            Scenario.afterDelete
          = (Scenario.afterDelete, Err (AppError msg 404))).
Proof.
  eapply (deleteComment_is_final (Scenario.later 30) (Scenario.later 40)
            Scenario.threaded Scenario.afterDelete Scenario.commentA
            Scenario.bobId false).
  - repeat constructor; simpl; intuition discriminate.
  - reflexivity.
Defined.

(** ** CommentService: permissions *)

Lemma CommentModel_findById_save (l : list Comment.doc)
    (commentId : ObjectId) (c c' : Comment.doc) :
  uniqueIds l ->
  CommentModel.findById l commentId = Some c ->
  Comment._id c' = Comment._id c ->
  Comment.isDeleted c' = false ->
  CommentModel.findById (save c' l) commentId = Some c'.
Proof.
  intros U F Hid Hd.
  pose proof (CommentModel_findById_Some _ _ _ F) as [Hc _].
  apply CommentModel_findById_raw in F; [|assumption].
  apply CommentModel_findById_visible; [|assumption].
  apply (findById_save_same l commentId c c' F).
  change (Comment._id c' = commentId). congruence.
Qed.



(** ** CommentService: listings *)

Lemma highlightedThenNewest_total (a b : Comment.doc) :
  CommentService.highlightedThenNewest a b = true
  \/ CommentService.highlightedThenNewest b a = true.
Proof.
  unfold CommentService.highlightedThenNewest.
  destruct (Comment.isHighlighted a), (Comment.isHighlighted b); simpl;
    auto; rewrite !Z.leb_le; lia.
Qed.

Lemma highlightedThenNewest_trans (a b c : Comment.doc) :
  CommentService.highlightedThenNewest a b = true ->
  CommentService.highlightedThenNewest b c = true ->
  CommentService.highlightedThenNewest a c = true.
Proof.
  unfold CommentService.highlightedThenNewest.
  destruct (Comment.isHighlighted a), (Comment.isHighlighted b),
    (Comment.isHighlighted c); simpl; auto; try discriminate;
    rewrite !Z.leb_le; lia.
Qed.

Lemma oldestFirst_total (a b : Comment.doc) :
  CommentService.oldestFirst a b = true
  \/ CommentService.oldestFirst b a = true.
Proof. unfold CommentService.oldestFirst. rewrite !Z.leb_le. lia. Qed.

Lemma oldestFirst_trans (a b c : Comment.doc) :
  CommentService.oldestFirst a b = true ->
  CommentService.oldestFirst b c = true ->
  CommentService.oldestFirst a c = true.
Proof. unfold CommentService.oldestFirst. rewrite !Z.leb_le. lia. Qed.

Lemma StronglySorted_filter {A} (R : A -> A -> Prop) (q : A -> bool)
    (l : list A) :
  StronglySorted R l -> StronglySorted R (filter q l).
Proof.
  intros S. induction S as [|a l S IH F]; simpl; [constructor|].
  destruct (q a); [|exact IH]. constructor; [exact IH|].
  apply Forall_forall. intros x I. apply filter_In in I.
  rewrite Forall_forall in F. now apply F.
Qed.

Lemma populateReplies_sorted (limit0 : nat) (all page : list Comment.doc)
    (entry : Comment.doc * list Comment.doc) :
  In entry (CommentService.populateReplies limit0 all page) ->
  StronglySorted
    (fun a b => Comment.createdAt a <= Comment.createdAt b) (snd entry).
Proof.
  unfold CommentService.populateReplies. intros I.
  apply in_map_iff in I. destruct I as [c [<- _]]. simpl.
  apply StronglySorted_firstn, StronglySorted_filter, StronglySorted_firstn.
  eapply StronglySorted_impl;
    [|apply (sortBy_sorted CommentService.oldestFirst);
      [apply oldestFirst_total | apply oldestFirst_trans]].
  intros a b. unfold CommentService.oldestFirst. now rewrite Z.leb_le.
Qed.

(** X12.  The entries of a page of getPostComments are stored, approved,
    undeleted top-level comments of the post asked for, highlighted
    comments before the others and newer before older within each group,
    at most [limit] of them for a positive limit.  Each entry comes with
    at most three stored, undeleted replies to it, oldest first, approved
    or not.  The call writes nothing and reports the page and limit it
    was given. *)
Theorem getPostComments_page (s s' : Store) (postId : ObjectId)
    (page0 limit0 : Z) (data : list (Comment.doc * list Comment.doc))
    (meta : Meta) :
  CommentService.getPostComments postId page0 limit0 s
  = (s', Ok (data, meta)) ->
  s' = s
  /\ (forall c, In c (map fst data) ->
        In c (comments s)
        /\ Comment.post c = postId
        /\ Comment.level c = 1
        /\ Comment.isApproved c = true
        /\ Comment.isDeleted c = false)
  /\ StronglySorted
       (fun a b =>
          (Comment.isHighlighted a = Comment.isHighlighted b
           /\ Comment.createdAt b <= Comment.createdAt a)
          \/ (Comment.isHighlighted a = true
              /\ Comment.isHighlighted b = false))
       (map fst data)
  /\ (0 < limit0 -> lengthZ data <= limit0)
  /\ page meta = page0 /\ limit meta = limit0
  /\ (forall entry, In entry data ->
        lengthZ (snd entry) <= 3
        /\ StronglySorted
             (fun a b => Comment.createdAt a <= Comment.createdAt b)
             (snd entry)
        /\ forall r, In r (snd entry) ->
             In r (comments s)
             /\ Comment.isDeleted r = false
             /\ Comment.parentComment r = Some (Comment._id (fst entry))).
Proof.
  intros H. apply getPostComments_Ok in H. destruct H as [-> [Ed H]].
  pose proof (pageOf_Ok _ _ _ _ _ _ _ _ H) as [_ [-> P]].
  split; [reflexivity|]. split; [|split; [|split; [|split; [|split]]]].
  - intros c I. eapply pageOf_In in I; eauto.
    destruct I as [I [Q D]].
    apply andb_true_iff in Q. destruct Q as [Q Ap].
    apply andb_true_iff in Q. destruct Q as [Qp Ql].
    apply String.eqb_eq in Qp. apply Z.eqb_eq in Ql. auto.
  - assert (Sd : StronglySorted
                   (fun a b => CommentService.highlightedThenNewest a b = true)
                   (map fst data)).
    { eapply paginate_sorted; [exact P|].
      apply sortBy_sorted;
        [apply highlightedThenNewest_total
        | apply highlightedThenNewest_trans]. }
    eapply StronglySorted_impl; [|exact Sd]. intros a b.
    unfold CommentService.highlightedThenNewest.
    destruct (Comment.isHighlighted a), (Comment.isHighlighted b);
      simpl; try rewrite Z.leb_le; intros X; auto; discriminate.
  - intros L. pose proof (paginate_length _ _ _ _ P L) as B.
    unfold lengthZ in *. now rewrite length_map in B.
  - reflexivity.
  - reflexivity.
  - intros [c preview] I. rewrite Ed in I.
    pose proof (populateReplies_sorted _ _ _ _ I) as Srt.
    apply populateReplies_In in I. destruct I as [_ [Len Pr]].
    split; [unfold lengthZ; simpl; lia|]. split; [exact Srt | exact Pr].
Qed.

Lemma getPostComments_witness :
  Scenario.threaded = Scenario.threaded
  /\ (forall c, In c (map fst [(Scenario.firstComment, [Scenario.replyB])]) ->
        In c (comments Scenario.threaded)
        /\ Comment.post c = Scenario.postId
        /\ Comment.level c = 1
        /\ Comment.isApproved c = true
        /\ Comment.isDeleted c = false)
  /\ StronglySorted
       (fun a b =>
          (Comment.isHighlighted a = Comment.isHighlighted b
           /\ Comment.createdAt b <= Comment.createdAt a)
          \/ (Comment.isHighlighted a = true
              /\ Comment.isHighlighted b = false))
       (map fst [(Scenario.firstComment, [Scenario.replyB])])
  /\ (0 < 10 ->
      lengthZ [(Scenario.firstComment, [Scenario.replyB])] <= 10)
  /\ page (CommentService.mkMeta 1 1 10) = 1
  /\ limit (CommentService.mkMeta 1 1 10) = 10
  /\ (forall entry,
        In entry [(Scenario.firstComment, [Scenario.replyB])] ->
        lengthZ (snd entry) <= 3
        /\ StronglySorted
             (fun a b => Comment.createdAt a <= Comment.createdAt b)
             (snd entry)
        /\ forall r, In r (snd entry) ->
             In r (comments Scenario.threaded)
             /\ Comment.isDeleted r = false
             /\ Comment.parentComment r = Some (Comment._id (fst entry))).
Proof.
  apply (getPostComments_page Scenario.threaded Scenario.threaded
           Scenario.postId 1 10 [(Scenario.firstComment, [Scenario.replyB])]
           (CommentService.mkMeta 1 1 10)).
  reflexivity.
Defined.

Lemma find_le_count (q : Comment.doc -> bool) (l : list Comment.doc) :
  lengthZ (CommentModel.find q l) <= countDocuments q l.
Proof.
  unfold CommentModel.find, countDocuments, lengthZ.
  induction l as [|x r IH]; cbn [filter length]; [lia|].
  destruct (q x), (Comment.isDeleted x); cbn [andb negb length]; lia.
Qed.

Lemma find_lt_count (q : Comment.doc -> bool) (l : list Comment.doc)
    (x : Comment.doc) :
  In x l -> q x = true -> Comment.isDeleted x = true ->
  lengthZ (CommentModel.find q l) < countDocuments q l.
Proof.
  intros I Q D. induction l as [|y r IH]; [destruct I|].
  pose proof (find_le_count q r) as Le.
  unfold CommentModel.find, countDocuments, lengthZ in *.
  cbn [filter length]. destruct I as [-> | I].
  - rewrite Q, D. cbn [andb negb length]. lia.
  - specialize (IH I).
    destruct (q y), (Comment.isDeleted y); cbn [andb negb length]; lia.
Qed.

(** X13.  The total that getPostComments reports also counts
    soft-deleted comments.  After a listed comment has been deleted, it
    appears on no page any more, neither as an entry nor among the
    replies shown with an entry, but the reported total is the one from
    before the deletion and exceeds the number of comments that can be
    listed. *)
Theorem getPostComments_total_counts_deleted_comments (env : Env)
    (s s1 : Store) (commentId u : ObjectId) (adm : bool) (c : Comment.doc)
    (page0 limit0 : Z) (data data1 : list (Comment.doc * list Comment.doc))
    (meta meta1 : Meta) :
  uniqueIds (comments s) ->
  CommentModel.findById (comments s) commentId = Some c ->
  Comment.level c = 1 ->
  Comment.isApproved c = true ->
  CommentService.deleteComment env commentId u adm s = (s1, Ok tt) ->
  CommentService.getPostComments (Comment.post c) page0 limit0 s
  = (s, Ok (data, meta)) ->
  CommentService.getPostComments (Comment.post c) page0 limit0 s1
  = (s1, Ok (data1, meta1)) ->
  total meta1 = total meta
  /\ (forall x, In x (map fst data1) -> Comment._id x <> commentId)
  /\ (forall entry r, In entry data1 -> In r (snd entry) ->
      Comment._id r <> commentId)
  /\ lengthZ
       (CommentModel.find
          (fun x => String.eqb (Comment.post x) (Comment.post c)
                    && (Comment.level x =? 1) && Comment.isApproved x)
          (comments s1))
     < total meta1.
Proof.
  intros U F Lv Ap D G G1.
  apply deleteComment_Ok in D. destruct D as [c0 [F0 C1]].
  rewrite F in F0. inversion F0; subst c0; clear F0.
  pose proof (CommentModel_findById_Some _ _ _ F) as [Hid _].
  pose proof (CommentModel_findById_raw _ _ _ U F) as R.
  set (c' := Comment.set_deleted (now env) c) in *.
  assert (R1 : findById (comments s1) commentId = Some c').
  { rewrite C1. apply (findById_save_same _ _ c c' R). exact Hid. }
  assert (U1 : uniqueIds (comments s1)).
  { rewrite C1. unfold uniqueIds, save.
    rewrite map_docId_updateById; [assumption | reflexivity]. }
  apply getPostComments_Ok in G. destruct G as [_ [_ G]].
  apply getPostComments_Ok in G1. destruct G1 as [_ [Ed1 G1]].
  pose proof (pageOf_Ok _ _ _ _ _ _ _ _ G) as [_ [M _]].
  pose proof (pageOf_Ok _ _ _ _ _ _ _ _ G1) as [_ [M1 _]].
  assert (Qc : (String.eqb (Comment.post c) (Comment.post c)
                && (Comment.level c =? 1) && Comment.isApproved c) = true).
  { now rewrite String.eqb_refl, Lv, Ap. }
  split; [|split; [|split]].
  - subst meta meta1. simpl. rewrite C1. unfold save.
    assert (Rc : findById (comments s) (docId c') = Some c) by exact
      (eq_ind_r (fun i => findById (comments s) i = Some c) R Hid).
    rewrite (countDocuments_updateById _ _ _ _ c Rc).
    change (Comment.post c') with (Comment.post c).
    change (Comment.level c') with (Comment.level c).
    change (Comment.isApproved c') with (Comment.isApproved c).
    rewrite Qc. lia.
  - intros x I E. eapply pageOf_In in I; eauto.
    destruct I as [I [_ Dx]].
    rewrite (findById_unique (comments s1) commentId x U1 I E) in R1.
    inversion R1; subst x. discriminate.
  - intros [e preview] r I Ir E. rewrite Ed1 in I.
    apply populateReplies_In in I. destruct I as [_ [_ Pr]].
    destruct (Pr r Ir) as [I [Dx _]].
    rewrite (findById_unique (comments s1) commentId r U1 I E) in R1.
    inversion R1; subst r. discriminate.
  - subst meta1. simpl.
    apply find_lt_count with (x := c'); auto.
    now apply findById_Some in R1.
Qed.

Lemma getPostComments_total_witness :
  total (CommentService.mkMeta 1 1 10) = total (CommentService.mkMeta 1 1 10)
  /\ (forall x,
        In x (map fst (@nil (Comment.doc * list Comment.doc))) ->
        Comment._id x <> Scenario.commentA)
  /\ (forall (entry : Comment.doc * list Comment.doc) r,
      In entry [] -> In r (snd entry) ->
      Comment._id r <> Scenario.commentA)
  /\ lengthZ
       (CommentModel.find
          (fun x => String.eqb (Comment.post x)
                      (Comment.post Scenario.firstComment)
                    && (Comment.level x =? 1) && Comment.isApproved x)
          (comments Scenario.afterDelete))
     < total (CommentService.mkMeta 1 1 10).
Proof.
  apply (getPostComments_total_counts_deleted_comments
           (Scenario.later 30) Scenario.threaded Scenario.afterDelete
           Scenario.commentA Scenario.bobId false Scenario.firstComment
           1 10 [(Scenario.firstComment, [Scenario.replyB])] []
           (CommentService.mkMeta 1 1 10) (CommentService.mkMeta 1 1 10)).
  - repeat constructor; simpl; intuition discriminate.
  - reflexivity.
  - reflexivity.
  - reflexivity.
  - reflexivity.
  - reflexivity.
  - reflexivity.
Defined.

(** ** CommentService: who is notified of a new comment *)

Lemma createNotification_added (env : Env) (n : Notification.doc)
    (s : Store) :
  notifications (fst (NotificationService.createNotification env n s))
  = notifications s
  \/ notifications (fst (NotificationService.createNotification env n s))
     = notifications s ++ [n].
Proof.
  unfold NotificationService.createNotification. run_monad.
  destruct (notificationFault env); simpl; [now left|].
  unfold insertOne. destruct (findById (notifications s) (docId n)); simpl;
    auto.
Qed.

Lemma notifyNewComment_added (env : Env)
    (data : CommentService.CreateCommentDTO) (postAuthor commentId : ObjectId)
    (s : Store) :
  exists added,
    notifications
      (fst (CommentService.notifyNewComment env data postAuthor commentId s))
    = notifications s ++ added
    /\ (added = []
        \/ exists n,
             added = [n]
             /\ commentNotice data commentId n
             /\ ((Notification.type n = COMMENT
                  /\ truthy (CommentService.parentCommentId data) = None
                  /\ Notification.recipient n = postAuthor)
                 \/ (Notification.type n = REPLY
                     /\ exists pid parent,
                          truthy (CommentService.parentCommentId data)
                          = Some pid
                          /\ CommentModel.findById (comments s) pid
                             = Some parent
                          /\ Notification.recipient n
                             = Comment.author parent))).
Proof.
  assert (Nil : forall l : list Notification.doc, l = l ++ [])
    by (intros; now rewrite app_nil_r).
  unfold CommentService.notifyNewComment,
    NotificationService.createCommentNotification,
    NotificationService.createReplyNotification.
  cbv beta iota delta [bind ret throw get reading].
  destruct (truthy (CommentService.parentCommentId data)) as [pid|] eqn:T.
  - rewrite andb_false_r. cbv iota.
    destruct (CommentModel.findById (comments s) pid) as [parent|] eqn:P;
      [|exists []; split; [apply Nil | now left]].
    destruct (findById (users s) (Comment.author parent)) as [a|] eqn:A;
      [|exists []; split; [apply Nil | now left]].
    apply findById_Some in A. destruct A as [Ha _].
    change (docId a) with (User._id a) in Ha.
    destruct (String.eqb (User._id a) (CommentService.authorId data))
      eqn:E; simpl; [exists []; split; [apply Nil | now left]|].
    apply String.eqb_neq in E.
    destruct (findById (users s) (CommentService.authorId data));
      [|exists []; split; [apply Nil | now left]].
    destruct (findById (posts s) (CommentService.postId data));
      [|exists []; split; [apply Nil | now left]].
    match goal with
    | |- context [NotificationService.createNotification env ?n s] =>
        destruct (createNotification_added env n s) as [Q | Q];
        destruct (NotificationService.createNotification env n s)
          as [s' [[]|e]]; simpl in *; rewrite Q;
        [ exists []; split; [apply Nil | now left]
        | exists []; split; [apply Nil | now left]
        | exists [n]; split; [reflexivity | right; exists n]
        | exists [n]; split; [reflexivity | right; exists n] ]
    end;
      (split; [reflexivity|]; split;
       [unfold commentNotice; simpl; auto
       | right; split; [reflexivity|]; exists pid, parent; simpl;
         repeat split; congruence]).
  - rewrite andb_true_r.
    destruct (String.eqb postAuthor (CommentService.authorId data)) eqn:E;
      simpl; [exists []; split; [apply Nil | now left]|].
    apply String.eqb_neq in E.
    destruct (findById (users s) (CommentService.authorId data));
      [|exists []; split; [apply Nil | now left]].
    destruct (findById (posts s) (CommentService.postId data));
      [|exists []; split; [apply Nil | now left]].
    match goal with
    | |- context [NotificationService.createNotification env ?n s] =>
        destruct (createNotification_added env n s) as [Q | Q];
        destruct (NotificationService.createNotification env n s)
          as [s' [[]|e]]; simpl in *; rewrite Q;
        [ exists []; split; [apply Nil | now left]
        | exists []; split; [apply Nil | now left]
        | exists [n]; split; [reflexivity | right; exists n]
        | exists [n]; split; [reflexivity | right; exists n] ]
    end;
      (split; [reflexivity|]; split;
       [unfold commentNotice; simpl; auto
       | left; simpl; auto]).
Qed.

Lemma insertComment_notifications (env : Env)
    (data : CommentService.CreateCommentDTO) (s : Store) :
  notifications (fst (CommentService.insertComment env data s))
  = notifications s.
Proof.
  unfold CommentService.insertComment, CommentModel.create,
    CommentModel.preSaveNew, CommentModel.incCommentCount.
  run_monad.
  repeat (break_match; simpl; try reflexivity).
Qed.

(** X14.  createComment adds at most one notification, and never one
    addressed to the commenter.  A notification it adds is unread, sent
    by the commenter about the new comment on that post, and goes to the
    author of the post when the comment is top-level, or to the author
    of the parent comment when it is a reply; the author of the post
    gets none for a reply to someone else's comment. *)
Theorem createComment_notifies_one_other_user_at_most (env : Env)
    (data : CommentService.CreateCommentDTO) (s : Store) :
  exists added,
    notifications (fst (CommentService.createComment env data s))
    = notifications s ++ added
    /\ (added = []
        \/ exists n,
             added = [n]
             /\ commentNotice data (freshId env) n
             /\ ((Notification.type n = COMMENT
                  /\ truthy (CommentService.parentCommentId data) = None
                  /\ exists post,
                       findById (posts s) (CommentService.postId data)
                       = Some post
                       /\ Notification.recipient n = Post.author post)
                 \/ (Notification.type n = REPLY
                     /\ exists pid parent,
                          truthy (CommentService.parentCommentId data)
                          = Some pid
                          /\ CommentModel.findById (comments s) pid
                             = Some parent
                          /\ Notification.recipient n
                             = Comment.author parent))).
Proof.
  pose proof (createComment_cases env data s) as Cs.
  pose proof (insertComment_notifications env data s) as Ns.
  destruct (CommentService.insertComment env data s)
    as [s1 [[[post c] pop]|e]] eqn:I; simpl in Ns.
  - destruct Cs as [s2 [C [S2 _]]]. rewrite C. simpl. subst s2.
    apply insertComment_Ok in I.
    destruct I as [parent [Fp [_ [Par [Hc [_ [Cm _]]]]]]].
    assert (Hid : Comment._id c = freshId env)
      by (subst c; apply newComment_fresh).
    destruct (notifyNewComment_added env data (Post.author post)
                (Comment._id c) s1) as [added [Q Sh]].
    exists added. rewrite Q, Ns. split; [reflexivity|].
    destruct Sh as [-> | [n [-> [Nt Kind]]]]; [now left|].
    right. exists n. split; [reflexivity|]. rewrite <- Hid.
    split; [exact Nt|].
    destruct Kind as [[Ty [T R]] | [Ty [pid [p1 [T [F1 R]]]]]].
    + left. repeat split; auto. exists post. auto.
    + right. split; [exact Ty|]. rewrite T in Par.
      destruct Par as [p [_ Fs]].
      exists pid, p. repeat split; auto.
      rewrite Cm, CommentModel_findById_app, Fs in F1. congruence.
  - rewrite Cs. simpl. exists []. rewrite Ns, app_nil_r. auto.
Qed.

Lemma createNotification_Ok (env : Env) (n : Notification.doc) (s : Store) :
  notificationFault env = None ->
  findById (notifications s) (Notification._id n) = None ->
  NotificationService.createNotification env n s
  = (set_notifications (fun _ => notifications s ++ [n]) s, Ok tt).
Proof.
  intros Nf Fr. unfold NotificationService.createNotification. run_monad.
  rewrite Nf. simpl. unfold insertOne.
  change (docId n) with (Notification._id n). now rewrite Fr.
Qed.

(** X15.  When the insert of createComment has succeeded and the
    notifications collection accepts a document under the next
    notification id, the notification step delivers exactly this: a
    top-level comment by someone other than the post's author appends
    one COMMENT notification to that author; a reply to a comment of
    another stored user appends one REPLY notification to that user;
    a top-level comment on one's own post and a reply to one's own
    comment append nothing. *)
Theorem createComment_delivers_the_notification (env : Env)
    (data : CommentService.CreateCommentDTO) (s s1 : Store)
    (post : Post.doc) (c : Comment.doc) (pop : option Comment.doc) :
  CommentService.insertComment env data s = (s1, Ok (post, c, pop)) ->
  notificationFault env = None ->
  findById (notifications s) (notificationId env) = None ->
  let notice recipient0 type0 :=
    {| Notification._id := notificationId env;
       Notification.recipient := recipient0;
       Notification.sender := Some (CommentService.authorId data);
       Notification.type := type0;
       Notification.isRead := false;
       Notification.relatedPost := Some (CommentService.postId data);
       Notification.relatedComment := Some (freshId env) |} in
  let after := notifications (fst (CommentService.createComment env data s)) in
  (truthy (CommentService.parentCommentId data) = None ->
   (Post.author post <> CommentService.authorId data ->
    after = notifications s ++ [notice (Post.author post) COMMENT])
   /\ (Post.author post = CommentService.authorId data ->
       after = notifications s))
  /\ (forall pid parent u,
        truthy (CommentService.parentCommentId data) = Some pid ->
        CommentModel.findById (comments s) pid = Some parent ->
        findById (users s) (Comment.author parent) = Some u ->
        (Comment.author parent <> CommentService.authorId data ->
         after = notifications s ++ [notice (Comment.author parent) REPLY])
        /\ (Comment.author parent = CommentService.authorId data ->
            after = notifications s)).
Proof.
  intros I Nf Fr notice after. subst after.
  pose proof (createComment_cases env data s) as Cs. rewrite I in Cs.
  destruct Cs as [s2 [C [S2 _]]]. rewrite C. simpl. subst s2.
  apply insertComment_Ok in I.
  destruct I as [parent [Fp [[a Fa] [Par [Hc [_ [Cm [Ps [Fr1 _]]]]]]]]].
  injection Fr1 as Us Ts Cats Ns.
  assert (Hid : Comment._id c = freshId env)
    by (subst c; apply newComment_fresh).
  assert (Fp1 : findById (posts s1) (CommentService.postId data)
                = Some (Post.inc_commentCount 1 post)).
  { rewrite Ps, findById_updateById by (intros d; auto).
    now rewrite String.eqb_refl, Fp. }
  assert (Fr' : forall n, Notification._id n = notificationId env ->
                  findById (notifications s1) (Notification._id n) = None)
    by (intros n ->; now rewrite Ns).
  unfold CommentService.notifyNewComment,
    NotificationService.createCommentNotification,
    NotificationService.createReplyNotification.
  cbv beta iota delta [bind ret throw get reading].
  cbn [NotificationService.commenterId NotificationService.cn_postId
       NotificationService.cn_commentId NotificationService.postAuthorId
       NotificationService.rn_postId NotificationService.rn_commentId
       NotificationService.replyToCommentId NotificationService.replyerId
       NotificationService.recipientId].
  split.
  - intros T. rewrite T, andb_true_r. split.
    + intros N. apply String.eqb_neq in N. rewrite N. cbn [negb].
      rewrite Us, Fa, Fp1. cbv iota.
      rewrite createNotification_Ok by (auto; now apply Fr').
      simpl. now rewrite Ns, Hid.
    + intros E. apply String.eqb_eq in E. rewrite E. simpl. congruence.
  - intros pid p u T P U. rewrite T, andb_false_r. cbv iota.
    rewrite Cm, CommentModel_findById_app, P.
    rewrite Us, U.
    apply findById_Some in U. destruct U as [Hu _].
    change (docId u) with (User._id u) in Hu. rewrite Hu. split.
    + intros N. apply String.eqb_neq in N. rewrite N. cbn [negb].
      cbv beta iota. rewrite Us, Fa, Fp1. cbv iota.
      rewrite createNotification_Ok by (auto; now apply Fr').
      simpl. now rewrite Ns, Hid.
    + intros E. apply String.eqb_eq in E. rewrite E. simpl. congruence.
Qed.

Lemma createComment_delivery_witness :
  let env := Scenario.at_ 10 Scenario.commentA in
  let data := Scenario.topLevel in
  let notice recipient0 type0 :=
    {| Notification._id := notificationId env;
       Notification.recipient := recipient0;
       Notification.sender := Some (CommentService.authorId data);
       Notification.type := type0;
       Notification.isRead := false;
       Notification.relatedPost := Some (CommentService.postId data);
       Notification.relatedComment := Some (freshId env) |} in
  let after :=
    notifications
      (fst (CommentService.createComment env data Scenario.blog)) in
  (truthy (CommentService.parentCommentId data) = None ->
   (Post.author Scenario.post <> CommentService.authorId data ->
    after
    = notifications Scenario.blog
      ++ [notice (Post.author Scenario.post) COMMENT])
   /\ (Post.author Scenario.post = CommentService.authorId data ->
       after = notifications Scenario.blog))
  /\ (forall pid parent u,
        truthy (CommentService.parentCommentId data) = Some pid ->
        CommentModel.findById (comments Scenario.blog) pid = Some parent ->
        findById (users Scenario.blog) (Comment.author parent) = Some u ->
        (Comment.author parent <> CommentService.authorId data ->
         after
         = notifications Scenario.blog
           ++ [notice (Comment.author parent) REPLY])
        /\ (Comment.author parent = CommentService.authorId data ->
            after = notifications Scenario.blog)).
Proof.
  apply (createComment_delivers_the_notification
           (Scenario.at_ 10 Scenario.commentA) Scenario.topLevel
           Scenario.blog Scenario.inserted Scenario.post
           Scenario.firstComment (Some Scenario.firstComment)).
  - reflexivity.
  - reflexivity.
  - reflexivity.
Defined.

(** ** CommentService: likes *)

Lemma likeComment_Ok (env : Env) (s : Store) (commentId u : ObjectId)
    (c : Comment.doc) :
  CommentModel.findById (comments s) commentId = Some c ->
  memId u (Comment.likes c) = false ->
  exists s1,
    CommentService.likeComment env commentId u s
    = (s1, Ok (Comment.set_likeCount (lengthZ (Comment.likes c ++ [u]))
                 (Comment.set_likes (Comment.likes c ++ [u]) c)))
    /\ comments s1
       = save (Comment.set_likeCount (lengthZ (Comment.likes c ++ [u]))
                 (Comment.set_likes (Comment.likes c ++ [u]) c))
           (comments s)
    /\ posts s1 = posts s.
Proof.
  intros F L. unfold CommentService.likeComment, CommentModel.saveDoc.
  run_monad. rewrite F, L. simpl.
  destruct (negb (String.eqb (Comment.author c) u)); simpl;
    [|eexists; repeat split].
  match goal with
  | |- context [NotificationService.createLikeCommentNotification ?e ?d ?s1] =>
      pose proof (createLikeCommentNotification_frame e d s1) as Fr;
      destruct (NotificationService.createLikeCommentNotification e d s1)
        as [s2 [[]|err]]
  end; simpl in *; destruct Fr as [_ [_ [_ [Fp Fc]]]];
    eexists; repeat split; assumption.
Qed.

(** X16.  When user [u] does not yet like a visible comment, likeComment
    followed by unlikeComment returns, and stores, the comment with the
    likes it had before and with likeCount equal to their number; in
    between, [u] is the last of the likes and likeCount is one more.
    Neither call touches the posts. *)
Theorem likeComment_then_unlikeComment_restores_likes (env : Env)
    (s : Store) (commentId u : ObjectId) (c : Comment.doc) :
  uniqueIds (comments s) ->
  CommentModel.findById (comments s) commentId = Some c ->
  memId u (Comment.likes c) = false ->
  exists s1 s2 c1 c2,
    CommentService.likeComment env commentId u s = (s1, Ok c1)
    /\ Comment.likes c1 = Comment.likes c ++ [u]
    /\ Comment.likeCount c1 = lengthZ (Comment.likes c) + 1
    /\ CommentService.unlikeComment commentId u s1 = (s2, Ok c2)
    /\ Comment.likes c2 = Comment.likes c
    /\ Comment.likeCount c2 = lengthZ (Comment.likes c)
    /\ CommentModel.findById (comments s2) commentId = Some c2
    /\ posts s2 = posts s.
Proof.
  intros U F L.
  destruct (likeComment_Ok env s commentId u c F L) as [s1 [L1 [C1 P1]]].
  set (c1 := Comment.set_likeCount (lengthZ (Comment.likes c ++ [u]))
               (Comment.set_likes (Comment.likes c ++ [u]) c)) in *.
  pose proof (CommentModel_findById_Some _ _ _ F) as [Hid [Vd _]].
  assert (F1 : CommentModel.findById (comments s1) commentId = Some c1).
  { rewrite C1. apply (CommentModel_findById_save _ _ c); auto. }
  assert (U1 : uniqueIds (comments s1)).
  { rewrite C1. unfold uniqueIds, save.
    rewrite map_docId_updateById; [assumption | reflexivity]. }
  set (c2 := Comment.set_likeCount
               (lengthZ (removeId u (Comment.likes c1)))
               (Comment.set_likes (removeId u (Comment.likes c1)) c1)).
  assert (R : removeId u (Comment.likes c1) = Comment.likes c)
    by (apply removeId_last; exact L).
  exists s1, (set_comments (save c2) s1), c1, c2.
  split; [exact L1|]. split; [reflexivity|].
  split.
  { unfold c1, lengthZ. simpl. rewrite length_app. simpl. lia. }
  split.
  { unfold CommentService.unlikeComment, CommentModel.saveDoc. run_monad.
    rewrite F1. reflexivity. }
  split; [exact R|].
  split.
  { change (Comment.likeCount c2)
      with (lengthZ (removeId u (Comment.likes c1))).
    now rewrite R. }
  split; [|exact P1].
  simpl. apply (CommentModel_findById_save _ _ c1); auto.
Qed.

Lemma likeComment_unlikeComment_witness :
  exists s1 s2 c1 c2,
    CommentService.likeComment (Scenario.later 30) Scenario.commentA
      Scenario.annId Scenario.threaded = (s1, Ok c1)
    /\ Comment.likes c1 = Comment.likes Scenario.firstComment
                          ++ [Scenario.annId]
    /\ Comment.likeCount c1
       = lengthZ (Comment.likes Scenario.firstComment) + 1
    /\ CommentService.unlikeComment Scenario.commentA Scenario.annId s1
       = (s2, Ok c2)
    /\ Comment.likes c2 = Comment.likes Scenario.firstComment
    /\ Comment.likeCount c2 = lengthZ (Comment.likes Scenario.firstComment)
    /\ CommentModel.findById (comments s2) Scenario.commentA = Some c2
    /\ posts s2 = posts Scenario.threaded.
Proof.
  apply (likeComment_then_unlikeComment_restores_likes (Scenario.later 30)
           Scenario.threaded Scenario.commentA Scenario.annId
           Scenario.firstComment).
  - repeat constructor; simpl; intuition discriminate.
  - reflexivity.
  - reflexivity.
Defined.

(** ** CommentService: moderation *)

Lemma moderateComment_Ok (s s1 : Store) (commentId : ObjectId)
    (approved : bool) (c1 : Comment.doc) :
  CommentService.moderateComment commentId approved s = (s1, Ok c1) ->
  exists c,
    CommentModel.findById (comments s) commentId = Some c
    /\ c1 = Comment.set_isApproved approved c
    /\ comments s1 = save c1 (comments s)
    /\ posts s1
       = updateById (Comment.post c)
           (Post.inc_commentCount (if approved then 1 else -1)) (posts s).
Proof.
  unfold CommentService.moderateComment, CommentModel.saveDoc,
    CommentModel.incCommentCount.
  intros H. run_monad_in H.
  destruct (CommentModel.findById (comments s) commentId) as [c|] eqn:F;
    [|discriminate].
  exists c. split; [reflexivity|].
  destruct approved; simpl in H; inversion H; subst; simpl; auto.
Qed.

Lemma length_insertSorted {A} (before : A -> A -> bool) (x : A)
    (l : list A) :
  length (insertSorted before x l) = S (length l).
Proof.
  induction l as [|y r IH]; simpl; [reflexivity|].
  destruct (before x y); simpl; [reflexivity | now rewrite IH].
Qed.

Lemma length_sortBy {A} (before : A -> A -> bool) (l : list A) :
  length (sortBy before l) = length l.
Proof.
  induction l as [|x r IH]; simpl; [reflexivity|].
  now rewrite length_insertSorted, IH.
Qed.

(** A reply to a document of the page is in that document's preview when
    the documents of the page have at most [limit0] replies between
    them. *)
Lemma populateReplies_shows (limit0 : nat) (all page : list Comment.doc)
    (entry : Comment.doc * list Comment.doc) (r : Comment.doc) :
  In entry (CommentService.populateReplies limit0 all page) ->
  In r all ->
  Comment.isDeleted r = false ->
  Comment.parentComment r = Some (Comment._id (fst entry)) ->
  (length (CommentModel.find (CommentService.isReplyTo page) all)
   <= limit0)%nat ->
  In r (snd entry).
Proof.
  unfold CommentService.populateReplies. intros I Ir D Pr L.
  apply in_map_iff in I. destruct I as [c [<- Ic]]. simpl in *.
  assert (Lp : (1 <= length page)%nat).
  { destruct page; [destruct Ic | simpl; lia]. }
  rewrite (firstn_short (limit0 * length page)).
  2:{ rewrite length_sortBy. nia. }
  rewrite firstn_short.
  2:{ eapply Nat.le_trans; [apply filter_length_le|].
      now rewrite length_sortBy. }
  apply filter_In. split.
  - apply In_sortBy. unfold CommentModel.find. apply filter_In.
    split; [exact Ir|]. rewrite D. simpl. rewrite andb_true_r.
    unfold CommentService.isReplyTo. rewrite Pr.
    apply memId_In. now apply in_map.
  - unfold CommentService.hasParent. rewrite Pr. apply String.eqb_refl.
Qed.

(** X17.  A comment rejected by moderateComment is an entry of no page of
    any listing: neither getPostComments, nor getCommentReplies, nor
    getUserComments lists it, whatever post, parent, user, page and limit
    they are asked for.  It is still handed out next to the entries:
    getCommentReplies asked for its replies returns it as the parent,
    getPostComments shows it among the replies of its parent when the
    comments of the page have at most three replies between them, and
    getUserComments returns it as the parent of a listed reply to it. *)
Theorem rejected_comment_is_no_entry_but_still_shown (s s1 : Store)
    (commentId : ObjectId) (c1 : Comment.doc) :
  uniqueIds (comments s) ->
  CommentService.moderateComment commentId false s = (s1, Ok c1) ->
  Comment.isApproved c1 = false
  /\ (forall postId page0 limit0 s2 data meta x,
        CommentService.getPostComments postId page0 limit0 s1
        = (s2, Ok (data, meta)) ->
        In x (map fst data) -> Comment._id x <> commentId)
  /\ (forall parentId page0 limit0 s2 data parent meta x,
        CommentService.getCommentReplies parentId page0 limit0 s1
        = (s2, Ok (data, parent, meta)) ->
        In x data -> Comment._id x <> commentId)
  /\ (forall userId page0 limit0 s2 data meta x,
        CommentService.getUserComments userId page0 limit0 s1
        = (s2, Ok (data, meta)) ->
        In x (map fst data) -> Comment._id x <> commentId)
  /\ (forall page0 limit0, 0 <= (page0 - 1) * limit0 ->
        exists data meta,
          CommentService.getCommentReplies commentId page0 limit0 s1
          = (s1, Ok (data, c1, meta)))
  /\ (forall postId page0 limit0 s2 data meta entry,
        CommentService.getPostComments postId page0 limit0 s1
        = (s2, Ok (data, meta)) ->
        In entry data ->
        Comment.parentComment c1 = Some (Comment._id (fst entry)) ->
        (length (CommentModel.find
                   (CommentService.isReplyTo (map fst data)) (comments s1))
         <= 3)%nat ->
        In c1 (snd entry))
  /\ (forall userId page0 limit0 s2 data meta entry,
        CommentService.getUserComments userId page0 limit0 s1
        = (s2, Ok (data, meta)) ->
        In entry data ->
        Comment.parentComment (fst entry) = Some commentId ->
        snd entry = Some c1).
Proof.
  intros U M. apply moderateComment_Ok in M.
  destruct M as [c [F [Hc [C1 _]]]].
  pose proof (CommentModel_findById_Some _ _ _ F) as [Hid [Hd _]].
  assert (V1 : CommentModel.findById (comments s1) commentId = Some c1).
  { rewrite C1. apply (CommentModel_findById_save _ _ c); auto;
      now subst c1. }
  apply (CommentModel_findById_raw _ _ _ U) in F.
  assert (R1 : findById (comments s1) commentId = Some c1).
  { rewrite C1. apply (findById_save_same _ _ c c1 F). now subst c1. }
  assert (U1 : uniqueIds (comments s1)).
  { rewrite C1. unfold uniqueIds, save.
    rewrite map_docId_updateById; [assumption | reflexivity]. }
  assert (Hidden : forall x, In x (comments s1) ->
                     Comment.isApproved x = true ->
                     Comment._id x <> commentId).
  { intros x I Ap E.
    rewrite (findById_unique (comments s1) commentId x U1 I E) in R1.
    inversion R1; subst. discriminate. }
  split; [now subst c1|].
  split; [|split; [|split; [|split; [|split]]]].
  - intros postId page0 limit0 s2 data meta x G I.
    apply getPostComments_Ok in G. destruct G as [_ [_ G]].
    eapply pageOf_In in I; eauto. destruct I as [I [Q _]].
    apply andb_true_iff in Q. destruct Q as [_ Ap]. auto.
  - intros parentId page0 limit0 s2 data parent meta x G I.
    unfold CommentService.getCommentReplies in G.
    cbv beta iota delta [bind ret throw get reading] in G.
    destruct (CommentModel.findById (comments s1) parentId);
      [|discriminate].
    destruct (CommentService.pageOf _ _ page0 limit0 s1)
      as [s3 [[found m]|e]] eqn:P; [|discriminate].
    simpl in G. inversion G; subst.
    eapply pageOf_In in I; eauto. destruct I as [I [Q _]].
    apply andb_true_iff in Q. destruct Q as [_ Ap]. auto.
  - intros userId page0 limit0 s2 data meta x G I.
    apply getUserComments_Ok in G. destruct G as [_ [_ G]].
    eapply pageOf_In in I; eauto. destruct I as [I [Q _]].
    apply andb_true_iff in Q. destruct Q as [_ Ap]. auto.
  - intros page0 limit0 Sk.
    unfold CommentService.getCommentReplies, CommentService.pageOf.
    cbv beta iota delta [bind ret throw get reading].
    rewrite V1. unfold paginate.
    destruct ((page0 - 1) * limit0 <? 0) eqn:Neg;
      [apply Z.ltb_lt in Neg; lia|].
    eexists. eexists. reflexivity.
  - intros postId page0 limit0 s2 data meta entry G I Pr L.
    apply getPostComments_Ok in G. destruct G as [_ [Ed _]].
    rewrite Ed in I.
    apply (populateReplies_shows 3 (comments s1) (map fst data)); auto.
    + now apply findById_Some in R1.
    + now subst c1.
  - intros userId page0 limit0 s2 data meta entry G I Pr.
    apply getUserComments_Ok in G. destruct G as [_ [Ed _]].
    rewrite Ed in I. apply in_map_iff in I. destruct I as [x [<- _]].
    unfold CommentService.populateParent in *. simpl in *.
    now rewrite Pr.
Qed.

Lemma rejected_comment_witness :
  let hidden := Comment.set_isApproved false Scenario.replyB in
  let s1 := Scenario.rejected in
  (Comment.isApproved hidden = false
   /\ (forall postId page0 limit0 s2 data meta x,
         CommentService.getPostComments postId page0 limit0 s1
         = (s2, Ok (data, meta)) ->
         In x (map fst data) -> Comment._id x <> Scenario.commentB)
   /\ (forall parentId page0 limit0 s2 data parent meta x,
         CommentService.getCommentReplies parentId page0 limit0 s1
         = (s2, Ok (data, parent, meta)) ->
         In x data -> Comment._id x <> Scenario.commentB)
   /\ (forall userId page0 limit0 s2 data meta x,
         CommentService.getUserComments userId page0 limit0 s1
         = (s2, Ok (data, meta)) ->
         In x (map fst data) -> Comment._id x <> Scenario.commentB)
   /\ (forall page0 limit0, 0 <= (page0 - 1) * limit0 ->
         exists data meta,
           CommentService.getCommentReplies Scenario.commentB page0 limit0
             s1
           = (s1, Ok (data, hidden, meta)))
   /\ (forall postId page0 limit0 s2 data meta entry,
         CommentService.getPostComments postId page0 limit0 s1
         = (s2, Ok (data, meta)) ->
         In entry data ->
         Comment.parentComment hidden = Some (Comment._id (fst entry)) ->
         (length (CommentModel.find
                    (CommentService.isReplyTo (map fst data)) (comments s1))
          <= 3)%nat ->
         In hidden (snd entry))
   /\ (forall userId page0 limit0 s2 data meta entry,
         CommentService.getUserComments userId page0 limit0 s1
         = (s2, Ok (data, meta)) ->
         In entry data ->
         Comment.parentComment (fst entry) = Some Scenario.commentB ->
         snd entry = Some hidden))
  /\ CommentService.getPostComments Scenario.postId 1 10 s1
     = (s1, Ok ([(Scenario.firstComment, [hidden])],
                CommentService.mkMeta 1 1 10))
  /\ CommentService.getCommentReplies Scenario.commentA 1 10 s1
     = (s1, Ok ([], Scenario.firstComment, CommentService.mkMeta 0 1 10)).
Proof.
  intros hidden s1. split; [|split; reflexivity].
  apply (rejected_comment_is_no_entry_but_still_shown Scenario.threaded s1
           Scenario.commentB hidden).
  - repeat constructor; simpl; intuition discriminate.
  - reflexivity.
Defined.

(** ** CategoryService: the category tree stays a forest *)

Lemma walkAncestors_more_fuel (cats : list Category.doc) (x : ObjectId)
    (fuel fuel' : nat) (c : Category.doc) (b : bool) :
  CategoryService.walkAncestors fuel cats x c = Some b ->
  (fuel <= fuel')%nat ->
  CategoryService.walkAncestors fuel' cats x c = Some b.
Proof.
  revert fuel' c. induction fuel as [|fuel IH]; intros fuel' c W L;
    [discriminate|].
  destruct fuel' as [|fuel']; [lia|]. simpl in *.
  destruct (Category.parentCategory c) as [p|]; auto.
  destruct (String.eqb p x); auto.
  destruct (findById cats p); auto. apply IH; auto. lia.
Qed.

(** A walk that ends without meeting [x] starts outside the subtree of
    [x]. *)
Lemma walkAncestors_false (cats : list Category.doc) (x p : ObjectId)
    (fuel : nat) (c : Category.doc) :
  findById cats p = Some c ->
  CategoryService.walkAncestors fuel cats x c = Some false ->
  ~ descendant cats x p.
Proof.
  intros F W [n D].
  pose proof (walkAncestors_more_fuel _ _ _ (Nat.max fuel (S n)) _ _ W
                (Nat.le_max_l _ _)) as W'.
  rewrite (walkAncestors_descendant cats x n p D c) in W'.
  - discriminate.
  - exact F.
  - lia.
Qed.

Lemma descendant_trans (cats : list Category.doc) (x y z : ObjectId) :
  descendant cats x y -> descendant cats y z -> descendant cats x z.
Proof.
  intros Dxy [n Dyz]. induction Dyz as [d c F P | n d c p F P D IH].
  - destruct Dxy as [m Dxy]. exists (S m). eapply below_child; eauto.
  - destruct IH as [m IH]. exists (S m). eapply below_child; eauto.
Qed.

Section SavedCategory.
Variables (cats : list Category.doc) (id : ObjectId) (c0 c : Category.doc).
Hypothesis stored : findById cats id = Some c0.
Hypothesis same_id : Category._id c = id.

Lemma findById_saved (d : ObjectId) :
  findById (save c cats) d
  = if String.eqb d id then Some c else findById cats d.
Proof.
  unfold save. change (docId c) with (Category._id c). rewrite same_id.
  rewrite findById_updateById by (intros; exact same_id).
  destruct (String.eqb d id); auto. now rewrite stored.
Qed.

(** Saving a category without touching its parent, or detaching it,
    adds no link. *)
Lemma descendantAt_saved_old (x d : ObjectId) (n : nat) :
  Category.parentCategory c = Category.parentCategory c0
  \/ Category.parentCategory c = None ->
  descendantAt (save c cats) x n d -> descendantAt cats x n d.
Proof.
  intros Par D.
  assert (Link : forall d c' q,
             findById (save c cats) d = Some c' ->
             Category.parentCategory c' = Some q ->
             exists c1, findById cats d = Some c1
                        /\ Category.parentCategory c1 = Some q).
  { intros d' c' q F P. rewrite findById_saved in F.
    destruct (String.eqb d' id) eqn:E; [|eauto].
    apply String.eqb_eq in E. inversion F; subst c' d'.
    destruct Par as [Par | Par]; rewrite Par in P; [eauto | discriminate]. }
  induction D as [d c' F P | n d c' p F P D IH].
  - destruct (Link _ _ _ F P) as [c1 [F1 P1]]. eapply child_of; eauto.
  - destruct (Link _ _ _ F P) as [c1 [F1 P1]]. eapply below_child; eauto.
Qed.

(** With a new parent [p], a chain of links in the saved collection is
    an old chain, or climbs to the category, takes the new link and
    climbs on from [p]. *)
Lemma descendantAt_saved_new (p x d : ObjectId) (n : nat) :
  Category.parentCategory c = Some p ->
  p <> id ->
  ~ descendant cats id p ->
  descendantAt (save c cats) x n d ->
  descendant cats x d
  \/ ((d = id \/ descendant cats id d) /\ (x = p \/ descendant cats x p)).
Proof.
  intros Par Np Nd D.
  induction D as [d c' F P | n d c' q F P D IH];
    rewrite findById_saved in F;
    destruct (String.eqb d id) eqn:E.
  - apply String.eqb_eq in E. inversion F; subst c' d.
    rewrite Par in P. inversion P; subst. right. auto.
  - left. exists 0%nat. eapply child_of; eauto.
  - apply String.eqb_eq in E. inversion F; subst c' d.
    rewrite Par in P. inversion P; subst q.
    destruct IH as [Old | [[Eq | Below] Up]].
    + right. auto.
    + contradiction.
    + contradiction.
  - assert (Step : forall y, descendant cats y q -> descendant cats y d).
    { intros y [m Dy]. exists (S m). eapply below_child; eauto. }
    destruct IH as [Old | [[Eq | Below] Up]].
    + left. auto.
    + right. split; [|exact Up]. right. subst q.
      exists 0%nat. eapply child_of; eauto.
    + right. split; [|exact Up]. right. auto.
Qed.

Lemma acyclic_saved :
  acyclic cats ->
  Category.parentCategory c = Category.parentCategory c0
  \/ Category.parentCategory c = None
  \/ (exists p, Category.parentCategory c = Some p /\ p <> id
                /\ ~ descendant cats id p) ->
  acyclic (save c cats).
Proof.
  intros A Par x [n D].
  destruct Par as [Par | [Par | [p [Par [Np Nd]]]]].
  - apply (A x). exists n. apply descendantAt_saved_old; auto.
  - apply (A x). exists n. apply descendantAt_saved_old; auto.
  - destruct (descendantAt_saved_new p x x n Par Np Nd D)
      as [Old | [[Eq | Below] [Eq' | Up]]].
    + now apply (A x).
    + congruence.
    + subst x. contradiction.
    + subst x. contradiction.
    + apply Nd. eapply descendant_trans; eauto.
Qed.
End SavedCategory.

Section CategoryUpdates.
Import CategoryService.
Variable slugify : string -> string.
Variable hookSlug : string -> string.

Lemma beforeWalk_Err (categoryId : ObjectId) (data : UpdateCategoryDTO)
    (s s1 : Store) (e : Error) :
  beforeWalk slugify categoryId data s = (s1, Err e) -> s1 = s.
Proof.
  unfold beforeWalk. intros H. run_monad_in H.
  repeat (break_match_in H; simpl in H; try discriminate);
    inversion H; reflexivity.
Qed.

Lemma beforeWalk_Ok (categoryId : ObjectId) (data : UpdateCategoryDTO)
    (s s1 : Store) (category : Category.doc)
    (parentDoc : option Category.doc) :
  beforeWalk slugify categoryId data s = (s1, Ok (category, parentDoc)) ->
  s1 = s
  /\ exists c0,
       findById (categories s) (castId categoryId) = Some c0
       /\ Category._id category = Category._id c0
       /\ Category.parentCategory category = Category.parentCategory c0
       /\ Category.name category = Category.name c0
       /\ Category.order category = Category.order c0
       /\ match upd_parent data with
          | None => parentDoc = None
          | Some parent =>
              isSelf parent categoryId = false
              /\ match truthy parent with
                 | Some p =>
                     exists d, parentDoc = Some d
                               /\ findById (categories s) (castId p)
                                  = Some d
                 | None => parentDoc = None
                 end
          end
       /\ match renamed data c0 with
          | Some n =>
              findOne (fun c => String.eqb (Category.name c) n
                                && negb (String.eqb (Category._id c)
                                           (castId categoryId)))
                (categories s) = None
          | None => True
          end.
Proof.
  unfold beforeWalk. intros H. run_monad_in H.
  destruct (findById (categories s) (castId categoryId)) as [c0|] eqn:F;
    [|discriminate].
  repeat (break_match_in H; simpl in H; try discriminate);
    inversion H; subst; (split; [reflexivity|]); eexists;
    (split; [reflexivity|]); simpl; intuition eauto;
    match goal with
    | E : renamed data _ = _ |- _ => rewrite E; auto
    end.
Qed.
Lemma afterWalk_Ok (category : Category.doc) (data : UpdateCategoryDTO)
    (s : Store) :
  exists c,
    afterWalk hookSlug category data s
    = (set_categories (save c) s, Ok c)
    /\ Category._id c = Category._id category
    /\ Category.parentCategory c
       = match upd_parent data with
         | Some parent => option_map castId (truthy parent)
         | None => Category.parentCategory category
         end
    /\ Category.order c
       = match upd_order data with
         | Some o => o
         | None => Category.order category
         end
    /\ Category.name c
       = match truthy (upd_name data) with
         | Some n => n
         | None => Category.name category
         end.
Proof.
  unfold afterWalk. run_monad. eexists. split; [reflexivity|].
  destruct (renamed data category), (truthy (upd_name data)),
    (upd_description data), (upd_parent data), (upd_order data);
    simpl; auto.
Qed.

(** What a successful updateCategory has checked and written. *)
Lemma updateCategory_Ok (fuel : nat) (categoryId : ObjectId)
    (data : UpdateCategoryDTO) (s s' : Store) (c : Category.doc) :
  updateCategory slugify hookSlug fuel categoryId data s = Some (s', Ok c) ->
  exists c0,
    findById (categories s) (castId categoryId) = Some c0
    /\ s' = set_categories (save c) s
    /\ Category._id c = castId categoryId
    /\ Category.order c
       = match upd_order data with
         | Some o => o
         | None => Category.order c0
         end
    /\ Category.name c
       = match truthy (upd_name data) with
         | Some n => n
         | None => Category.name c0
         end
    /\ match upd_parent data with
       | None => Category.parentCategory c = Category.parentCategory c0
       | Some parent =>
           Category.parentCategory c = option_map castId (truthy parent)
           /\ match truthy parent with
              | Some p =>
                  p <> categoryId
                  /\ exists d,
                       findById (categories s) (castId p) = Some d
                       /\ walkAncestors fuel (categories s) categoryId d
                          = Some false
              | None => True
              end
       end
    /\ match renamed data c0 with
       | Some n =>
           findOne (fun c => String.eqb (Category.name c) n
                             && negb (String.eqb (Category._id c)
                                        (castId categoryId)))
             (categories s) = None
       | None => True
       end.
Proof.
  unfold updateCategory. intros H.
  destruct (beforeWalk slugify categoryId data s)
    as [s1 [[category parentDoc]|e]] eqn:B; [|discriminate].
  apply beforeWalk_Ok in B.
  destruct B as [-> [c0 [F [Hid [Hp [Hn [Ho [Par Rn]]]]]]]].
  pose proof (findById_Some _ _ _ F) as [Hc0 _].
  change (docId c0) with (Category._id c0) in Hc0.
  destruct (afterWalk_Ok category data s) as [c' [A [Aid [Ap [Ao An]]]]].
  assert (Done : afterWalk hookSlug category data s = (s', Ok c) ->
                 c' = c /\ s' = set_categories (save c) s).
  { intros Q. rewrite A in Q. inversion Q; subst. auto. }
  exists c0. split; [exact F|].
  destruct parentDoc as [d|].
  - destruct (walkAncestors fuel (categories s) categoryId d) as [[|]|]
      eqn:W; try discriminate.
    assert (Q : afterWalk hookSlug category data s = (s', Ok c))
      by congruence.
    apply Done in Q. destruct Q as [-> ->].
    split; [reflexivity|]. split; [congruence|].
    split; [now rewrite Ao, Ho|]. split; [now rewrite An, Hn|].
    split; [|exact Rn].
    destruct (upd_parent data) as [parent|]; [|discriminate].
    destruct Par as [Sf Par]. split; [exact Ap|].
    destruct (truthy parent) as [p|] eqn:T; [|discriminate].
    destruct Par as [d' [Ed Fd]]. inversion Ed; subst d'.
    split; [|eauto].
    intros ->. unfold truthy in T. destruct parent as [q|]; [|discriminate].
    destruct (String.eqb q EmptyString); [discriminate|].
    inversion T; subst q. simpl in Sf. now rewrite String.eqb_refl in Sf.
  - assert (Q : afterWalk hookSlug category data s = (s', Ok c))
      by congruence.
    apply Done in Q. destruct Q as [-> ->].
    split; [reflexivity|]. split; [congruence|].
    split; [now rewrite Ao, Ho|]. split; [now rewrite An, Hn|].
    split; [|exact Rn].
    destruct (upd_parent data) as [parent|]; [|congruence].
    destruct Par as [Sf Par]. split; [exact Ap|].
    destruct (truthy parent) as [p|] eqn:T; [|exact I].
    destruct Par as [d' [Ed _]]. discriminate.
Qed.

(** X18.  updateCategory, called with the id of the category and the id
    of the new parent in the spelling in which ids are stored, keeps
    the categories a forest: if no category is below itself before the
    call, none is afterwards, whatever the call changes and whether it
    succeeds or throws.  A new parent is accepted only when the walk up
    from it has ended without meeting the category, so the new link
    closes no cycle. *)
Theorem updateCategory_keeps_categories_acyclic (fuel : nat)
    (categoryId : ObjectId) (data : UpdateCategoryDTO) (s s' : Store)
    (r : Result Category.doc) :
  castId categoryId = categoryId ->
  (forall p, upd_parent data = Some (Some p) -> castId p = p) ->
  acyclic (categories s) ->
  updateCategory slugify hookSlug fuel categoryId data s = Some (s', r) ->
  acyclic (categories s').
Proof.
  intros Cx Cp A H. destruct r as [c|e].
  - apply updateCategory_Ok in H.
    destruct H as [c0 [F [-> [Hid [_ [_ [Par _]]]]]]]. simpl.
    rewrite Cx in F, Hid.
    apply (acyclic_saved (categories s) categoryId c0 c F Hid A).
    destruct (upd_parent data) as [parent|]; [|now left].
    destruct Par as [Pc Par]. right.
    destruct (truthy parent) as [p|] eqn:T; [|now left].
    assert (Ep : parent = Some p).
    { unfold truthy in T. destruct parent as [q|]; [|discriminate].
      destruct (String.eqb q EmptyString); [discriminate | exact T]. }
    subst parent. rewrite (Cp p eq_refl) in Par. simpl in Pc.
    rewrite (Cp p eq_refl) in Pc.
    destruct Par as [Np [d [Fd W]]]. right. exists p.
    repeat split; auto. eapply walkAncestors_false; eauto.
  - unfold updateCategory in H.
    destruct (beforeWalk slugify categoryId data s)
      as [s1 [[category parentDoc]|e1]] eqn:B.
    + apply beforeWalk_Ok in B. destruct B as [-> _].
      destruct (afterWalk_Ok category data s) as [c' [Aw _]].
      destruct parentDoc as [d|].
      * destruct (walkAncestors fuel (categories s) categoryId d)
          as [[|]|]; try discriminate.
        inversion H; subst. exact A.
      * rewrite Aw in H. discriminate.
    + apply beforeWalk_Err in B. inversion H; subst. exact A.
Qed.
Lemma walkAncestors_total (rank : ObjectId -> nat)
    (cats : list Category.doc) (x : ObjectId) (fuel : nat)
    (c : Category.doc) :
  ranked rank cats -> In c cats -> (rank (Category._id c) < fuel)%nat ->
  exists b, walkAncestors fuel cats x c = Some b.
Proof.
  unfold ranked. intros R. rewrite Forall_forall in R.
  revert c. induction fuel as [|fuel IH]; intros c I L; [lia|].
  simpl. pose proof (R c I) as Rc.
  destruct (Category.parentCategory c) as [p|]; [|eauto].
  destruct (String.eqb p x); [eauto|].
  destruct (findById cats p) as [np|] eqn:F; [|eauto].
  apply findById_Some in F. destruct F as [Hid Inp].
  change (docId np) with (Category._id np) in Hid.
  apply IH; auto. rewrite Hid. lia.
Qed.

(** X19.  updateCategory ends.  On categories whose parent links
    decrease some measure, so that they form a forest, the ancestor walk
    is over within as many turns as the measure of the proposed parent:
    given more turns than the measure of any stored category, the call
    returns a result. *)
Theorem updateCategory_returns_on_a_forest (rank : ObjectId -> nat)
    (fuel : nat) (categoryId : ObjectId) (data : UpdateCategoryDTO)
    (s : Store) :
  ranked rank (categories s) ->
  (forall c, In c (categories s) -> (rank (Category._id c) < fuel)%nat) ->
  exists s' r,
    updateCategory slugify hookSlug fuel categoryId data s = Some (s', r).
Proof.
  intros R B. unfold updateCategory.
  destruct (beforeWalk slugify categoryId data s)
    as [s1 [[category parentDoc]|e]] eqn:Bw; [|eauto].
  apply beforeWalk_Ok in Bw.
  destruct Bw as [-> [c0 [_ [_ [_ [_ [_ [Par _]]]]]]]].
  destruct (afterWalk_Ok category data s) as [c' [Aw _]].
  destruct parentDoc as [d|]; [|rewrite Aw; eauto].
  assert (Id : In d (categories s)).
  { destruct (upd_parent data) as [parent|]; [|discriminate].
    destruct Par as [_ Par].
    destruct (truthy parent) as [p|]; [|discriminate].
    destruct Par as [d' [Ed Fd]]. inversion Ed; subst d'.
    now apply findById_Some in Fd. }
  destruct (walkAncestors_total rank (categories s) categoryId fuel d R Id
              (B d Id)) as [[|] W]; rewrite W; [eauto|].
  rewrite Aw. eauto.
Qed.
End CategoryUpdates.

Lemma updateCategory_acyclic_witness :
  acyclic
    (categories
       (set_categories
          (save (Category.set_parentCategory (Some Scenario.newsId)
                   Scenario.rust))
          Scenario.tree)).
Proof.
  apply (updateCategory_keeps_categories_acyclic (fun n => n) (fun n => n) 3
           Scenario.rustId (Scenario.reparent Scenario.newsId)
           Scenario.tree _
           (Ok (Category.set_parentCategory (Some Scenario.newsId)
                  Scenario.rust))).
  - reflexivity.
  - intros p E. inversion E. reflexivity.
  - apply (acyclic_ranked Scenario.treeDepth).
    repeat constructor; simpl; lia.
  - reflexivity.
Defined.

Lemma updateCategory_returns_witness :
  exists s' r,
    CategoryService.updateCategory (fun n => n) (fun n => n) 3
      Scenario.rustId (Scenario.reparent Scenario.newsId) Scenario.tree
    = Some (s', r).
Proof.
  apply (updateCategory_returns_on_a_forest (fun n => n) (fun n => n)
           Scenario.treeDepth 3 Scenario.rustId
           (Scenario.reparent Scenario.newsId) Scenario.tree).
  - repeat constructor; simpl; lia.
  - intros c [<- | [<- | [<- | []]]]; vm_compute; lia.
Defined.

(** ** CategoryService: what the operations write *)

Section CategoryWrites.
Import CategoryService.
Variable slugify : string -> string.
Variable hookSlug : string -> string.

Lemma createCategory_result (env : Env) (data : CreateCategoryDTO)
    (s s' : Store) (r : Result Category.doc) :
  createCategory slugify hookSlug env data s = (s', r) ->
  match r with
  | Err _ => s' = s
  | Ok c =>
      s' = set_categories (fun _ => categories s ++ [c]) s
      /\ Category._id c = freshId env
      /\ Category.name c = new_name data
      /\ Category.parentCategory c = truthy (new_parent data)
      /\ Category.order c
         = match new_order data with Some o => o | None => 0 end
      /\ findById (categories s) (freshId env) = None
      /\ findOne (fun c => String.eqb (Category.name c) (new_name data))
           (categories s) = None
      /\ match truthy (new_parent data) with
         | Some p => exists d, findById (categories s) p = Some d
         | None => True
         end
  end.
Proof.
  unfold createCategory. intros H. run_monad_in H.
  destruct (findOne _ (categories s)) eqn:Fn; simpl in H;
    [inversion H; reflexivity|].
  destruct (findOne _ (categories s)) eqn:Fs in H; simpl in H;
    [inversion H; reflexivity|].
  destruct (truthy (new_parent data)) as [p|] eqn:T; simpl in H.
  - destruct (findById (categories s) p) as [d|] eqn:Fp; simpl in H;
      [|inversion H; reflexivity].
    unfold insertOne in H.
    change (docId ?x) with (Category._id x) in H. simpl in H.
    destruct (findById (categories s) (freshId env)) eqn:Ff; simpl in H;
      inversion H; subst; simpl; [reflexivity|].
    repeat split; eauto.
  - unfold insertOne in H.
    change (docId ?x) with (Category._id x) in H. simpl in H.
    destruct (findById (categories s) (freshId env)) eqn:Ff; simpl in H;
      inversion H; subst; simpl; [reflexivity|].
    repeat split; eauto.
Qed.

Lemma deleteCategory_result (categoryId : ObjectId) (s s' : Store)
    (r : Result unit) :
  deleteCategory categoryId s = (s', r) ->
  match r with
  | Err _ => s' = s
  | Ok _ =>
      s' = set_categories
             (deleteFirst (fun c => String.eqb (Category._id c) categoryId))
             s
      /\ (exists c, findById (categories s) categoryId = Some c)
      /\ filter (isChildOf categoryId) (categories s) = []
      /\ countDocuments (fun p => String.eqb (Post.category p) categoryId)
           (posts s) <= 0
  end.
Proof.
  unfold deleteCategory. intros H. run_monad_in H.
  destruct (findById (categories s) categoryId) as [c|] eqn:F; simpl in H;
    [|inversion H; reflexivity].
  destruct (filter (isChildOf categoryId) (categories s)) eqn:Ch;
    simpl in H; [|inversion H; reflexivity].
  destruct (0 <? countDocuments _ (posts s)) eqn:Pc; simpl in H;
    inversion H; subst; [reflexivity|].
  apply Z.ltb_ge in Pc. repeat split; eauto.
Qed.

Lemma orderFrom_keeps (categoryIds : list ObjectId)
    (parentId : option (option ObjectId)) (index : Z) (s : Store) :
  let s' := fst (orderFrom index categoryIds parentId s) in
  map Category._id (categories s') = map Category._id (categories s)
  /\ map Category.name (categories s') = map Category.name (categories s)
  /\ (users s', tagDocs s', posts s', comments s', notifications s')
     = (users s, tagDocs s, posts s, comments s, notifications s).
Proof.
  revert index s. induction categoryIds as [|id rest IH]; intros index s;
    [simpl; auto|].
  cbn [orderFrom]. cbv beta iota delta [bind ret throw get modify reading].
  destruct (findById (categories s) id) as [c|]; [|simpl; auto].
  match goal with
  | |- context [orderFrom ?i rest parentId ?s1] =>
      specialize (IH i s1);
      destruct (orderFrom i rest parentId s1) as [s2 [[]|e]]
  end; simpl in *;
    destruct IH as [Ids [Names Rest]]; rewrite Ids, Names, Rest;
    (split; [|split; [|reflexivity]]);
    match goal with
    | |- map ?f (updateById id ?g (categories s)) = _ =>
        clear; induction (categories s) as [|x l IHl]; simpl; auto;
        destruct (String.eqb (docId x) id); simpl;
        [destruct parentId as [parent|];
           [destruct (truthy parent)|]; reflexivity
        | now rewrite IHl]
    end.
Qed.

Lemma updateCategoryOrder_Err (categoryIds : list ObjectId)
    (parentId : option (option ObjectId)) (s s' : Store) (e : Error) :
  updateCategoryOrder categoryIds parentId s = (s', Err e) -> s' = s.
Proof.
  unfold updateCategoryOrder.
  destruct (orderFrom 0 categoryIds parentId s) as [s1 [[]|e1]];
    intros H; inversion H; reflexivity.
Qed.

Lemma updateCategory_Err (fuel : nat) (categoryId : ObjectId)
    (data : UpdateCategoryDTO) (s s' : Store) (e : Error) :
  updateCategory slugify hookSlug fuel categoryId data s = Some (s', Err e) ->
  s' = s.
Proof.
  unfold updateCategory. intros U.
  destruct (beforeWalk slugify categoryId data s)
    as [s2 [[category parentDoc]|e2]] eqn:B.
  - apply (beforeWalk_Ok slugify hookSlug) in B. destruct B as [-> _].
    destruct (afterWalk_Ok hookSlug category data s) as [c' [Aw _]].
    rewrite Aw in U.
    destruct parentDoc as [d|]; [|discriminate].
    destruct (walkAncestors fuel (categories s) categoryId d) as [[|]|];
      try discriminate.
    now inversion U.
  - apply (beforeWalk_Err slugify) in B. congruence.
Qed.

(** X20.  A category operation that throws has written nothing:
    createCategory, updateCategory and deleteCategory throw before their
    only write, and the writes of updateCategoryOrder are undone with the
    transaction. *)
Theorem failed_category_operation_writes_nothing (op : CategoryOp)
    (s s' : Store) (e : Error) :
  categoryStep slugify hookSlug op s = Some (s', Some e) -> s' = s.
Proof.
  destruct op as [env data | fuel id data | id | ids parentId];
    unfold categoryStep, outcome; intros H.
  - destruct (createCategory slugify hookSlug env data s) as [s1 r] eqn:C.
    apply createCategory_result in C.
    destruct r; simpl in H; inversion H; subst; auto.
  - destruct (updateCategory slugify hookSlug fuel id data s)
      as [[s1 r]|] eqn:U; [|discriminate].
    destruct r as [c|e1]; simpl in H; inversion H; subst; clear H.
    now apply updateCategory_Err in U.
  - destruct (deleteCategory id s) as [s1 r] eqn:D.
    apply deleteCategory_result in D.
    destruct r; simpl in H; inversion H; subst; auto.
  - destruct (updateCategoryOrder ids parentId s) as [s1 r] eqn:O.
    destruct r; simpl in H; inversion H; subst.
    now apply updateCategoryOrder_Err in O.
Qed.
End CategoryWrites.

Lemma failed_category_operation_witness :
  Scenario.tree = Scenario.tree.
Proof.
  apply (failed_category_operation_writes_nothing (fun n => n) (fun n => n)
           (DeleteCategory Scenario.newsId) Scenario.tree Scenario.tree
           (AppError "该分类下有子分类，不能删除" 400)).
  reflexivity.
Defined.

(** ** CategoryService: ids and names stay unique *)

Lemma In_save {A} `{Document A} (d y : A) (l : list A) :
  In y (save d l) -> y = d \/ In y l.
Proof.
  unfold save. induction l as [|x r IH]; simpl; [tauto|].
  destruct (String.eqb (docId x) (docId d)); simpl; intros [E | I]; auto.
  destruct (IH I); auto.
Qed.

(** Rewriting one document keeps a key unique when the document keeps
    its key or takes one that no other document has. *)
Lemma NoDup_map_save {A B} `{Document A} (key : A -> B) (l : list A)
    (d0 d : A) :
  uniqueIds l ->
  NoDup (map key l) ->
  findById l (docId d) = Some d0 ->
  key d = key d0
  \/ (forall x, In x l -> docId x <> docId d -> key x <> key d) ->
  NoDup (map key (save d l)).
Proof.
  unfold uniqueIds, save, findById, findOne.
  induction l as [|x r IH]; simpl; intros U N F K; [constructor|].
  inversion U as [|? ? Ux Ur]; inversion N as [|? ? Nx Nr]; subst.
  destruct (String.eqb (docId x) (docId d)) eqn:E.
  - inversion F; subst d0. apply String.eqb_eq in E. simpl.
    constructor; [|assumption].
    destruct K as [K | K]; [now rewrite K|].
    intros I. apply in_map_iff in I. destruct I as [y [Ky Iy]].
    apply (K y); auto. intros Ey. apply Ux. rewrite E, <- Ey.
    now apply in_map.
  - apply String.eqb_neq in E. simpl. constructor.
    + intros I. apply in_map_iff in I. destruct I as [y [Ky Iy]].
      apply In_save in Iy. destruct Iy as [-> | Iy].
      * destruct K as [K | K].
        -- apply Nx. rewrite <- Ky, K. apply in_map.
           now apply find_some in F.
        -- apply (K x); auto.
      * apply Nx. rewrite <- Ky. now apply in_map.
    + apply IH; auto. destruct K as [K | K]; auto.
Qed.

Lemma NoDup_map_deleteFirst {A B} (key : A -> B) (q : A -> bool)
    (l : list A) :
  NoDup (map key l) -> NoDup (map key (deleteFirst q l)).
Proof.
  induction l as [|x r IH]; simpl; intros N; [constructor|].
  inversion N as [|? ? Nx Nr]; subst.
  destruct (q x); [assumption|]. simpl. constructor; auto.
  intros I. apply Nx. apply in_map_iff in I. destruct I as [y [Ky Iy]].
  apply in_map_iff. exists y. split; auto.
  clear - Iy. induction r as [|z r IH]; simpl in *; [tauto|].
  destruct (q z); simpl in *; intuition.
Qed.

Lemma NoDup_snoc {A} (l : list A) (a : A) :
  NoDup l -> ~ In a l -> NoDup (l ++ [a]).
Proof.
  induction l as [|x r IH]; simpl; intros N I.
  - repeat constructor. tauto.
  - inversion N as [|? ? Nx Nr]; subst. constructor.
    + rewrite in_app_iff. simpl. intuition.
    + apply IH; auto.
Qed.

Section CategoryUniqueness.
Import CategoryService.
Variable slugify : string -> string.
Variable hookSlug : string -> string.

(** X21.  No category operation breaks the uniqueness of category ids
    or of category names: createCategory refuses a stored name,
    updateCategory refuses a name that another category has, and
    deleteCategory and updateCategoryOrder change neither. *)
Theorem category_ids_and_names_stay_unique (op : CategoryOp) (s s' : Store)
    (r : option Error) :
  uniqueIds (categories s) ->
  uniqueNames (categories s) ->
  categoryStep slugify hookSlug op s = Some (s', r) ->
  uniqueIds (categories s') /\ uniqueNames (categories s').
Proof.
  intros U N H.
  destruct op as [env data | fuel id data | id | ids parentId];
    unfold categoryStep, outcome in H.
  - destruct (createCategory slugify hookSlug env data s) as [s1 r0] eqn:C.
    apply createCategory_result in C.
    destruct r0 as [c|]; simpl in H; inversion H; subst s1; clear H;
      [|subst; auto].
    destruct C as [-> [Hid [Hn [_ [_ [Fresh [Nm _]]]]]]]. simpl. split.
    + apply uniqueIds_app_one; auto.
      change (docId c) with (Category._id c). rewrite Hid.
      now apply findById_None.
    + unfold uniqueNames in *. rewrite map_app. simpl.
      apply NoDup_snoc; auto.
      intros I. apply in_map_iff in I. destruct I as [x [Kx Ix]].
      unfold findOne in Nm. apply (find_none _ _ Nm) in Ix.
      apply String.eqb_neq in Ix. congruence.
  - destruct (updateCategory slugify hookSlug fuel id data s)
      as [[s1 r0]|] eqn:Up; [|discriminate].
    destruct r0 as [c|]; simpl in H; inversion H; subst s1; clear H;
      [|apply updateCategory_Err in Up; subst; auto].
    apply updateCategory_Ok in Up.
    destruct Up as [c0 [F [-> [Hid [_ [Hn [_ Rn]]]]]]]. simpl.
    assert (Fd : findById (categories s) (docId c) = Some c0)
      by (change (docId c) with (Category._id c); now rewrite Hid).
    split.
    + unfold uniqueIds, save. rewrite map_docId_updateById; auto.
    + apply (NoDup_map_save Category.name _ c0 c U N Fd).
      unfold renamed in Rn.
      destruct (truthy (upd_name data)) as [n|]; [|now left].
      destruct (String.eqb n (Category.name c0)) eqn:E.
      * apply String.eqb_eq in E. left. congruence.
      * right. intros x Ix Nx Kx.
        unfold findOne in Rn. apply (find_none _ _ Rn) in Ix.
        apply andb_false_iff in Ix. destruct Ix as [Ix | Ix].
        -- apply String.eqb_neq in Ix. congruence.
        -- apply negb_false_iff, String.eqb_eq in Ix.
           apply Nx. change (docId c) with (Category._id c).
           change (docId x) with (Category._id x). congruence.
  - destruct (deleteCategory id s) as [s1 r0] eqn:D.
    apply deleteCategory_result in D.
    destruct r0 as [[]|]; simpl in H; inversion H; subst s1; clear H;
      [|subst; auto].
    destruct D as [-> _]. simpl.
    split; [apply (NoDup_map_deleteFirst docId); exact U
           | apply NoDup_map_deleteFirst; exact N].
  - unfold updateCategoryOrder in H.
    pose proof (orderFrom_keeps ids parentId 0 s) as K.
    destruct (orderFrom 0 ids parentId s) as [s1 [[]|e]]; simpl in H;
      inversion H; subst; clear H; [|auto].
    simpl in K.
    destruct K as [Ids [Names _]].
    unfold uniqueIds, uniqueNames in *.
    change (map docId (categories s')) with
      (map Category._id (categories s')).
    rewrite Ids, Names. auto.
Qed.
End CategoryUniqueness.

Lemma category_uniqueness_witness :
  uniqueIds
    (categories
       (set_categories
          (save (Category.set_parentCategory (Some Scenario.newsId)
                   Scenario.rust))
          Scenario.tree))
  /\ uniqueNames
       (categories
          (set_categories
             (save (Category.set_parentCategory (Some Scenario.newsId)
                      Scenario.rust))
             Scenario.tree)).
Proof.
  apply (category_ids_and_names_stay_unique (fun n => n) (fun n => n)
           (UpdateCategory 3 Scenario.rustId
              (Scenario.reparent Scenario.newsId))
           Scenario.tree _ None).
  - repeat constructor; simpl; intuition discriminate.
  - repeat constructor; simpl; intuition discriminate.
  - reflexivity.
Defined.

(** ** CategoryService: ordering *)

Lemma placed_id (index : Z) (parentId : option (option ObjectId))
    (c : Category.doc) :
  Category._id (placed index parentId c) = Category._id c.
Proof.
  unfold placed. destruct parentId as [parent|];
    [destruct (truthy parent)|]; reflexivity.
Qed.

Lemma findById_placed (l : list Category.doc) (id other : ObjectId)
    (index : Z) (parentId : option (option ObjectId)) :
  findById (updateById id (placed index parentId) l) other
  = if String.eqb other id
    then option_map (placed index parentId) (findById l id)
    else findById l other.
Proof.
  apply findById_updateById. intros d Hd.
  change (docId (placed index parentId d)) with
    (Category._id (placed index parentId d)).
  now rewrite placed_id.
Qed.

Lemma orderFrom_Ok (categoryIds : list ObjectId)
    (parentId : option (option ObjectId)) (index : Z) (s : Store) :
  NoDup categoryIds ->
  (forall id, In id categoryIds -> findById (categories s) id <> None) ->
  exists s',
    CategoryService.orderFrom index categoryIds parentId s = (s', Ok tt)
    /\ (forall k id,
          nth_error categoryIds k = Some id ->
          findById (categories s') id
          = option_map (placed (index + Z.of_nat k) parentId)
              (findById (categories s) id))
    /\ (forall other, ~ In other categoryIds ->
          findById (categories s') other = findById (categories s) other).
Proof.
  revert index s.
  induction categoryIds as [|id rest IH]; intros index s N St.
  - exists s. split; [reflexivity|]. split; [|reflexivity].
    intros [|k] id Q; discriminate.
  - inversion N as [|? ? Ni Nr]; subst.
    cbn [CategoryService.orderFrom].
    cbv beta iota delta [bind ret throw get modify reading].
    destruct (findById (categories s) id) as [c|] eqn:F;
      [|exfalso; apply (St id); [now left | exact F]].
    set (s1 := set_categories
                 (updateById id _) s).
    assert (C1 : categories s1
                 = updateById id (placed index parentId) (categories s))
      by reflexivity.
    assert (Same : forall other, other <> id ->
               findById (categories s1) other
               = findById (categories s) other).
    { intros other Ne. rewrite C1, findById_placed.
      apply String.eqb_neq in Ne. now rewrite Ne. }
    destruct (IH (index + 1) s1 Nr) as [s' [R [Listed Others]]].
    { intros id' I. rewrite Same; [apply St; now right|].
      intros ->. contradiction. }
    exists s'. split; [exact R|]. split.
    + intros [|k] id' Q; simpl in Q.
      * inversion Q; subst id'. rewrite Others by assumption.
        rewrite C1, findById_placed, String.eqb_refl, Z.add_0_r.
        reflexivity.
      * rewrite (Listed k id' Q).
        replace (index + 1 + Z.of_nat k) with (index + Z.of_nat (S k))
          by lia.
        rewrite Same; [reflexivity|].
        intros ->. apply Ni. eapply nth_error_In; eauto.
    + intros other No. rewrite Others by (intros I; apply No; now right).
      apply Same. intros ->. apply No. now left.
Qed.

(** X22.  updateCategoryOrder, given a list of distinct stored ids,
    succeeds and leaves each listed category with its position in the
    list as order, keeping its id and name; its parent is the passed id
    when that is a non-empty string, and is kept when no parent id is
    passed or the one passed is null or the empty string.  Categories
    that are not listed are found as before. *)
Theorem updateCategoryOrder_sets_order_to_position
    (categoryIds : list ObjectId) (parentId : option (option ObjectId))
    (s : Store) :
  NoDup categoryIds ->
  (forall id, In id categoryIds -> findById (categories s) id <> None) ->
  exists s',
    CategoryService.updateCategoryOrder categoryIds parentId s = (s', Ok tt)
    /\ (forall k id c,
          nth_error categoryIds k = Some id ->
          findById (categories s) id = Some c ->
          exists c',
            findById (categories s') id = Some c'
            /\ Category.order c' = Z.of_nat k
            /\ Category._id c' = Category._id c
            /\ Category.name c' = Category.name c
            /\ (parentId = None \/ parentId = Some None
                \/ parentId = Some (Some EmptyString) ->
                Category.parentCategory c' = Category.parentCategory c)
            /\ (forall p, parentId = Some (Some p) -> p <> EmptyString ->
                  Category.parentCategory c' = Some p))
    /\ (forall other, ~ In other categoryIds ->
          findById (categories s') other = findById (categories s) other).
Proof.
  intros N St.
  destruct (orderFrom_Ok categoryIds parentId 0 s N St)
    as [s' [R [Listed Others]]].
  exists s'. unfold CategoryService.updateCategoryOrder. rewrite R.
  split; [reflexivity|]. split; [|exact Others].
  intros k id c Q F. rewrite (Listed k id Q), F. simpl.
  eexists. split; [reflexivity|].
  unfold placed. destruct parentId as [[p0|]|]; simpl.
  - destruct (String.eqb p0 EmptyString) eqn:E0; simpl;
      repeat split; auto.
    + intros p E Ne. inversion E; subst p0.
      apply String.eqb_eq in E0. contradiction.
    + intros [K | [K | K]]; try discriminate.
      inversion K; subst p0. discriminate.
    + intros p E Ne. now inversion E.
  - repeat split; auto. intros p E. discriminate.
  - repeat split; auto. intros p E. discriminate.
Qed.

Lemma updateCategoryOrder_witness :
  exists s',
    CategoryService.updateCategoryOrder
      [Scenario.rustId; Scenario.techId] (Some None) Scenario.tree
    = (s', Ok tt)
    /\ (forall k id c,
          nth_error [Scenario.rustId; Scenario.techId] k = Some id ->
          findById (categories Scenario.tree) id = Some c ->
          exists c',
            findById (categories s') id = Some c'
            /\ Category.order c' = Z.of_nat k
            /\ Category._id c' = Category._id c
            /\ Category.name c' = Category.name c
            /\ (@Some (option ObjectId) None = None
                \/ @Some (option ObjectId) None = Some None
                \/ Some None = Some (Some EmptyString) ->
                Category.parentCategory c' = Category.parentCategory c)
            /\ (forall p, Some None = Some (Some p) -> p <> EmptyString ->
                  Category.parentCategory c' = Some p))
    /\ (forall other, ~ In other [Scenario.rustId; Scenario.techId] ->
          findById (categories s') other
          = findById (categories Scenario.tree) other).
Proof.
  apply (updateCategoryOrder_sets_order_to_position
           [Scenario.rustId; Scenario.techId] (Some None) Scenario.tree).
  - repeat constructor; simpl; intuition discriminate.
  - intros id [<- | [<- | []]]; discriminate.
Defined.

Lemma orderFrom_missing (before after : list ObjectId) (id : ObjectId)
    (parentId : option (option ObjectId)) (index : Z) (s : Store) :
  (forall i, In i before -> findById (categories s) i <> None) ->
  findById (categories s) id = None ->
  snd (CategoryService.orderFrom index (before ++ id :: after) parentId s)
  = Err (AppError ("ID为" ++ id ++ "的分类不存在") 404).
Proof.
  revert index s. induction before as [|i rest IH]; intros index s St Mi.
  - cbn [app CategoryService.orderFrom].
    cbv beta iota delta [bind ret throw get modify reading].
    now rewrite Mi.
  - cbn [app CategoryService.orderFrom].
    cbv beta iota delta [bind ret throw get modify reading].
    destruct (findById (categories s) i) as [c|] eqn:F;
      [|exfalso; apply (St i); [now left | exact F]].
    set (s1 := set_categories _ s).
    assert (C1 : categories s1
                 = updateById i (placed index parentId) (categories s))
      by reflexivity.
    specialize (IH (index + 1) s1).
    destruct (CategoryService.orderFrom (index + 1)
                (rest ++ id :: after) parentId s1) as [s2 r].
    simpl in *. rewrite IH; [reflexivity | |].
    + intros j Ij. rewrite C1, findById_placed.
      destruct (String.eqb j i); [now rewrite F|]. apply St. now right.
    + rewrite C1, findById_placed.
      destruct (String.eqb id i) eqn:E; [|exact Mi].
      apply String.eqb_eq in E. subst i. congruence.
Qed.

(** X23.  updateCategoryOrder stops at the first id of its list that
    names no stored category, with a 404 that quotes that id, and keeps
    none of the orders it has already written for the ids before it. *)
Theorem updateCategoryOrder_stops_at_the_first_missing_id
    (before after : list ObjectId) (id : ObjectId)
    (parentId : option (option ObjectId)) (s : Store) :
  (forall i, In i before -> findById (categories s) i <> None) ->
  findById (categories s) id = None ->
  CategoryService.updateCategoryOrder (before ++ id :: after) parentId s
  = (s, Err (AppError ("ID为" ++ id ++ "的分类不存在") 404)).
Proof.
  intros St Mi. unfold CategoryService.updateCategoryOrder.
  pose proof (orderFrom_missing before after id parentId 0 s St Mi) as R.
  destruct (CategoryService.orderFrom 0 (before ++ id :: after) parentId s)
    as [s1 r].
  simpl in R. now rewrite R.
Qed.

Lemma updateCategoryOrder_missing_witness :
  CategoryService.updateCategoryOrder
    ([Scenario.rustId] ++ "65b0000000000000000000ff" :: [Scenario.techId])
    None Scenario.tree
  = (Scenario.tree,
     Err (AppError ("ID为" ++ "65b0000000000000000000ff" ++ "的分类不存在")
            404)).
Proof.
  apply (updateCategoryOrder_stops_at_the_first_missing_id
           [Scenario.rustId] [Scenario.techId] "65b0000000000000000000ff"
           None Scenario.tree).
  - intros i [<- | []]; discriminate.
  - reflexivity.
Defined.

(** ** CategoryService: deletion *)

Lemma In_deleteFirst {A} (q : A -> bool) (l : list A) (x : A) :
  In x (deleteFirst q l) -> In x l.
Proof.
  induction l as [|y r IH]; simpl; [tauto|].
  destruct (q y); simpl; intuition.
Qed.

Lemma findById_deleteFirst_other {A} `{Document A} (l : list A)
    (id other : ObjectId) :
  other <> id ->
  findById (deleteFirst (fun d => String.eqb (docId d) id) l) other
  = findById l other.
Proof.
  intros N. unfold findById, findOne.
  induction l as [|x r IH]; simpl; auto.
  destruct (String.eqb (docId x) id) eqn:E.
  - apply String.eqb_eq in E.
    destruct (String.eqb (docId x) other) eqn:E'; auto.
    apply String.eqb_eq in E'. congruence.
  - simpl. now rewrite IH.
Qed.

Lemma findById_deleteFirst_same {A} `{Document A} (l : list A)
    (id : ObjectId) :
  uniqueIds l ->
  findById (deleteFirst (fun d => String.eqb (docId d) id) l) id = None.
Proof.
  unfold uniqueIds. induction l as [|x r IH]; simpl; intros U; auto.
  inversion U as [|? ? Hx Ur]; subst.
  destruct (String.eqb (docId x) id) eqn:E.
  - apply String.eqb_eq in E. apply findById_None. now rewrite <- E.
  - unfold findById, findOne. simpl. rewrite E. now apply IH.
Qed.

Lemma filter_nil {A} (q : A -> bool) (l : list A) :
  filter q l = [] -> forall x, In x l -> q x = false.
Proof.
  intros E x I. destruct (q x) eqn:Q; auto.
  assert (In x (filter q l)) by (apply filter_In; auto).
  rewrite E in H. destruct H.
Qed.

(** X24.  A successful deleteCategory leaves no reference to the deleted
    category: it is not found any more, no stored category has it as
    parent, no post is filed under it; all other categories are found as
    before and the posts are untouched. *)
Theorem deleteCategory_leaves_no_reference (s s' : Store)
    (categoryId : ObjectId) :
  uniqueIds (categories s) ->
  CategoryService.deleteCategory categoryId s = (s', Ok tt) ->
  findById (categories s') categoryId = None
  /\ (forall other, other <> categoryId ->
        findById (categories s') other = findById (categories s) other)
  /\ (forall c, In c (categories s') ->
        Category.parentCategory c <> Some categoryId)
  /\ (forall p, In p (posts s') -> Post.category p <> categoryId)
  /\ posts s' = posts s.
Proof.
  intros U D. apply deleteCategory_result in D.
  destruct D as [-> [_ [Ch Pc]]]. simpl.
  split; [now apply (findById_deleteFirst_same (categories s))|].
  split; [intros; now apply (findById_deleteFirst_other (categories s))|].
  split; [|split; [|reflexivity]].
  - intros c I P. apply In_deleteFirst in I.
    apply (filter_nil _ _ Ch) in I.
    unfold CategoryService.isChildOf in I. rewrite P in I.
    now rewrite String.eqb_refl in I.
  - intros p I E.
    assert (Nil : filter (fun p => String.eqb (Post.category p) categoryId)
                    (posts s) = []).
    { unfold countDocuments, lengthZ in Pc.
      destruct (filter _ (posts s)); [reflexivity|].
      simpl length in Pc. lia. }
    apply (filter_nil _ _ Nil) in I. simpl in I.
    rewrite E, String.eqb_refl in I. discriminate.
Qed.

Lemma deleteCategory_witness :
  findById
    (categories
       (set_categories
          (deleteFirst
             (fun c => String.eqb (Category._id c) Scenario.rustId))
          Scenario.tree))
    Scenario.rustId = None
  /\ (forall other, other <> Scenario.rustId ->
        findById
          (categories
             (set_categories
                (deleteFirst
                   (fun c => String.eqb (Category._id c) Scenario.rustId))
                Scenario.tree))
          other
        = findById (categories Scenario.tree) other)
  /\ (forall c,
        In c (categories
                (set_categories
                   (deleteFirst
                      (fun c => String.eqb (Category._id c)
                                  Scenario.rustId))
                   Scenario.tree)) ->
        Category.parentCategory c <> Some Scenario.rustId)
  /\ (forall p,
        In p (posts
                (set_categories
                   (deleteFirst
                      (fun c => String.eqb (Category._id c)
                                  Scenario.rustId))
                   Scenario.tree)) ->
        Post.category p <> Scenario.rustId)
  /\ posts
       (set_categories
          (deleteFirst
             (fun c => String.eqb (Category._id c) Scenario.rustId))
          Scenario.tree)
     = posts Scenario.tree.
Proof.
  apply (deleteCategory_leaves_no_reference Scenario.tree _
           Scenario.rustId).
  - repeat constructor; simpl; intuition discriminate.
  - reflexivity.
Defined.

(** X25.  What deleteCategory answers for a stored category: 400 "has
    child categories" when some stored category has it as parent;
    otherwise 400 with the number of posts filed under it when there is
    one or more; otherwise it succeeds.  The refusals write nothing. *)
Theorem deleteCategory_refuses_a_category_in_use (s : Store)
    (categoryId : ObjectId) (c : Category.doc) :
  findById (categories s) categoryId = Some c ->
  let postCount :=
    countDocuments (fun p => String.eqb (Post.category p) categoryId)
      (posts s) in
  ((exists child, In child (categories s)
                  /\ Category.parentCategory child = Some categoryId) ->
   CategoryService.deleteCategory categoryId s
   = (s, Err (AppError "该分类下有子分类，不能删除" 400)))
  /\ ((forall child, In child (categories s) ->
         Category.parentCategory child <> Some categoryId) ->
      (0 < postCount ->
       CategoryService.deleteCategory categoryId s
       = (s, Err (AppError ("该分类下有" ++ showCount postCount
                            ++ "篇文章，不能删除") 400)))
      /\ (postCount = 0 ->
          exists s', CategoryService.deleteCategory categoryId s
                     = (s', Ok tt))).
Proof.
  intros F postCount. unfold CategoryService.deleteCategory.
  cbv beta iota delta [bind ret throw get modify reading]. rewrite F.
  split.
  - intros [child [I P]].
    assert (Ic : In child (filter (CategoryService.isChildOf categoryId)
                             (categories s))).
    { apply filter_In. split; auto. unfold CategoryService.isChildOf.
      rewrite P. apply String.eqb_refl. }
    destruct (filter _ (categories s)); [destruct Ic | reflexivity].
  - intros No.
    assert (Nil : filter (CategoryService.isChildOf categoryId)
                    (categories s) = []).
    { destruct (filter _ (categories s)) as [|x r] eqn:E; auto.
      assert (Ix : In x (filter (CategoryService.isChildOf categoryId)
                           (categories s))) by (rewrite E; now left).
      apply filter_In in Ix. destruct Ix as [Ix Q].
      unfold CategoryService.isChildOf in Q.
      destruct (Category.parentCategory x) as [p|] eqn:P; [|discriminate].
      apply String.eqb_eq in Q. subst p. now apply No in Ix. }
    rewrite Nil. fold postCount. split.
    + intros L. apply Z.ltb_lt in L. now rewrite L.
    + intros Z0. rewrite Z0. simpl. eauto.
Qed.

Lemma deleteCategory_in_use_witness :
  let postCount :=
    countDocuments (fun p => String.eqb (Post.category p) Scenario.rustId)
      (posts Scenario.filed) in
  ((exists child, In child (categories Scenario.filed)
                  /\ Category.parentCategory child
                     = Some Scenario.rustId) ->
   CategoryService.deleteCategory Scenario.rustId Scenario.filed
   = (Scenario.filed, Err (AppError "该分类下有子分类，不能删除" 400)))
  /\ ((forall child, In child (categories Scenario.filed) ->
         Category.parentCategory child <> Some Scenario.rustId) ->
      (0 < postCount ->
       CategoryService.deleteCategory Scenario.rustId Scenario.filed
       = (Scenario.filed,
          Err (AppError ("该分类下有" ++ showCount postCount
                         ++ "篇文章，不能删除") 400)))
      /\ (postCount = 0 ->
          exists s', CategoryService.deleteCategory Scenario.rustId
                       Scenario.filed = (s', Ok tt))).
Proof.
  apply (deleteCategory_refuses_a_category_in_use Scenario.filed
           Scenario.rustId Scenario.rust).
  reflexivity.
Defined.

(** ** CategoryService: a category and everything below it *)

Lemma pushChildren_Some (fc : ObjectId -> option (list ObjectId))
    (children : list Category.doc) (l : list ObjectId) :
  CategoryService.pushChildren fc children = Some l ->
  (forall child, In child children ->
     exists below,
       fc (Category._id child) = Some below
       /\ In (Category._id child) l
       /\ forall d, In d below -> In d l)
  /\ (forall d, In d l ->
        exists child below,
          In child children
          /\ fc (Category._id child) = Some below
          /\ (d = Category._id child \/ In d below)).
Proof.
  revert l. induction children as [|c rest IH]; simpl; intros l H.
  - inversion H; subst. split; [intros ? []|intros ? []].
  - destruct (fc (Category._id c)) as [below|] eqn:Fc; [|discriminate].
    destruct (CategoryService.pushChildren fc rest) as [after|];
      [|discriminate].
    inversion H; subst l; clear H.
    destruct (IH after eq_refl) as [Each Back]. split.
    + intros child [<- | I].
      * exists below. split; [exact Fc|]. split; [now left|].
        intros d Id. right. apply in_or_app. now left.
      * destruct (Each child I) as [b [Fb [Ic Ib]]].
        exists b. split; [exact Fb|]. split.
        -- right. apply in_or_app. now right.
        -- intros d Id. right. apply in_or_app. right. now apply Ib.
    + intros d [<- | I].
      * exists c, below. auto.
      * apply in_app_or in I. destruct I as [I | I].
        -- exists c, below. auto.
        -- destruct (Back d I) as [child [b [Ic [Fb Or]]]].
           exists child, b. auto.
Qed.

Lemma pushChildren_total (fc : ObjectId -> option (list ObjectId))
    (children : list Category.doc) :
  (forall child, In child children ->
     exists below, fc (Category._id child) = Some below) ->
  exists l, CategoryService.pushChildren fc children = Some l.
Proof.
  induction children as [|c rest IH]; simpl; intros E; [eauto|].
  destruct (E c (or_introl eq_refl)) as [below Fc]. rewrite Fc.
  destruct IH as [after Fa]; [intros; apply E; now right|].
  rewrite Fa. eauto.
Qed.

Lemma isChildOf_In (cats : list Category.doc) (p : ObjectId)
    (c : Category.doc) :
  In c (filter (CategoryService.isChildOf p) cats)
  <-> In c cats /\ Category.parentCategory c = Some p.
Proof.
  rewrite filter_In. unfold CategoryService.isChildOf.
  destruct (Category.parentCategory c) as [q|].
  - split; intros [I E]; split; auto.
    + apply String.eqb_eq in E. now subst.
    + inversion E. apply String.eqb_refl.
  - split; intros [I E]; discriminate.
Qed.

Lemma descendantAt_top (cats : list Category.doc) (x d : ObjectId)
    (n : nat) :
  descendantAt cats x (S n) d ->
  exists q, descendantAt cats x 0 q /\ descendantAt cats q n d.
Proof.
  revert d. induction n as [|n IH]; intros d D;
    inversion D as [|? ? c p F P Dp]; subst.
  - exists p. split; [exact Dp|]. eapply child_of; eauto.
  - destruct (IH p Dp) as [q [Top Rest]].
    exists q. split; [exact Top|]. eapply below_child; eauto.
Qed.

Section Subtree.
Variable cats : list Category.doc.
Hypothesis unique : uniqueIds cats.

Lemma findChildren_sound (fuel : nat) (p : ObjectId) (l : list ObjectId) :
  CategoryService.findChildren fuel cats p = Some l ->
  forall d, In d l -> descendant cats p d.
Proof.
  revert p l. induction fuel as [|fuel IH]; intros p l H d I;
    [discriminate|].
  simpl in H. apply pushChildren_Some in H. destruct H as [_ Back].
  destruct (Back d I) as [child [below [Ic [Fb Or]]]].
  apply isChildOf_In in Ic. destruct Ic as [Ic Pc].
  assert (Dc : descendant cats p (Category._id child)).
  { exists 0%nat. eapply child_of; [|exact Pc].
    now apply findById_unique. }
  destruct Or as [-> | Ib]; [exact Dc|].
  eapply descendant_trans; [exact Dc|]. eapply IH; eauto.
Qed.

Lemma findChildren_complete (fuel : nat) (p : ObjectId)
    (l : list ObjectId) :
  CategoryService.findChildren fuel cats p = Some l ->
  forall n d, descendantAt cats p n d -> In d l.
Proof.
  revert p l. induction fuel as [|fuel IH]; intros p l H n d D;
    [discriminate|].
  simpl in H. apply pushChildren_Some in H. destruct H as [Each _].
  assert (Child : forall q, descendantAt cats p 0 q ->
            exists c, In c (filter (CategoryService.isChildOf p) cats)
                      /\ Category._id c = q).
  { intros q Dq. inversion Dq as [? c F P|]; subst.
    apply findById_Some in F. destruct F as [Hid I].
    exists c. split; [|exact Hid]. apply isChildOf_In. auto. }
  destruct n as [|n].
  - destruct (Child d D) as [c [Ic Hid]].
    destruct (Each c Ic) as [below [_ [Il _]]]. now rewrite <- Hid.
  - apply descendantAt_top in D. destruct D as [q [Top Rest]].
    destruct (Child q Top) as [c [Ic Hid]].
    destruct (Each c Ic) as [below [Fb [_ Ib]]].
    apply Ib. rewrite Hid in Fb. eapply IH; eauto.
Qed.

Lemma findChildren_total (rank : ObjectId -> nat) (fuel : nat)
    (p : ObjectId) :
  ranked rank cats ->
  (forall c, In c cats -> (rank (Category._id c) <= rank p + fuel)%nat) ->
  exists l, CategoryService.findChildren (S fuel) cats p = Some l.
Proof.
  unfold ranked. intros R. rewrite Forall_forall in R.
  revert p. induction fuel as [|fuel IH]; intros p B.
  - cbn [CategoryService.findChildren].
    destruct (filter (CategoryService.isChildOf p) cats) as [|c r] eqn:E;
      [simpl; eauto|].
    assert (Ic : In c (filter (CategoryService.isChildOf p) cats))
      by (rewrite E; now left).
    apply isChildOf_In in Ic. destruct Ic as [Ic Pc].
    pose proof (R c Ic) as Rc. rewrite Pc in Rc.
    pose proof (B c Ic). lia.
  - change (CategoryService.findChildren (S (S fuel)) cats p)
      with (CategoryService.pushChildren
              (CategoryService.findChildren (S fuel) cats)
              (filter (CategoryService.isChildOf p) cats)).
    apply pushChildren_total. intros child Ic.
    apply isChildOf_In in Ic. destruct Ic as [Ic Pc].
    pose proof (R child Ic) as Rc. rewrite Pc in Rc.
    apply IH. intros c I. pose proof (B c I). lia.
Qed.
End Subtree.

(** X26.  getCategoryAndChildrenIds returns the category's id followed
    by the ids of exactly the categories below it.  On categories with
    unique ids whose parent links decrease some measure, the recursion
    ends within as many levels as the measure of a stored category can
    exceed that of the category asked for, and an id is in the result
    exactly when it is the category's or a descendant's. *)
Theorem getCategoryAndChildrenIds_collects_the_subtree
    (rank : ObjectId -> nat) (fuel : nat) (categoryId : ObjectId)
    (s : Store) :
  uniqueIds (categories s) ->
  ranked rank (categories s) ->
  (forall c, In c (categories s) ->
     (rank (Category._id c) <= rank categoryId + fuel)%nat) ->
  exists ids,
    CategoryService.getCategoryAndChildrenIds (S fuel) categoryId s
    = Some ids
    /\ hd_error ids = Some categoryId
    /\ forall d, In d ids
                 <-> d = categoryId \/ descendant (categories s) categoryId d.
Proof.
  intros U R B. unfold CategoryService.getCategoryAndChildrenIds.
  destruct (findChildren_total (categories s) rank fuel categoryId R B)
    as [l F].
  rewrite F. exists (categoryId :: l). split; [reflexivity|].
  split; [reflexivity|]. intros d. simpl. split.
  - intros [<- | I]; [now left|]. right.
    eapply findChildren_sound; eauto.
  - intros [-> | [n D]]; [now left|]. right.
    eapply findChildren_complete; eauto.
Qed.

Lemma getCategoryAndChildrenIds_witness :
  exists ids,
    CategoryService.getCategoryAndChildrenIds 3 Scenario.newsId
      Scenario.tree = Some ids
    /\ hd_error ids = Some Scenario.newsId
    /\ forall d, In d ids
                 <-> d = Scenario.newsId
                     \/ descendant (categories Scenario.tree)
                          Scenario.newsId d.
Proof.
  apply (getCategoryAndChildrenIds_collects_the_subtree Scenario.treeDepth
           2 Scenario.newsId Scenario.tree).
  - repeat constructor; simpl; intuition discriminate.
  - repeat constructor; simpl; lia.
  - intros c [<- | [<- | [<- | []]]]; vm_compute; lia.
Defined.

(** ** CategoryService: ordering under a new parent *)

(** X27.  updateCategoryOrder checks no cycle.  Called with a parent id
    that is itself in the list of distinct stored ids, it succeeds and
    leaves that category as its own parent, so the categories are no
    longer a forest: the check of updateCategory has no counterpart
    here. *)
Theorem updateCategoryOrder_can_close_a_cycle (categoryIds : list ObjectId)
    (p : ObjectId) (s : Store) :
  NoDup categoryIds ->
  (forall id, In id categoryIds -> findById (categories s) id <> None) ->
  In p categoryIds ->
  p <> EmptyString ->
  exists s',
    CategoryService.updateCategoryOrder categoryIds (Some (Some p)) s
    = (s', Ok tt)
    /\ descendant (categories s') p p
    /\ ~ acyclic (categories s').
Proof.
  intros N St Ip Ne.
  destruct (orderFrom_Ok categoryIds (Some (Some p)) 0 s N St)
    as [s' [R [Listed _]]].
  exists s'. unfold CategoryService.updateCategoryOrder. rewrite R.
  split; [reflexivity|].
  assert (D : descendant (categories s') p p).
  { destruct (In_nth_error _ _ Ip) as [k Q].
    destruct (findById (categories s) p) as [c|] eqn:F;
      [|exfalso; now apply (St p)].
    pose proof (Listed k p Q) as F'. rewrite F in F'. simpl in F'.
    exists 0%nat. eapply child_of; [exact F'|].
    unfold placed. simpl. apply String.eqb_neq in Ne. now rewrite Ne. }
  split; [exact D|]. intros A. exact (A p D).
Qed.

Lemma updateCategoryOrder_cycle_witness :
  exists s',
    CategoryService.updateCategoryOrder [Scenario.techId; Scenario.rustId]
      (Some (Some Scenario.rustId)) Scenario.tree
    = (s', Ok tt)
    /\ descendant (categories s') Scenario.rustId Scenario.rustId
    /\ ~ acyclic (categories s').
Proof.
  apply (updateCategoryOrder_can_close_a_cycle
           [Scenario.techId; Scenario.rustId] Scenario.rustId
           Scenario.tree).
  - repeat constructor; simpl; intuition discriminate.
  - intros id [<- | [<- | []]]; discriminate.
  - simpl. auto.
  - discriminate.
Defined.

(** ** NotificationService: deleting notifications *)

Lemma filter_deleteFirst_other {A} (q keep : A -> bool) (l : list A) :
  (forall x, q x = true -> keep x = false) ->
  filter keep (deleteFirst q l) = filter keep l.
Proof.
  intros Q. induction l as [|x r IH]; simpl; auto.
  destruct (q x) eqn:E; simpl.
  - now rewrite (Q x E).
  - now rewrite IH.
Qed.

Lemma filter_deleteMany_other {A} (q keep : A -> bool) (l : list A) :
  (forall x, q x = true -> keep x = false) ->
  filter keep (deleteMany q l) = filter keep l.
Proof.
  intros Q. unfold deleteMany. induction l as [|x r IH]; simpl; auto.
  destruct (q x) eqn:E; simpl.
  - now rewrite (Q x E).
  - now rewrite IH.
Qed.

(** X28.  Deleting notifications is scoped to the caller: whatever ids
    and flags are passed, deleteNotification and deleteNotifications
    leave the notifications of every other recipient in place and in
    order, and touch no other collection. *)
Theorem notification_deletion_spares_other_recipients (userId : ObjectId)
    (s : Store) :
  let others l :=
    filter (fun n => negb (String.eqb (Notification.recipient n) userId))
      l in
  let spared s' :=
    others (notifications s') = others (notifications s)
    /\ (users s', tagDocs s', categories s', posts s', comments s')
       = (users s, tagDocs s, categories s, posts s, comments s) in
  (forall notificationId,
     spared
       (fst (NotificationService.deleteNotification notificationId userId
               s)))
  /\ (forall notificationIds deleteAllRead,
        spared
          (fst (NotificationService.deleteNotifications userId
                  notificationIds deleteAllRead s))).
Proof.
  intros others spared. subst others spared. cbv beta. split.
  - intros nid. unfold NotificationService.deleteNotification.
    cbv beta iota zeta delta [bind ret throw get modify reading].
    set (q := fun n => String.eqb (Notification._id n) nid
                       && String.eqb (Notification.recipient n) userId).
    assert (E : filter
                  (fun n => negb (String.eqb (Notification.recipient n)
                                    userId))
                  (deleteFirst q (notifications s))
                = filter
                    (fun n => negb (String.eqb (Notification.recipient n)
                                      userId))
                    (notifications s)).
    { apply filter_deleteFirst_other. intros x Qx. unfold q in Qx.
      apply andb_true_iff in Qx. destruct Qx as [_ Qx]. now rewrite Qx. }
    destruct (existsb q (notifications s)); simpl; auto.
  - intros ids flag. unfold NotificationService.deleteNotifications.
    destruct (NotificationService.deletionQuery userId ids flag)
      as [q|] eqn:Dq; [|simpl; auto].
    cbv beta iota zeta delta [bind ret throw get modify reading]. simpl.
    split; [|reflexivity].
    apply filter_deleteMany_other. intros x Qx.
    unfold NotificationService.deletionQuery in Dq.
    destruct ids as [[|i rest]|]; [| |];
      try (inversion Dq; subst q;
           apply andb_true_iff in Qx; destruct Qx as [Qx _];
           now rewrite Qx);
      destruct flag as [[|]|]; try discriminate;
      inversion Dq; subst q;
      apply andb_true_iff in Qx; destruct Qx as [Qx _]; now rewrite Qx.
Qed.

Lemma countDocuments_deleteMany {A} (q : A -> bool) (l : list A) :
  countDocuments q l = lengthZ l - lengthZ (deleteMany q l).
Proof.
  unfold countDocuments, deleteMany, lengthZ.
  induction l as [|x r IH]; [reflexivity|].
  cbn [filter]. destruct (q x); cbn [negb length]; lia.
Qed.

Lemma In_deleteMany {A} (q : A -> bool) (l : list A) (x : A) :
  In x (deleteMany q l) <-> In x l /\ q x = false.
Proof.
  unfold deleteMany. rewrite filter_In. now rewrite negb_true_iff.
Qed.

(** X29.  deleteNotifications returns the number of notifications it has
    removed.  With a non-empty list of ids it removes the caller's
    notifications with those ids, whatever the flag says; without ids
    and with the flag set it removes the caller's read notifications;
    with neither it returns 0 and writes nothing. *)
Theorem deleteNotifications_removes_what_it_counts (userId : ObjectId)
    (notificationIds : option (list ObjectId)) (deleteAllRead : option bool)
    (s : Store) :
  let r := NotificationService.deleteNotifications userId notificationIds
             deleteAllRead s in
  snd r = Ok (lengthZ (notifications s) - lengthZ (notifications (fst r)))
  /\ (forall i rest x,
        notificationIds = Some (i :: rest) ->
        (In x (notifications (fst r))
         <-> In x (notifications s)
             /\ ~ (Notification.recipient x = userId
                   /\ In (Notification._id x) (i :: rest))))
  /\ (forall x,
        notificationIds = None \/ notificationIds = Some [] ->
        deleteAllRead = Some true ->
        (In x (notifications (fst r))
         <-> In x (notifications s)
             /\ ~ (Notification.recipient x = userId
                   /\ Notification.isRead x = true)))
  /\ (notificationIds = None \/ notificationIds = Some [] ->
      deleteAllRead <> Some true ->
      r = (s, Ok 0)).
Proof.
  intros r. subst r. unfold NotificationService.deleteNotifications.
  assert (Query : forall q,
            let r := (set_notifications (deleteMany q) s,
                      @Ok Z (countDocuments q (notifications s))) in
            snd r = Ok (lengthZ (notifications s)
                        - lengthZ (notifications (fst r)))
            /\ forall x, In x (notifications (fst r))
                         <-> In x (notifications s) /\ q x = false).
  { intros q. simpl. split; [now rewrite countDocuments_deleteMany|].
    intros x. apply In_deleteMany. }
  destruct notificationIds as [[|i rest]|]; simpl.
  - destruct deleteAllRead as [[|]|]; simpl.
    + cbv beta iota zeta delta [bind ret throw get modify reading].
      destruct (Query (fun n => String.eqb (Notification.recipient n) userId
                                && Notification.isRead n)) as [Q1 Q2].
      split; [exact Q1|]. split; [intros; discriminate|].
      split; [|intros _ N; now contradiction N].
      intros x _ _. rewrite Q2, andb_false_iff, String.eqb_neq.
      split; intros [I D]; split; auto.
      * intros [Rx Rd]. destruct D; congruence.
      * destruct (String.eqb_spec (Notification.recipient x) userId);
          [|now left].
        right. destruct (Notification.isRead x); auto.
        exfalso. apply D. auto.
    + split; [f_equal; lia|]. split; [intros; discriminate|].
      split; [intros; discriminate | reflexivity].
    + split; [f_equal; lia|]. split; [intros; discriminate|].
      split; [intros; discriminate | reflexivity].
  - cbv beta iota zeta delta [bind ret throw get modify reading].
    destruct (Query (fun n => String.eqb (Notification.recipient n) userId
                              && memId (Notification._id n) (i :: rest)))
      as [Q1 Q2].
    split; [exact Q1|]. split.
    + intros i' rest' x E. inversion E; subst i' rest'.
      rewrite Q2, andb_false_iff, String.eqb_neq.
      split; intros [I D]; split; auto.
      * intros [Rx Rd]. destruct D as [D | D]; [congruence|].
        pose proof (proj2 (memId_In (Notification._id x) (i :: rest)) Rd)
          as M.
        congruence.
      * destruct (String.eqb_spec (Notification.recipient x) userId);
          [|now left].
        right. destruct (memId (Notification._id x) (i :: rest)) eqn:Mx;
          auto.
        exfalso. apply D. split; auto.
        exact (proj1 (memId_In _ (i :: rest)) Mx).
    + split; [intros x [E | E]; discriminate|].
      intros [E | E]; discriminate.
  - destruct deleteAllRead as [[|]|]; simpl.
    + cbv beta iota zeta delta [bind ret throw get modify reading].
      destruct (Query (fun n => String.eqb (Notification.recipient n) userId
                                && Notification.isRead n)) as [Q1 Q2].
      split; [exact Q1|]. split; [intros; discriminate|].
      split; [|intros _ N; now contradiction N].
      intros x _ _. rewrite Q2, andb_false_iff, String.eqb_neq.
      split; intros [I D]; split; auto.
      * intros [Rx Rd]. destruct D; congruence.
      * destruct (String.eqb_spec (Notification.recipient x) userId);
          [|now left].
        right. destruct (Notification.isRead x); auto.
        exfalso. apply D. auto.
    + split; [f_equal; lia|]. split; [intros; discriminate|].
      split; [intros; discriminate | reflexivity].
    + split; [f_equal; lia|]. split; [intros; discriminate|].
      split; [intros; discriminate | reflexivity].
Qed.

Lemma deleteNotifications_witness :
  snd (NotificationService.deleteNotifications Scenario.annId
         (Some ["65e000000000000000000001"]) None Scenario.afterA)
  = Ok 1.
Proof.
  exact (proj1 (deleteNotifications_removes_what_it_counts
                  Scenario.annId (Some ["65e000000000000000000001"]) None
                  Scenario.afterA)).
Defined.

Lemma deleteFirst_none {A} (q : A -> bool) (l : list A) :
  existsb q l = false -> deleteFirst q l = l.
Proof.
  induction l as [|x r IH]; simpl; auto.
  destruct (q x); simpl; [discriminate|]. intros E. now rewrite IH.
Qed.

Lemma length_deleteFirst {A} (q : A -> bool) (l : list A) :
  existsb q l = true ->
  lengthZ (deleteFirst q l) = lengthZ l - 1.
Proof.
  unfold lengthZ. induction l as [|x r IH]; [discriminate|].
  cbn [existsb deleteFirst]. destruct (q x); cbn [orb length].
  - lia.
  - intros E. specialize (IH E). lia.
Qed.

(** X30.  deleteNotification removes one notification when the caller
    has one with that id, and otherwise answers 404 and leaves the
    database as it is: the notification of another recipient is treated
    like one that does not exist. *)
Theorem deleteNotification_removes_the_callers_notification_only
    (notificationId userId : ObjectId) (s : Store) :
  ((exists n, In n (notifications s)
              /\ Notification._id n = notificationId
              /\ Notification.recipient n = userId) ->
   exists s',
     NotificationService.deleteNotification notificationId userId s
     = (s', Ok tt)
     /\ lengthZ (notifications s') = lengthZ (notifications s) - 1
     /\ forall x, In x (notifications s') -> In x (notifications s))
  /\ ((forall n, In n (notifications s) ->
         Notification._id n = notificationId ->
         Notification.recipient n <> userId) ->
      NotificationService.deleteNotification notificationId userId s
      = (s, Err (AppError "通知不存在或无权操作" 404))).
Proof.
  unfold NotificationService.deleteNotification.
  cbv beta iota zeta delta [bind ret throw get modify reading].
  set (q := fun n => String.eqb (Notification._id n) notificationId
                     && String.eqb (Notification.recipient n) userId).
  split.
  - intros [n [I [Hid Hr]]].
    assert (E : existsb q (notifications s) = true).
    { apply existsb_exists. exists n. split; auto. unfold q.
      now rewrite Hid, Hr, !String.eqb_refl. }
    rewrite E. simpl. eexists. split; [reflexivity|]. simpl.
    split; [now apply length_deleteFirst|].
    intros x. apply In_deleteFirst.
  - intros No.
    assert (E : existsb q (notifications s) = false).
    { destruct (existsb q (notifications s)) eqn:E; auto.
      apply existsb_exists in E. destruct E as [n [I Q]]. unfold q in Q.
      apply andb_true_iff in Q. destruct Q as [Qi Qr].
      apply String.eqb_eq in Qi, Qr. exfalso. now apply (No n). }
    rewrite E. simpl. unfold set_notifications.
    rewrite (deleteFirst_none _ _ E). now destruct s.
Qed.

Lemma deleteNotification_witness :
  exists s',
    NotificationService.deleteNotification "65e000000000000000000001"
      Scenario.annId Scenario.afterA = (s', Ok tt)
    /\ lengthZ (notifications s')
       = lengthZ (notifications Scenario.afterA) - 1
    /\ forall x, In x (notifications s') ->
                 In x (notifications Scenario.afterA).
Proof.
  apply (proj1 (deleteNotification_removes_the_callers_notification_only
                  "65e000000000000000000001" Scenario.annId
                  Scenario.afterA)).
  eexists. split; [left; reflexivity|]. split; reflexivity.
Defined.
